(** * Chunk planning, dispatch and reduction of coffea's processor executor

    A shallow embedding of [coffea/processor/executor.py]: the file
    descriptor [FileMeta] and its chunk planner, the work item, the
    compression codec and the reducer, the completion handler, the in-core
    executors, the retrying work function and the orchestrator
    [run_uproot_job], followed by the properties stated about them.

    Python integers are [Z]; a [dict] with string keys is a [gmap string _];
    a raised exception is the [Raise] case of [result]; a loop that Python
    does not bound is run with fuel. *)

From Stdlib Require Import ZArith Lia List Bool String Ascii.
From stdpp Require Import base option list gmap strings pretty.

Local Open Scope string_scope.
Local Open Scope list_scope.
Local Open Scope Z_scope.

(** ** Exceptions and results *)

(** The class of an exception, as far as the module tells classes apart.
    [OSError] stands for [OSError] and the built-in classes under it, every
    other name for the class itself.  A class without a name here is
    [OtherException] when it is built from its message and prints as it, as
    [Exception] is, and [OtherExceptionArgs] when its constructor does not
    take a single string, [complaint] being the message of the [TypeError]
    that calling it with one raises.  The message of an exception is what
    [str] gives of it.  The exceptions are those of class [Exception] that
    pass through an iterator as they are: [StopIteration], which ends the
    iteration it is raised into, is not among them. *)
Inductive exn_kind :=
| OSError
| RuntimeError
| ValueError
| TypeError
| KeyError
| IndexError
| ZeroDivisionError
| OverflowError
| AttributeError
| UnboundLocalError
| OtherException
| OtherExceptionArgs (complaint : string).

Record exn := Exn { exn_kind_of : exn_kind; exn_msg : string }.

Inductive result (A : Type) :=
| Ok (a : A)
| Raise (e : exn).
Arguments Ok {A} a.
Arguments Raise {A} e.

Definition rbind {A B} (r : result A) (k : A → result B) : result B :=
  match r with
  | Ok a => k a
  | Raise e => Raise e
  end.

Notation "'let?' x ':=' r 'in' k" := (rbind r (λ x, k))
  (at level 10, x name, r at level 100, k at level 200, only parsing).

Definition raise {A} (k : exn_kind) (msg : string) : result A := Raise (Exn k msg).

(** ** Python arithmetic used by the planner

    The planner divides two integers with [/], which gives a float, and
    takes [round] and [math.ceil] of it.  A float is kept as the pair
    [(m, e)] standing for [m * 2^e]. *)

(** The exact quotient [a / b], [b ≠ 0], rounded to the nearest integer, a
    tie going to the even neighbour. *)
Definition py_round_div (a b : Z) : Z :=
  let q := a / b in
  let r := a mod b in
  match 2 * Z.abs r ?= Z.abs b with
  | Lt => q
  | Gt => q + 1
  | Eq => if Z.even q then q else q + 1
  end.

(** The exact quotient [a / n], [n > 0], rounded up to an integer. *)
Definition py_ceil_div (a n : Z) : Z := - ((- a) / n).

(** [floor(log2(a / b))] for [a, b > 0] *)
Definition quotient_log2 (a b : Z) : Z :=
  let d := Z.log2 a - Z.log2 b in
  if b * 2 ^ Z.max d 0 <=? a * 2 ^ Z.max (- d) 0 then d else d - 1.

Definition pyfloat : Type := Z * Z.

(** [a / b] on integers: the double nearest to the exact quotient, with 53
    bits of mantissa above the exponent [-1074] of the subnormals, a tie
    going to the even mantissa; [OverflowError] from [2^1024] on. *)
Definition py_true_div (a b : Z) : result pyfloat :=
  if b =? 0 then raise ZeroDivisionError "division by zero"
  else if a =? 0 then Ok (0, 0)
  else
    let e := Z.max (quotient_log2 (Z.abs a) (Z.abs b) - 52) (-1074) in
    let m := py_round_div (Z.abs a * 2 ^ Z.max (- e) 0) (Z.abs b * 2 ^ Z.max e 0) in
    if (971 <? e) || ((e =? 971) && (m =? 2 ^ 53)) then
      raise OverflowError "integer division result too large for a float"
    else Ok (Z.sgn a * Z.sgn b * m, e).

(** [round(x)] of a float: the nearest integer, a tie going to the even one *)
Definition py_round (x : pyfloat) : Z :=
  if 0 <=? x.2 then x.1 * 2 ^ x.2 else py_round_div x.1 (2 ^ (- x.2)).

(** [math.ceil(x)] of a float *)
Definition math_ceil (x : pyfloat) : Z :=
  if 0 <=? x.2 then x.1 * 2 ^ x.2 else py_ceil_div x.1 (2 ^ (- x.2)).

(** [n = max(round(numentries / target_chunksize), 1)] and
    [actual_chunksize = math.ceil(numentries / n)] *)
Definition even_chunksize (numentries target_chunksize : Z) : result Z :=
  let? q := py_true_div numentries target_chunksize in
  let n := Z.max (py_round q) 1 in
  let? w := py_true_div numentries n in
  Ok (math_ceil w).

(** ** Metadata values *)

Inductive MetaVal :=
| MInt (z : Z)
| MBytes (b : string)
| MStr (s : string)
| MInts (l : list Z).

Abbreviation Metadata := (gmap string MetaVal).

Definition _PROTECTED_NAMES : gset string :=
  {[ "dataset"; "filename"; "treename"; "metadata"; "entrystart";
     "entrystop"; "fileuuid"; "numentries"; "uuid"; "clusters" ]}.

(** ** Work items *)

Module WorkItem.
Record t := Build {
  dataset : string;
  filename : string;
  treename : string;
  entrystart : Z;
  entrystop : Z;
  fileuuid : MetaVal;
  usermeta : option Metadata
}.

(** [__len__] *)
Definition len (self : t) : Z := entrystop self - entrystart self.

Definition range (self : t) : Z * Z := (entrystart self, entrystop self).
End WorkItem.

(** ** The even-split loop

    [while start < numentries: stop = min(...); next_chunksize = yield ...].
    The generator is driven to exhaustion; the value sent into the [k]-th
    [yield] is the [k]-th element of [sent] ([None] once [sent] is used up,
    which is what a plain [next] sends).  [None] is returned when the fuel
    runs out before the loop ends. *)

Definition truthy (next_chunksize : option Z) : bool :=
  match next_chunksize with
  | Some z => negb (z =? 0)
  | None => false
  end.

Fixpoint even_loop (fuel : nat) (mk : Z → Z → WorkItem.t) (numentries : Z)
    (dynamic_chunksize : bool) (start actual_chunksize : Z)
    (sent : list (option Z)) : option (list WorkItem.t) :=
  match fuel with
  | O => None
  | S fuel' =>
    if start <? numentries then
      let stop := Z.min numentries (start + actual_chunksize) in
      let next_chunksize := mjoin (head sent) in
      let start' := stop in
      let actual_chunksize' :=
        if dynamic_chunksize && truthy next_chunksize
        then default 0 next_chunksize else actual_chunksize in
      cons (mk start stop) <$>
        even_loop fuel' mk numentries dynamic_chunksize start' actual_chunksize'
                  (tail sent)
    else Some []
  end.

(** ** The cluster walk

    [chunks = [0]; for c in clusters: if c >= chunks[-1] + target: chunks.append(c)] *)
Definition cluster_walk (target_chunksize : Z) (clusters : list Z) : list Z :=
  fold_left
    (λ chunks c,
       if c >=? default 0 (last chunks) + target_chunksize then chunks ++ [c] else chunks)
    clusters [0].

(** ** File descriptors *)

Module FileMeta.
Record t := Build {
  dataset : string;
  filename : string;
  treename : string;
  metadata : option Metadata
}.

(** [__eq__]: the dataset takes no part. *)
Definition eqb (self other : t) : bool :=
  bool_decide (filename self = filename other)
  && bool_decide (treename self = treename other).

Definition populated (self : t) (clusters : bool) : bool :=
  match metadata self with
  | None => false
  | Some md =>
    if negb (bool_decide (is_Some (md !! "numentries")))
       || negb (bool_decide (is_Some (md !! "uuid")))
    then false
    else if clusters && negb (bool_decide (is_Some (md !! "clusters")))
    then false
    else true
  end.

(** [self.metadata[key]] *)
Definition getitem (md : Metadata) (key : string) : result MetaVal :=
  match md !! key with
  | Some v => Ok v
  | None => raise KeyError key
  end.

Definition as_int (v : MetaVal) : result Z :=
  match v with
  | MInt z => Ok z
  | _ => raise TypeError "unsupported operand type"
  end.

Definition as_ints (v : MetaVal) : result (list Z) :=
  match v with
  | MInts l => Ok l
  | _ => raise TypeError "object is not iterable"
  end.

(** [{k: self.metadata[k] for k in set(self.metadata.keys()) - _PROTECTED_NAMES}] *)
Definition user_meta (md : Metadata) : Metadata :=
  filter (λ kv, kv.1 ∉ _PROTECTED_NAMES) md.

(** [WorkItem(self.dataset, self.filename, self.treename, start, stop, uuid, user_meta)] *)
Definition work_item (self : t) (user_meta : Metadata) (uuid : MetaVal)
    (start stop : Z) : WorkItem.t :=
  WorkItem.Build (dataset self) (filename self) (treename self)
                 start stop uuid (Some user_meta).

Definition chunks (self : t) (target_chunksize : Z)
    (align_clusters dynamic_chunksize : bool)
    (sent : list (option Z)) (fuel : nat) : option (result (list WorkItem.t)) :=
  if align_clusters && dynamic_chunksize then
    Some (raise RuntimeError "align_clusters cannot be used with a dynamic chunksize.")
  else if negb (populated self align_clusters) then
    Some (raise RuntimeError "")
  else
    let md := default ∅ (metadata self) in
    match getitem md "uuid" with
    | Raise e => Some (Raise e)
    | Ok uuid =>
      let mk := work_item self (user_meta md) uuid in
      if align_clusters then
        Some (
          let? v := getitem md "clusters" in
          let? clusters := as_ints v in
          let chunks := cluster_walk target_chunksize clusters in
          let? last_cluster := match last clusters with
                         | Some c => Ok c
                         | None => raise IndexError "list index out of range"
                         end in
          let chunks :=
            if bool_decide (last_cluster ≠ default 0 (last chunks))
            then chunks ++ [last_cluster] else chunks in
          Ok (zip_with mk (removelast chunks) (tail chunks)))
      else
        match (let? v := getitem md "numentries" in as_int v) with
        | Raise e => Some (Raise e)
        | Ok numentries =>
          match even_chunksize numentries target_chunksize with
          | Raise e => Some (Raise e)
          | Ok actual_chunksize =>
            Ok <$> even_loop fuel mk numentries dynamic_chunksize
                             0 actual_chunksize sent
          end
        end
    end.
End FileMeta.

(** ** The chunk generator *)

(** What a generator did when driven to its end: the items it yielded and
    the exception that ended it, if one did. *)
Definition gen_out : Type := list WorkItem.t * option exn.

(** [list(gen)] *)
Definition materialize (g : gen_out) : result (list WorkItem.t) :=
  match g.2 with
  | Some e => Raise e
  | None => Ok g.1
  end.

(** [nchunks[dataset]] of a [defaultdict(int)] *)
Definition nchunks_get (nchunks : gmap string Z) (dataset : string) : Z :=
  default 0 (nchunks !! dataset).

(** The inner loop of the capped branch:
    [for chunk in filemeta.chunks(...): chunks.append(chunk); nchunks[ds] += 1;
     if nchunks[ds] >= maxchunks: break] *)
Fixpoint capped_inner (maxchunks : Z) (dataset : string) (produced : list WorkItem.t)
    (nchunks : gmap string Z) (chunks : list WorkItem.t)
    : gmap string Z * list WorkItem.t :=
  match produced with
  | [] => (nchunks, chunks)
  | chunk :: produced' =>
    let chunks := chunks ++ [chunk] in
    let nchunks := <[dataset := nchunks_get nchunks dataset + 1]> nchunks in
    if nchunks_get nchunks dataset >=? maxchunks then (nchunks, chunks)
    else capped_inner maxchunks dataset produced' nchunks chunks
  end.

(** The outer loop of the capped branch.  A file whose dataset has reached
    the cap is passed over without its chunks being asked for. *)
Fixpoint capped_outer (fuel : nat) (chunksize : Z) (align_clusters : bool)
    (maxchunks : Z) (fileset : list FileMeta.t)
    (nchunks : gmap string Z) (chunks : list WorkItem.t)
    : option (result (list WorkItem.t)) :=
  match fileset with
  | [] => Some (Ok chunks)
  | filemeta :: fileset' =>
    if nchunks_get nchunks (FileMeta.dataset filemeta) >=? maxchunks then
      capped_outer fuel chunksize align_clusters maxchunks fileset' nchunks chunks
    else
      match FileMeta.chunks filemeta chunksize align_clusters false [] fuel with
      | None => None
      | Some (Raise e) => Some (Raise e)
      | Some (Ok produced) =>
        let '(nchunks, chunks) :=
          capped_inner maxchunks (FileMeta.dataset filemeta) produced nchunks chunks in
        capped_outer fuel chunksize align_clusters maxchunks fileset' nchunks chunks
      end
  end.

(** The uncapped branch: [for filemeta in fileset: yield from filemeta.chunks(...)].
    A value sent to the generator reaches the file being chunked, so every
    yield uses up one element of [sent]. *)
Fixpoint uncapped (fuel : nat) (chunksize : Z) (align_clusters dynamic_chunksize : bool)
    (fileset : list FileMeta.t) (sent : list (option Z)) : option gen_out :=
  match fileset with
  | [] => Some ([], None)
  | filemeta :: fileset' =>
    match FileMeta.chunks filemeta chunksize align_clusters dynamic_chunksize sent fuel with
    | None => None
    | Some (Raise e) => Some ([], Some e)
    | Some (Ok produced) =>
      g ← uncapped fuel chunksize align_clusters dynamic_chunksize fileset'
                   (drop (length produced) sent);
      Some (produced ++ g.1, g.2)
    end
  end.

(** [yield from iter(chunks)] at the end of the capped branch.  A list
    iterator has no [send]: a value other than [None] sent into the
    generator after an item ends it with [AttributeError]. *)
Fixpoint yield_from_iter (chunks : list WorkItem.t) (sent : list (option Z)) : gen_out :=
  match chunks with
  | [] => ([], None)
  | chunk :: chunks' =>
    match mjoin (head sent) with
    | Some _ =>
      ([chunk], Some (Exn AttributeError "'list_iterator' object has no attribute 'send'"))
    | None =>
      let g := yield_from_iter chunks' (tail sent) in
      (chunk :: g.1, g.2)
    end
  end.

Definition _chunk_generator (fileset : list FileMeta.t) (chunksize : Z)
    (align_clusters : bool) (maxchunks : option Z) (dynamic_chunksize : bool)
    (sent : list (option Z)) (fuel : nat) : option gen_out :=
  match maxchunks with
  | None => uncapped fuel chunksize align_clusters dynamic_chunksize fileset sent
  | Some maxchunks =>
    r ← capped_outer fuel chunksize align_clusters maxchunks fileset ∅ [];
    match r with
    | Ok chunks => Some (yield_from_iter chunks sent)
    | Raise e => Some ([], Some e)
    end
  end.


(** ** Python objects that travel through the executors

    [V] is the caller's accumulator type; the other cases are the values the
    executor code itself builds or inspects: [None], a count, the [bytes] of a
    compressed payload, the [dict] a work function wraps its output in, and
    the set of file descriptors the metadata pass accumulates. *)
Local Set Warnings "-register-all".

Inductive PyObj (V : Type) :=
| PyNone
| PyInt (z : Z)
| PyBytes (b : string)
| PyAcc (v : V)
| PyDict (items : list (string * PyObj V))
| PyFileSet (files : list FileMeta.t).
Arguments PyNone {V}.
Arguments PyInt {V} z.
Arguments PyBytes {V} b.
Arguments PyAcc {V} v.
Arguments PyDict {V} items.
Arguments PyFileSet {V} files.

(** ** What the module imports

    [accumulate] (of [coffea.processor.accumulator], not part of these
    sources), [pickle.dumps] / [pickle.loads], [lz4.frame.compress] /
    [lz4.frame.decompress] and the distributed client are taken as they
    come; nothing is assumed about them here.

    [accumulate] is handed an iterable, of which it takes one item at a
    time: [accumulate items accum] is what it gives on an iterable that
    yields [items] and then ends, and [accumulate_stops items accum] tells
    whether, having taken [items], it is done without asking for another
    item.  [client_failure] is the failure a task of the distributed client
    ends with when several of the tasks it was handed have failed, of whose
    failures it is given the list. *)
Class External (V : Type) := {
  accumulate : list (PyObj V) → PyObj V → result (PyObj V);
  pickle_dumps : PyObj V → string;
  pickle_loads : string → result (PyObj V);
  lz4f_compress : string → Z → string;
  lz4f_decompress : string → result string;
  accumulate_stops : list (PyObj V) → PyObj V → bool;
  client_failure : list exn → exn
}.

(** [map(f, items)] consumed to its end: the first exception ends it. *)
Fixpoint map_result {A B} (f : A → result B) (items : list A) : result (list B) :=
  match items with
  | [] => Ok []
  | item :: items' =>
    let? x := f item in
    let? xs := map_result f items' in
    Ok (x :: xs)
  end.

Section Codec.
Context {V : Type} `{External V}.

Definition _compress (item : PyObj V) (clevel : Z) : PyObj V :=
  PyBytes (lz4f_compress (pickle_dumps item) clevel).

Definition _decompress (item : PyObj V) : result (PyObj V) :=
  match item with
  | PyBytes b =>
    let? raw := lz4f_decompress b in
    pickle_loads raw
  | _ => raise TypeError "a bytes-like object is required"
  end.

(** [_compression_wrapper(level, function).__call__] *)
Definition _compression_wrapper {A} (level : Z) (function : A → result (PyObj V))
    (arg : A) : result (PyObj V) :=
  let? out := function arg in
  Ok (_compress out level).

(** [_reduce(clevel).__call__].  [items.pop()] takes the last payload; the
    lazy [map(_decompress, items)] is consumed by [accumulate]. *)
Definition _reduce (clevel : option Z) (items : list (PyObj V)) : result (PyObj V) :=
  if (length items =? 0)%nat then
    raise ValueError "Empty list provided to reduction"
  else
    match clevel with
    | Some clevel =>
      let? out := _decompress (default PyNone (last items)) in
      let items := removelast items in
      let? decompressed := map_result _decompress items in
      let? out := accumulate decompressed out in
      Ok (_compress out clevel)
    | None => accumulate items PyNone
    end.
End Codec.

(** ** Warnings

    The text of a warning is kept as its kind and the numbers put in it. *)
Inductive warning :=
| NoFinishedJobs (timeout : Z) (remaining : nat)
| EarlyStop (cancelled running : nat)
| CancellingRunning (running : nat)
| BadFileSource (filename : string) (attempt : option (nat * nat)) (will_retry : bool)
| AttemptWillRetry (attempt total : nat)
| DataframesNeedDask.

(** ** In-flight operations

    A [concurrent.futures.Future] is known by what its [result()] gives once
    it is done and by whether it is running when asked.  When it is done is
    not its own business: each call of [concurrent.futures.wait] is answered
    by the scheduler, with the operations found done at that moment, or by a
    [KeyboardInterrupt], at which the operations of [finished] have finished
    without having been reported yet. *)
Inductive fut_outcome (V : Type) :=
| FutResult (v : PyObj V)
| FutRaises (e : exn).
Arguments FutResult {V} v.
Arguments FutRaises {V} e.

Record future (V : Type) := Future {
  f_outcome : fut_outcome V;
  f_running : bool
}.
Arguments Future {V} _ _.
Arguments f_outcome {V} _.
Arguments f_running {V} _.

Inductive wait_answer :=
| Completed (ids : list nat)
| Interrupted (finished : list nat).

Inductive hevent (V : Type) :=
| Yield (v : PyObj V)
| Warn (w : warning)
| Cancel (id : nat).
Arguments Yield {V} v.
Arguments Warn {V} w.
Arguments Cancel {V} id.

Inductive status :=
| Finished
| Failed (e : exn)
| Blocked.

Record handled (V : Type) := Handled {
  h_events : list (hevent V);
  h_status : status
}.
Arguments Handled {V} _ _.
Arguments h_events {V} _.
Arguments h_status {V} _.

Section Handler.
Context {V : Type}.

Definition after (events : list (hevent V)) (h : handled V) : handled V :=
  Handled (events ++ h_events h) (h_status h).

(** [sum(job.running() for job in futures)] *)
Definition running_count (futures : gmap nat (future V)) : nat :=
  length (filter (λ kv, f_running kv.2 = true) (map_to_list futures)).

(** The [done] set a [wait] returns: the operations reported done that are
    still in the set. *)
Definition wait_done (futures : gmap nat (future V)) (ids : list nat)
    : list (nat * future V) :=
  omap (λ i, pair i <$> futures !! i) (remove_dups ids).

(** The [not_done] set a [wait] returns. *)
Definition wait_not_done (futures : gmap nat (future V)) (ids : list nat)
    : gmap nat (future V) :=
  foldr delete futures ids.

(** [while done: try: yield done.pop().result() except CancelledError: pass].
    An operation cancelled before it ran raises [CancelledError]; another
    exception leaves the loop. *)
Fixpoint drain (cancelled : gset nat) (done : list (nat * future V))
    : list (hevent V) * option exn :=
  match done with
  | [] => ([], None)
  | (i, job) :: done' =>
    if bool_decide (i ∈ cancelled) then drain cancelled done'
    else
      match f_outcome job with
      | FutResult v =>
        let '(events, e) := drain cancelled done' in (Yield v :: events, e)
      | FutRaises e => ([], Some e)
      end
  end.

(** The [finally] block: a warning if some are running, then [_cancel] on
    each operation left. *)
Definition finally_cancel (futures : gmap nat (future V)) : list (hevent V) :=
  let running := running_count futures in
  (if (0 <? running)%nat then [Warn (CancellingRunning running)] else [])
  ++ map (λ kv, Cancel kv.1) (map_to_list futures).

(** A [wait] in which nothing completes: with a timeout it returns an empty
    [done] set, the handler warns and breaks out of the loop into [finally];
    without a timeout it never returns. *)
Definition no_progress (timeout : option Z) (futures : gmap nat (future V))
    : handled V :=
  match timeout with
  | Some t =>
    Handled (Warn (NoFinishedJobs t (size futures)) :: finally_cancel futures) Finished
  | None => Handled [] Blocked
  end.

(** The [except KeyboardInterrupt] block. *)
Definition on_interrupt (futures : gmap nat (future V)) : list (hevent V) :=
  let running := running_count futures in
  map (λ kv, Cancel kv.1) (map_to_list futures)
  ++ [Warn (EarlyStop (size futures - running) running)].

(** The ids [_cancel] does cancel: [cancel()] takes effect on an operation
    that is neither running nor finished. *)
Definition cancellable (futures : gmap nat (future V)) (finished : list nat)
    : gset nat :=
  dom (filter (λ kv, f_running kv.2 = false ∧ kv.1 ∉ finished) futures).

(** [while futures: ...] of [_futures_handler], driven to its end.  A script
    that has run out means that nothing completes any more. *)
Fixpoint handler_loop (timeout : option Z) (script : list wait_answer)
    (futures : gmap nat (future V)) (cancelled : gset nat) : handled V :=
  if bool_decide (futures = ∅) then Handled (finally_cancel futures) Finished
  else
    match script with
    | [] => no_progress timeout futures
    | Interrupted finished :: script' =>
      after (on_interrupt futures)
            (handler_loop timeout script' futures
                          (cancelled ∪ cancellable futures finished))
    | Completed ids :: script' =>
      let done := wait_done futures ids in
      let futures := wait_not_done futures ids in
      if (length done =? 0)%nat then no_progress timeout futures
      else
        let '(events, e) := drain cancelled done in
        match e with
        | Some e => Handled (events ++ finally_cancel futures) (Failed e)
        | None => after events (handler_loop timeout script' futures cancelled)
        end
    end.

Definition _futures_handler (futures : gmap nat (future V)) (timeout : option Z)
    (script : list wait_answer) : handled V :=
  handler_loop timeout script futures ∅.

(** The values a handler run yielded, in order. *)
Definition yielded (events : list (hevent V)) : list (PyObj V) :=
  omap (λ ev, match ev with Yield v => Some v | _ => None end) events.
End Handler.

(** ** Executors

    A function handed to an executor is pure up to the warnings it emits:
    it gives those warnings and either a value or an exception. *)
Definition worked (V : Type) : Type := list warning * result (PyObj V).

(** What an executor run did, as seen from outside. *)
Inductive xevent (Item V : Type) :=
| Invoked (item : Item)
| Warned (w : warning)
| Submitted (id : nat) (item : Item)
| Handling (ev : hevent V).
Arguments Invoked {Item V} item.
Arguments Warned {Item V} w.
Arguments Submitted {Item V} id item.
Arguments Handling {Item V} ev.

(** The keyword arguments the in-core executors read.  [None] is a key that
    was not passed; the progress-bar options change no result and are left
    out. *)
Record exe_kwargs := ExeKwargs {
  kw_compression : option (option Z);
  kw_tailtimeout : option (option Z)
}.

(** What the worker pool of a [futures_executor] call does: which
    operations are running when asked, and how each [wait] is answered. *)
Record pool_env := PoolEnv {
  pool_running : nat → bool;
  pool_script : list wait_answer
}.

(** The result of an executor call: the events, and the value returned or
    the exception raised; [None] when the call never returns. *)
Definition executed (Item V : Type) : Type :=
  list (xevent Item V) * option (result (PyObj V)).

Section Executors.
Context {V : Type} `{External V} {Item : Type}.

(** [accumulate(map(function, items), accumulator)]: [map] is lazy, so the
    function is called on an item when [accumulate] asks for it, [taken]
    being the outputs it has been given so far.  An exception of the
    function leaves [accumulate] as it is. *)
Fixpoint feed (function : Item → worked V) (taken : list (PyObj V))
    (items : list Item) (accumulator : PyObj V)
    : list (xevent Item V) * result (PyObj V) :=
  if accumulate_stops taken accumulator then ([], accumulate taken accumulator)
  else
    match items with
    | [] => ([], accumulate taken accumulator)
    | item :: items' =>
      let '(warnings, r) := function item in
      let here := Invoked item :: map Warned warnings in
      match r with
      | Raise e => (here, Raise e)
      | Ok v =>
        let '(events, out) := feed function (taken ++ [v]) items' accumulator in
        (here ++ events, out)
      end
    end.

Definition iterative_executor (items : list Item) (function : Item → worked V)
    (accumulator : PyObj V) (kwargs : exe_kwargs) : executed Item V :=
  if (length items =? 0)%nat then ([], Some (Ok accumulator))
  else
    let '(events, out) := feed function [] items accumulator in
    (events, Some out).

(** [pool.submit(function, item)]: the operation's result is what the
    function gives on the item. *)
Definition submit (pool : pool_env) (function : Item → result (PyObj V))
    (id : nat) (item : Item) : nat * future V :=
  (id, Future (match function item with
               | Ok v => FutResult v
               | Raise e => FutRaises e
               end) (pool_running pool id)).

(** [futures_executor] with the [pool] argument an executor instance, which
    the function uses as it is and does not shut down. *)
Definition futures_executor (pool : pool_env) (items : list Item)
    (function : Item → worked V) (accumulator : PyObj V) (kwargs : exe_kwargs)
    : executed Item V :=
  if (length items =? 0)%nat then ([], Some (Ok accumulator))
  else
    let clevel := default (Some 1) (kw_compression kwargs) in
    let tailtimeout := default None (kw_tailtimeout kwargs) in
    let function := λ item, (function item).2 in
    let function :=
      match clevel with
      | Some clevel => _compression_wrapper clevel function
      | None => function
      end in
    let futures : gmap nat (future V) :=
      list_to_map (imap (submit pool function) items) in
    let h := _futures_handler futures tailtimeout (pool_script pool) in
    let events := imap Submitted items ++ map Handling (h_events h) in
    let gen := yielded (h_events h) in
    let gen := match clevel with
               | None => Ok gen
               | Some _ => map_result _decompress gen
               end in
    match h_status h with
    | Blocked => (events, None)
    | Failed e => (events, Some (let? _ := gen in Raise e))
    | Finished => (events, Some (let? gen := gen in accumulate gen accumulator))
    end.
End Executors.

(** ** The world outside

    Opening and reading files, the caller's processor and its
    [postprocess] hook, and the file a file-set path names are not part of
    the module.  What the [k]-th attempt at a work item meets, what the
    [k]-th probe of a file finds, and what the hooks give are taken as
    given. *)
Inductive attempt (V : Type) :=
| OpenFails (e : exn)
| ReadFails (e : exn)
| ProcessRaises (e : exn)
| ProcessReturns (out metrics : PyObj V).
Arguments OpenFails {V} e.
Arguments ReadFails {V} e.
Arguments ProcessRaises {V} e.
Arguments ProcessReturns {V} out metrics.

Inductive probe :=
| ProbeFinds (numentries : Z) (uuid : string) (clusters : list Z)
| ProbeFails (e : exn).

Inductive fileset_entry :=
| FileList (files : list string)
| FileDict (treename : option string) (files : option (list string))
           (metadata : option Metadata)
| FileOther.

Inductive fileset_arg :=
| FilesetPath (path : string)
| FilesetMapping (datasets : list (string * fileset_entry))
| FilesetOther.

Class World (V : Type) := {
  world_process : WorkItem.t → nat → attempt V;
  world_probe : FileMeta.t → nat → probe;
  world_postprocess : PyObj V → result unit;
  world_json_load : string → result (list (string * fileset_entry))
}.

Inductive schema_t :=
| SchemaNone
| SchemaBase
| SchemaOther.

(** [needle in hay] *)
Definition contains (needle hay : string) : bool :=
  bool_decide (is_Some (String.index 0 needle hay)).

Definition is_os_error (e : exn) : bool :=
  match exn_kind_of e with
  | OSError => true
  | _ => false
  end.

Definition newline : string := String (Ascii.ascii_of_nat 10) "".

(** [repr] of a string: in single quotes, or in double quotes when it holds
    a single quote and no double one; the quote and the backslash escaped,
    tab, newline and carriage return by their letters and the other control
    characters in hexadecimal.  Bytes above 127 are taken as parts of
    printable characters and stay as they are. *)
Definition hex_digit (n : nat) : ascii :=
  default "0"%char (String.get n "0123456789abcdef").

Definition repr_char (quote c : ascii) : string :=
  let backslash := Ascii.ascii_of_nat 92 in
  let n := Ascii.nat_of_ascii c in
  if bool_decide (c = quote ∨ c = backslash) then String backslash (String c "")
  else if (n =? 9)%nat then String backslash "t"
  else if (n =? 10)%nat then String backslash "n"
  else if (n =? 13)%nat then String backslash "r"
  else if (n <? 32)%nat || (n =? 127)%nat then
    String backslash (String "x" (String (hex_digit (n / 16)) (String (hex_digit (n mod 16)) "")))
  else String c "".

Definition py_repr (s : string) : string :=
  let single := Ascii.ascii_of_nat 39 in
  let double := Ascii.ascii_of_nat 34 in
  let chars := list_ascii_of_string s in
  let quote :=
    if bool_decide (single ∈ chars) && negb (bool_decide (double ∈ chars))
    then double else single in
  String quote (foldr (λ c rest, (repr_char quote c ++ rest)%string) (String quote "") chars).

(** [type(e)(str(e) + file_trace)]: an exception of the class of [e] built
    from the one string, or the [TypeError] of a constructor that does not
    take it.  A [KeyError] prints as the [repr] of what it was built from. *)
Definition reraised (e : exn) (file_trace : string) : exn :=
  match exn_kind_of e with
  | OtherExceptionArgs complaint => Exn TypeError complaint
  | KeyError => Exn KeyError (py_repr (exn_msg e ++ file_trace)%string)
  | kind => Exn kind (exn_msg e ++ file_trace)%string
  end.

(** The warning of the [except OSError] block *)
Definition bad_file_warning (filename : string) (retries retry_count : nat) : warning :=
  if (retries =? 0)%nat then BadFileSource filename None false
  else BadFileSource filename (Some (retry_count + 1, retries + 1)%nat)
                     (retry_count + 1 <? retries)%nat.

(** [obj[key]] *)
Definition getitem_obj {V} (obj : PyObj V) (key : string) : result (PyObj V) :=
  match obj with
  | PyDict items =>
    match list_find (λ kv, kv.1 = key) items with
    | Some (_, (_, v)) => Ok v
    | None => raise KeyError key
    end
  | PyNone => raise TypeError "'NoneType' object is not subscriptable"
  | _ => raise TypeError "object is not subscriptable"
  end.

Section Work.
Context {V : Type} `{External V} `{World V}.

(** What leaves the [try] block of one attempt: a returned value, or an
    exception together with the local [out] as the attempt left it. *)
Inductive tried :=
| TryReturn (v : PyObj V)
| TryRaise (e : exn) (out : option (PyObj V)).

Definition try_body (item : WorkItem.t) (savemetrics : bool) (schema : schema_t)
    (use_dataframes : bool) (retry_count : nat) (out : option (PyObj V)) : tried :=
  match world_process item retry_count with
  | OpenFails e => TryRaise e out
  | met =>
    let uuid_ok :=
      match WorkItem.fileuuid item with
      | MBytes b => bool_decide (String.length b = 0%nat ∨ String.length b = 16%nat)
      | _ => false
      end in
    if negb uuid_ok then
      TryRaise (Exn ValueError "bytes is not a 16-char string") out
    else
      match schema, met with
      | SchemaOther, _ =>
        TryRaise (Exn ValueError "Expected schema to derive from nanoevents.BaseSchema") out
      | _, OpenFails e => TryRaise e out
      | _, ReadFails e => TryRaise e out
      | _, ProcessRaises e =>
        let file_trace :=
          newline ++ newline ++ "Failed processing file: " ++ WorkItem.filename item
          ++ " (" ++ pretty (WorkItem.entrystart item) ++ "-"
          ++ pretty (WorkItem.entrystop item) ++ ")" in
        TryRaise (reraised e file_trace) out
      | _, ProcessReturns o metrics =>
        match o with
        | PyNone =>
          TryRaise (Exn ValueError "Output of process() should not be None.") (Some o)
        | _ =>
          if use_dataframes then TryReturn o
          else if savemetrics then TryReturn (PyDict [("out", o); ("metrics", metrics)])
          else TryReturn (PyDict [("out", o)])
        end
      end
  end%string.

(** [while retry_count <= retries] of [_work_function]; [budget] is the
    number of iterations left, [retries + 1 - retry_count]. *)
Fixpoint work_loop (item : WorkItem.t) (savemetrics : bool) (schema : schema_t)
    (skipbadfiles : bool) (retries : nat) (use_dataframes : bool)
    (budget retry_count : nat) (out : option (PyObj V)) : worked V :=
  match budget with
  | O => ([], Ok PyNone)
  | S budget' =>
    match try_body item savemetrics schema use_dataframes retry_count out with
    | TryReturn v => ([], Ok v)
    | TryRaise e out =>
      if is_os_error e then
        if negb skipbadfiles || contains "Auth failed" (exn_msg e) then ([], Raise e)
        else
          let w := bad_file_warning (WorkItem.filename item) retries retry_count in
          if negb use_dataframes then
            match out with
            | Some o => ([w], Ok (PyDict [("out", o)]))
            | None =>
              ([w], raise UnboundLocalError
                      "local variable 'out' referenced before assignment")
            end
          else
            let '(ws, r) :=
              work_loop item savemetrics schema skipbadfiles retries use_dataframes
                        budget' (S retry_count) out in
            (w :: ws, r)
      else
        if (retries =? retry_count)%nat then ([], Raise e)
        else
          let '(ws, r) :=
            work_loop item savemetrics schema skipbadfiles retries use_dataframes
                      budget' (S retry_count) out in
          (AttemptWillRetry (retry_count + 1) (retries + 1) :: ws, r)
    end
  end.

Definition _work_function (item : WorkItem.t) (savemetrics : bool) (schema : schema_t)
    (skipbadfiles : bool) (retries : nat) (use_dataframes : bool) : worked V :=
  work_loop item savemetrics schema skipbadfiles retries use_dataframes
            (S retries) 0 None.

(** [while retry_count <= retries] of [_get_metadata] *)
Fixpoint metadata_loop (item : FileMeta.t) (skipbadfiles : bool) (retries : nat)
    (align_clusters : bool) (budget retry_count : nat) (out : PyObj V) : worked V :=
  match budget with
  | O => ([], Ok out)
  | S budget' =>
    match world_probe item retry_count with
    | ProbeFinds numentries uuid clusters =>
      let metadata : Metadata :=
        match FileMeta.metadata item with
        | Some md => md
        | None => ∅
        end in
      let metadata := <["uuid" := MBytes uuid]> (<["numentries" := MInt numentries]> metadata) in
      let metadata :=
        if align_clusters then <["clusters" := MInts clusters]> metadata else metadata in
      ([], Ok (PyFileSet [FileMeta.Build (FileMeta.dataset item) (FileMeta.filename item)
                                         (FileMeta.treename item) (Some metadata)]))
    | ProbeFails e =>
      if is_os_error e then
        if negb skipbadfiles || contains "Auth failed" (exn_msg e) then ([], Raise e)
        else
          let w := bad_file_warning (FileMeta.filename item) retries retry_count in
          let '(ws, r) :=
            metadata_loop item skipbadfiles retries align_clusters
                          budget' (S retry_count) out in
          (w :: ws, r)
      else
        if (retries =? retry_count)%nat then ([], Raise e)
        else
          let '(ws, r) :=
            metadata_loop item skipbadfiles retries align_clusters
                          budget' (S retry_count) out in
          (AttemptWillRetry (retry_count + 1) (retries + 1) :: ws, r)
    end
  end.

Definition _get_metadata (item : FileMeta.t) (skipbadfiles : bool) (retries : nat)
    (align_clusters : bool) : worked V :=
  metadata_loop item skipbadfiles retries align_clusters (S retries) 0 (PyFileSet []).
End Work.

(** ** The orchestrator *)

(** An executor as [run_uproot_job] sees it: something to call, and whether
    it is [dask_executor] or [work_queue_executor]. *)
Record executor_t (V : Type) := Executor {
  ex_run : ∀ Item : Type,
    list Item → (Item → worked V) → PyObj V → exe_kwargs → executed Item V;
  ex_is_dask : bool;
  ex_is_work_queue : bool
}.
Arguments Executor {V} _ _ _.
Arguments ex_run {V} _ {Item} _ _ _ _.
Arguments ex_is_dask {V} _.
Arguments ex_is_work_queue {V} _.

(** [executor_args]: the keys [run_uproot_job] pops for itself, whether the
    refused keys are present, and what is left for the executor. *)
Record executor_args_t := ExecutorArgs {
  a_skipbadfiles : bool;
  a_retries : nat;
  a_align_clusters : bool;
  a_savemetrics : bool;
  a_schema : schema_t;
  a_use_dataframes : bool;
  a_flatten : bool;
  a_nano : bool;
  a_kwargs : exe_kwargs
}.

(** The metadata cache: a mapping keyed by what [FileMeta.__hash__] and
    [__eq__] look at. *)
Abbreviation cache_t := (gmap (string * string) (option Metadata)).

Definition cache_key (fm : FileMeta.t) : string * string :=
  (FileMeta.filename fm, FileMeta.treename fm).

(** [FileMeta.maybe_populate] *)
Definition maybe_populate (fm : FileMeta.t) (cache : cache_t) : FileMeta.t :=
  if negb (bool_decide (cache = ∅)) then
    match cache !! cache_key fm with
    | Some md =>
      FileMeta.Build (FileMeta.dataset fm) (FileMeta.filename fm) (FileMeta.treename fm) md
    | None => fm
    end
  else fm.

Definition with_metadata (fm : FileMeta.t) (md : option Metadata) : FileMeta.t :=
  FileMeta.Build (FileMeta.dataset fm) (FileMeta.filename fm) (FileMeta.treename fm) md.

(** One dataset of [_normalize_fileset] *)
Definition normalize_entry (treename : option string) (dataset : string)
    (filelist : fileset_entry) : result (list FileMeta.t) :=
  match filelist with
  | FileDict local user_meta_files user_meta =>
    if bool_decide (∃ rkey, rkey ∈ _PROTECTED_NAMES
                            ∧ rkey ∈ dom (default ∅ user_meta)) then
      raise ValueError "Reserved word in metadata section of fileset dictionary, please rename this entry!"
    else
      match local, treename with
      | None, None =>
        raise ValueError "treename must be specified if the fileset does not contain tree names"
      | _, _ =>
        let local_treename := default (default "" treename) local in
        match user_meta_files with
        | None => raise KeyError "files"
        | Some files =>
          Ok (map (λ filename, FileMeta.Build dataset filename local_treename user_meta)
                  files)
        end
      end
  | FileList files =>
    match treename with
    | None =>
      raise ValueError "treename must be specified if the fileset does not contain tree names"
    | Some local_treename =>
      Ok (map (λ filename, FileMeta.Build dataset filename local_treename None) files)
    end
  | FileOther => raise ValueError "list of filenames in fileset must be a list or a dict"
  end.

Fixpoint normalize_entries (treename : option string)
    (datasets : list (string * fileset_entry)) : result (list FileMeta.t) :=
  match datasets with
  | [] => Ok []
  | (dataset, filelist) :: datasets' =>
    let? here := normalize_entry treename dataset filelist in
    let? rest := normalize_entries treename datasets' in
    Ok (here ++ rest)
  end.

(** [_filter_badfiles] *)
Fixpoint _filter_badfiles (fileset : list FileMeta.t) (align_clusters skipbadfiles : bool)
    : result (list FileMeta.t) :=
  match fileset with
  | [] => Ok []
  | filemeta :: fileset' =>
    if FileMeta.populated filemeta align_clusters then
      let? rest := _filter_badfiles fileset' align_clusters skipbadfiles in
      Ok (filemeta :: rest)
    else if negb skipbadfiles then
      raise RuntimeError "Metadata for file {} could not be accessed."
    else _filter_badfiles fileset' align_clusters skipbadfiles
  end.

(** [set(...)] of file descriptors: one per (filename, treename), the first
    met being the one kept. *)
Fixpoint file_set (seen : list (string * string)) (files : list FileMeta.t)
    : list FileMeta.t :=
  match files with
  | [] => []
  | fm :: files' =>
    if bool_decide (cache_key fm ∈ seen) then file_set seen files'
    else fm :: file_set (cache_key fm :: seen) files'
  end.

(** [d[key] = v] on the items of a dict *)
Fixpoint setitem {V} (items : list (string * PyObj V)) (key : string) (v : PyObj V)
    : list (string * PyObj V) :=
  match items with
  | [] => [(key, v)]
  | (k, old) :: items' =>
    if bool_decide (k = key) then (k, v) :: items'
    else (k, old) :: setitem items' key v
  end.

(** What a call of [run_uproot_job] did: the events of the metadata pass
    and of the main pass, its own warnings, the cache as it leaves it, and
    the value returned (the output, and the metrics when asked for) or the
    exception raised; [None] when the call never returns. *)
Record job (V : Type) := Job {
  j_pre_events : list (xevent FileMeta.t V);
  j_events : list (xevent WorkItem.t V);
  j_warnings : list warning;
  j_cache : cache_t;
  j_result : option (result (PyObj V * option (PyObj V)))
}.
Arguments Job {V} _ _ _ _ _.
Arguments j_pre_events {V} _.
Arguments j_events {V} _.
Arguments j_warnings {V} _.
Arguments j_cache {V} _.
Arguments j_result {V} _.

Section Job.
Context {V : Type} `{External V} `{World V}.

Definition _normalize_fileset (fileset : fileset_arg) (treename : option string)
    : result (list FileMeta.t) :=
  match fileset with
  | FilesetPath path =>
    let? datasets := world_json_load path in
    normalize_entries treename datasets
  | FilesetMapping datasets => normalize_entries treename datasets
  | FilesetOther => raise ValueError "Expected fileset to be a path string or mapping"
  end.

(** The [else] branch of [_preprocess_fileset]: files probed one by one. *)
Fixpoint preprocess_each (fileset : list FileMeta.t)
    (metadata_fetcher : FileMeta.t → worked V) (metadata_cache : cache_t)
    (align_clusters skipbadfiles : bool)
    : list (xevent FileMeta.t V) * cache_t * result (list FileMeta.t) :=
  match fileset with
  | [] => ([], metadata_cache, Ok [])
  | filemeta :: fileset' =>
    if FileMeta.populated filemeta align_clusters
       || skipbadfiles then
      let '(events, cache, r) :=
        preprocess_each fileset' metadata_fetcher metadata_cache
                        align_clusters skipbadfiles in
      (events, cache, let? rest := r in Ok (filemeta :: rest))
    else
      let '(warnings, r) := metadata_fetcher filemeta in
      let here := Invoked filemeta :: map Warned warnings in
      match r with
      | Raise e => (here, metadata_cache, Raise e)
      | Ok (PyFileSet (fetched :: _)) =>
        let filemeta := with_metadata filemeta (FileMeta.metadata fetched) in
        let metadata_cache :=
          <[cache_key filemeta := FileMeta.metadata filemeta]> metadata_cache in
        let '(events, cache, r) :=
          preprocess_each fileset' metadata_fetcher metadata_cache
                          align_clusters skipbadfiles in
        (here ++ events, cache, let? rest := r in Ok (filemeta :: rest))
      | Ok (PyFileSet []) => (here, metadata_cache, raise KeyError "pop from an empty set")
      | Ok _ => (here, metadata_cache, raise TypeError "pop expected at least 1 argument")
      end
  end.

Definition _preprocess_fileset (pre_executor : executor_t V) (pre_args : exe_kwargs)
    (fileset : list FileMeta.t) (metadata_fetcher : FileMeta.t → worked V)
    (metadata_cache : cache_t) (align_clusters : bool) (maxchunks : option Z)
    (skipbadfiles : bool)
    : list (xevent FileMeta.t V) * cache_t * option (result (list FileMeta.t)) :=
  match maxchunks with
  | None =>
    let to_get :=
      file_set [] (filter (λ fm, FileMeta.populated fm align_clusters = false) fileset) in
    if (0 <? length to_get)%nat then
      let pre_args := ExeKwargs (Some None) (Some None) in
      let '(events, r) := ex_run pre_executor to_get metadata_fetcher (PyFileSet []) pre_args in
      match r with
      | None => (events, metadata_cache, None)
      | Some (Raise e) => (events, metadata_cache, Some (Raise e))
      | Some (Ok out) =>
        match out with
        | PyFileSet files =>
          let metadata_cache :=
            foldl (λ cache item, <[cache_key item := FileMeta.metadata item]> cache)
                  metadata_cache files in
          (events, metadata_cache,
           Some (Ok (map (λ fm, maybe_populate fm metadata_cache) fileset)))
        | PyNone =>
          (events, metadata_cache,
           Some (Ok (map (λ fm, maybe_populate fm metadata_cache) fileset)))
        | _ => (events, metadata_cache, Some (raise TypeError "object has no usable pop"))
        end
      end
    else ([], metadata_cache, Some (Ok fileset))
  | Some _ =>
    let '(events, cache, r) :=
      preprocess_each fileset metadata_fetcher metadata_cache align_clusters skipbadfiles in
    (events, cache, Some r)
  end.

Definition run_uproot_job (fileset : fileset_arg) (treename : option string)
    (executor : executor_t V) (executor_args : executor_args_t)
    (pre_executor : option (executor_t V)) (pre_args : option exe_kwargs)
    (chunksize : Z) (maxchunks : option Z) (metadata_cache : cache_t)
    (dynamic_chunksize : bool) (sent : list (option Z)) (fuel : nat) : job V :=
  let fail pre events ws cache e := Job pre events ws cache (Some (Raise e)) in
  match fileset with
  | FilesetOther =>
    fail [] [] [] metadata_cache
         (Exn ValueError "Expected fileset to be a mapping dataset: list(files) or filename")
  | _ =>
  let pre_executor := default executor pre_executor in
  let pre_args := default (a_kwargs executor_args) pre_args in
  match _normalize_fileset fileset treename with
  | Raise e => fail [] [] [] metadata_cache e
  | Ok fileset =>
  let fileset := map (λ fm, maybe_populate fm metadata_cache) fileset in
  let skipbadfiles := a_skipbadfiles executor_args in
  let retries := if ex_is_dask executor then 0%nat else a_retries executor_args in
  let align_clusters := a_align_clusters executor_args in
  if align_clusters && dynamic_chunksize then
    fail [] [] [] metadata_cache
         (Exn RuntimeError "align_clusters and dynamic_chunksize cannot be used simultaneously")
  else if truthy maxchunks && dynamic_chunksize then
    fail [] [] [] metadata_cache
         (Exn RuntimeError "maxchunks and dynamic_chunksize cannot be used simultaneously")
  else if dynamic_chunksize && negb (ex_is_work_queue executor) then
    fail [] [] [] metadata_cache
         (Exn RuntimeError "dynamic_chunksize currently only supported by the work_queue_executor")
  else
  let metadata_fetcher item := _get_metadata item skipbadfiles retries align_clusters in
  let '(pre, metadata_cache, preprocessed) :=
    _preprocess_fileset pre_executor pre_args fileset metadata_fetcher metadata_cache
                        align_clusters maxchunks skipbadfiles in
  match preprocessed with
  | None => Job pre [] [] metadata_cache None
  | Some (Raise e) => fail pre [] [] metadata_cache e
  | Some (Ok fileset) =>
  match _filter_badfiles fileset align_clusters skipbadfiles with
  | Raise e => fail pre [] [] metadata_cache e
  | Ok fileset =>
  let fileset := reverse fileset in
  let savemetrics := a_savemetrics executor_args in
  if a_flatten executor_args then
    fail pre [] [] metadata_cache
         (Exn ValueError "Executor argument 'flatten' is deprecated")
  else
  let schema := a_schema executor_args in
  let use_dataframes := a_use_dataframes executor_args in
  let ws := if negb (ex_is_dask executor) && use_dataframes
            then [DataframesNeedDask] else [] in
  let use_dataframes := ex_is_dask executor && use_dataframes in
  if a_nano executor_args then
    fail pre [] ws metadata_cache (Exn ValueError "Awkward0 NanoEvents no longer supported.")
  else
  let closure item :=
    _work_function item savemetrics schema skipbadfiles retries use_dataframes in
  match _chunk_generator fileset chunksize align_clusters maxchunks
                         dynamic_chunksize sent fuel with
  | None => Job pre [] ws metadata_cache None
  | Some g =>
  match materialize g with
  | Raise e => fail pre [] ws metadata_cache e
  | Ok chunks =>
  let '(events, wrapped_out) :=
    ex_run executor chunks closure PyNone (a_kwargs executor_args) in
  match wrapped_out with
  | None => Job pre events ws metadata_cache None
  | Some (Raise e) => fail pre events ws metadata_cache e
  | Some (Ok wrapped_out) =>
    Job pre events ws metadata_cache (Some (
      let? out := getitem_obj wrapped_out "out" in
      let? _ := world_postprocess out in
      if savemetrics && negb use_dataframes then
        let? metrics := getitem_obj wrapped_out "metrics" in
        match metrics with
        | PyDict items =>
          if dynamic_chunksize then
            raise TypeError "object of type 'generator' has no len()"
          else
            Ok (out, Some (PyDict (setitem items "chunks"
                                           (PyInt (Z.of_nat (length chunks))))))
        | _ => raise TypeError "object does not support item assignment"
        end
      else Ok (out, None)))
  end end end end end end end.
End Job.

(** The two executors of the module that need nothing outside it. *)
Definition the_iterative_executor {V} `{External V} : executor_t V :=
  Executor (λ Item, iterative_executor) false false.

Definition the_futures_executor {V} `{External V} (pool : pool_env) : executor_t V :=
  Executor (λ Item, futures_executor pool) false false.

(** ** The tree reduction of [dask_executor]

    [dask_executor] with its optional switches at their defaults
    ([use_dataframes], [worker_affinity] and [heavy_input] off).  The
    distributed client is not part of the module: a task of [client.map] is
    taken as the value or the exception its function gives, a task that is
    handed failed tasks failing with them.  [treereduction] and
    [compression] are the values the caller passed or their defaults. *)

(** [[work[i : i + ntree] for i in range(0, len(work), ntree)]] *)
Definition tree_groups {A} (ntree : Z) (work : list A) : result (list (list A)) :=
  if ntree =? 0 then raise ValueError "range() arg 3 must not be zero"
  else if ntree <? 0 then Ok []
  else
    let step := Z.to_nat ntree in
    Ok (map (λ k, take step (drop (k * step) work))
            (seq 0 ((length work + step - 1) / step))).

Section Dask.
Context {V : Type} `{External V}.

(** The failures among the tasks of a group *)
Definition failures (group : list (result (PyObj V))) : list exn :=
  omap (λ task, match task with Raise e => Some e | Ok _ => None end) group.

(** One task of [client.map(reducer, groups)]: the reducer on the results
    of its group; when one task of the group has failed the task fails as it
    did, and when several have, as the client decides. *)
Definition reduce_task (clevel : option Z) (group : list (result (PyObj V)))
    : result (PyObj V) :=
  match failures group with
  | [] => _reduce clevel (omap (λ task, match task with Ok v => Some v | Raise _ => None end) group)
  | [e] => Raise e
  | es => Raise (client_failure es)
  end.

(** [while len(work) > 1: work = client.map(reducer, ...)] *)
Fixpoint tree_loop (fuel : nat) (ntree : Z) (clevel : option Z)
    (work : list (result (PyObj V))) : option (result (list (result (PyObj V)))) :=
  if (length work <=? 1)%nat then Some (Ok work)
  else
    match fuel with
    | O => None
    | S fuel' =>
      match tree_groups ntree work with
      | Raise e => Some (Raise e)
      | Ok groups => tree_loop fuel' ntree clevel (map (reduce_task clevel) groups)
      end
    end.

Definition dask_executor {Item : Type} (items : list Item)
    (function : Item → result (PyObj V)) (accumulator : PyObj V)
    (ntree : Z) (clevel : option Z) (fuel : nat) : option (result (PyObj V)) :=
  if (length items =? 0)%nat then Some (Ok accumulator)
  else
    let function :=
      match clevel with
      | Some level => _compression_wrapper level function
      | None => function
      end in
    let work := map function items in
    match tree_loop fuel ntree clevel work with
    | None => None
    | Some (Raise e) => Some (Raise e)
    | Some (Ok work) =>
      match work with
      | [] => Some (raise IndexError "list index out of range")
      | task :: _ =>
        Some (let? payload := task in
              let? out :=
                match clevel with
                | None => Ok payload
                | Some _ => _decompress payload
                end in
              accumulate [out] accumulator)
      end
    end.
End Dask.
(** * Vocabulary of the statements *)

(** Consecutive, non-empty, half-open windows from [lo] to [hi]. *)
Fixpoint tiles (lo hi : Z) (ranges : list (Z * Z)) : Prop :=
  match ranges with
  | [] => lo = hi
  | (a, b) :: ranges' => a = lo ∧ a < b ∧ tiles b hi ranges'
  end.



(** Resize hints have no effect: either resizing is off, or every value
    sent is [None] or [0]. *)
Definition quiet (dynamic_chunksize : bool) (sent : list (option Z)) : Prop :=
  dynamic_chunksize = false ∨ Forall (λ h, truthy h = false) sent.


(** The width the planner settles on: [ceil(E / max(round(E / T), 1))]. *)
Definition even_width (E T : Z) : Z :=
  py_ceil_div E (Z.max (py_round_div E T) 1).

Definition demo_md (E : Z) : Metadata :=
  {[ "numentries" := MInt E; "uuid" := MBytes "0123456789abcdef";
     "year" := MStr "2018" ]}.

Definition demo_file (dataset filename : string) (E : Z) : FileMeta.t :=
  FileMeta.Build dataset filename "Events" (Some (demo_md E)).

(** [zip(chunks[:-1], chunks[1:])] of a list [x :: l], made into items. *)
Definition windows (mk : Z → Z → WorkItem.t) (x : Z) (l : list Z) : list WorkItem.t :=
  zip_with mk (removelast (x :: l)) l.

Definition demo_clustered (cl : list Z) (E : Z) : Metadata :=
  {[ "numentries" := MInt E; "uuid" := MBytes "0123456789abcdef";
     "clusters" := MInts cl ]}.

(** The number of items of a dataset. *)
Definition count_dataset (ds : string) (l : list WorkItem.t) : nat :=
  length (filter (λ u, WorkItem.dataset u = ds) l).

(** The entry count a descriptor carries, 0 when it carries none. *)
Definition entries_of (fm : FileMeta.t) : Z :=
  match FileMeta.metadata fm with
  | Some md => match md !! "numentries" with
               | Some (MInt E) => E
               | _ => 0
               end
  | None => 0
  end.

(** The counters agree with the list and stay within the cap. *)
Definition capped_inv (m : Z) (nchunks : gmap string Z) (chunks : list WorkItem.t) : Prop :=
  ∀ ds, Z.of_nat (count_dataset ds chunks) = nchunks_get nchunks ds
        ∧ nchunks_get nchunks ds ≤ m.


(** A toy codec and merge on booleans, to run the codec and the executors
    on: [lz4] framing puts one character in front, [pickle] writes one
    character, [accumulate] is a disjunction. *)
Definition toy_accumulate (items : list (PyObj bool)) (accum : PyObj bool)
    : result (PyObj bool) :=
  Ok (foldl (λ acc x,
               match acc, x with
               | PyAcc a, PyAcc b => PyAcc (a || b)
               | PyNone, x => x
               | acc, _ => acc
               end) accum items).

Definition toy_dumps (o : PyObj bool) : string :=
  match o with
  | PyAcc true => "T"
  | PyAcc false => "F"
  | _ => "N"
  end.

Definition toy_loads (b : string) : result (PyObj bool) :=
  if bool_decide (b = "T") then Ok (PyAcc true)
  else if bool_decide (b = "F") then Ok (PyAcc false)
  else if bool_decide (b = "N") then Ok PyNone
  else raise OtherException "unpickling error".

Definition toy_lz4_compress (b : string) (level : Z) : string := String "L"%char b.

Definition toy_lz4_decompress (b : string) : result string :=
  match b with
  | String _ b' => Ok b'
  | EmptyString => raise RuntimeError "LZ4F_getFrameInfo failed"
  end.

#[local] Instance toy_external : External bool :=
  Build_External bool toy_accumulate toy_dumps toy_loads
                 toy_lz4_compress toy_lz4_decompress
                 (λ _ _, false) (λ failures, default (Exn RuntimeError "") (head failures)).

(** An operation that completes with the value of the triple. *)
Definition prompt_future {V} (x : nat * PyObj V * bool) : nat * future V :=
  (x.1.1, Future (FutResult x.1.2) x.2).


(** A world in which the first attempt at anything cannot open the file
    and every later attempt goes through. *)
#[local] Instance flaky_world : World bool :=
  Build_World bool
    (λ item k,
       match k with
       | O => OpenFails (Exn OSError "[Errno 2] No such file or directory")
       | S _ => ProcessReturns (PyAcc true) (PyDict [])
       end)
    (λ fm k,
       match k with
       | O => ProbeFails (Exn OSError "[Errno 2] No such file or directory")
       | S _ => ProbeFinds 10 "0123456789abcdef" [0; 10]
       end)
    (λ out, Ok ())
    (λ path, raise OSError "[Errno 2] No such file or directory").

Definition demo_item : WorkItem.t :=
  WorkItem.Build "ZJets" "a.root" "Events" 0 10 (MBytes "0123456789abcdef") (Some ∅).

(** ** Vocabulary of the further statements *)

(** No value sent into the generator is negative. *)
Definition hints_ok (sent : list (option Z)) : Prop :=
  Forall (λ h, match h with Some z => 0 ≤ z | None => True end) sent.

(** The sum of the lengths of work items, [sum(len(c) for c in chunks)]. *)
Definition total_len (units : list WorkItem.t) : Z :=
  foldr (λ u acc, WorkItem.len u + acc) 0 units.

(** Consecutive elements are at least [T] apart. *)
Fixpoint gapped (T : Z) (l : list Z) : Prop :=
  match l with
  | x :: (y :: _) as l' => T ≤ y - x ∧ gapped T l'
  | _ => True
  end.

(** [sum(f.metadata["numentries"] for f in fileset)] *)
Definition total_entries (fileset : list FileMeta.t) : Z :=
  foldr (λ fm acc, entries_of fm + acc) 0 fileset.

(** A descriptor that carries a [uuid] and an entry count that is not
    negative, is below [2^52] and is below the fuel. *)
Definition countable (fuel : nat) (fm : FileMeta.t) : Prop :=
  ∃ md E uuid,
    FileMeta.metadata fm = Some md
    ∧ md !! "numentries" = Some (MInt E)
    ∧ md !! "uuid" = Some uuid
    ∧ 0 ≤ E < 2 ^ 52
    ∧ (Z.to_nat E < fuel)%nat.

(** The files a file-set entry lists. *)
Definition entry_files (entry : fileset_entry) : list string :=
  match entry with
  | FileList files => files
  | FileDict _ (Some files) _ => files
  | _ => []
  end.

(** The items an executor run called the function on, in order. *)
Definition invoked {Item V : Type} (events : list (xevent Item V)) : list Item :=
  omap (λ ev, match ev with Invoked item => Some item | _ => None end) events.
Arguments invoked {Item V} events : simpl never.

(** A function that answers from a table of results, for demonstrations. *)
Definition table_function (table : list (result (PyObj bool))) (i : nat)
    : worked bool :=
  ([], default (Raise (Exn KeyError "no such item")) (table !! i)).

(** The text [_work_function] appends to the message of an exception raised
    while the item is processed. *)
Definition file_trace (item : WorkItem.t) : string :=
  (newline ++ newline ++ "Failed processing file: " ++ WorkItem.filename item
   ++ " (" ++ pretty (WorkItem.entrystart item) ++ "-"
   ++ pretty (WorkItem.entrystop item) ++ ")")%string.

(** The item's [fileuuid] is a byte string [uuid.UUID] accepts. *)
Definition uuid_accepted (item : WorkItem.t) : bool :=
  match WorkItem.fileuuid item with
  | MBytes b => bool_decide (String.length b = 0%nat ∨ String.length b = 16%nat)
  | _ => false
  end.

(** An exception after which the retry loops go round again: any that is
    not an [OSError], and an [OSError] when bad files are skipped and it is
    not an authentication failure. *)
Definition retriable (skipbadfiles : bool) (e : exn) : bool :=
  if is_os_error e then skipbadfiles && negb (contains "Auth failed" (exn_msg e))
  else true.

(** The warning the retry loops give for the failure [e] of attempt [j]. *)
Definition failure_warning (filename : string) (retries j : nat) (e : exn) : warning :=
  if is_os_error e then bad_file_warning filename retries j
  else AttemptWillRetry (j + 1) (retries + 1).

(** A world in which processing fails twice with an error of the
    processor's own and then goes through, and every probe finds the file. *)
Definition shaky_world : World bool :=
  Build_World bool
    (λ item k,
       match k with
       | O | S O => ProcessRaises (Exn RuntimeError "boom")
       | _ => ProcessReturns (PyAcc true) (PyDict [])
       end)
    (λ fm k, ProbeFinds 10 "0123456789abcdef" [0; 10])
    (λ out, Ok ())
    (λ path, raise OSError "[Errno 2] No such file or directory").

(** A world in which processing always fails and no file can be opened. *)
Definition broken_world : World bool :=
  Build_World bool
    (λ item k, ProcessRaises (Exn RuntimeError "boom"))
    (λ fm k, ProbeFails (Exn OSError "[Errno 2] No such file or directory"))
    (λ out, Ok ())
    (λ path, raise OSError "[Errno 2] No such file or directory").


(** A world in which no file can be opened for work, and a probe fails
    once on a timeout and then finds the file. *)
Definition closed_world : World bool :=
  Build_World bool
    (λ item k, OpenFails (Exn OSError "[Errno 2] No such file or directory"))
    (λ fm k,
       match k with
       | O => ProbeFails (Exn OtherException "timed out")
       | S _ => ProbeFinds 10 "0123456789abcdef" [0; 10]
       end)
    (λ out, Ok ())
    (λ path, raise OSError "[Errno 2] No such file or directory").

(** A descriptor as [_normalize_fileset] makes it: the user's metadata and
    nothing read from the file yet. *)
Definition bare_file (dataset filename : string) : FileMeta.t :=
  FileMeta.Build dataset filename "Events" (Some {[ "year" := MStr "2018" ]}).

(** * Properties *)

(** ** Rounding of exact quotients *)

Lemma py_round_div_bounds (a b : Z) :
  0 < b →
  2 * py_round_div a b * b - b ≤ 2 * a ≤ 2 * py_round_div a b * b + b.
Proof.
  intros Hb. unfold py_round_div.
  pose proof (Z.div_mod a b ltac:(lia)) as Hdm.
  pose proof (Z.mod_pos_bound a b Hb) as Hr.
  rewrite (Z.abs_eq (a mod b)), (Z.abs_eq b) by lia.
  destruct (Z.compare_spec (2 * (a mod b)) b); try destruct (Z.even (a / b)); nia.
Qed.

Lemma py_round_div_tie (a b : Z) :
  0 < b →
  2 * a = 2 * py_round_div a b * b + b ∨ 2 * a = 2 * py_round_div a b * b - b →
  Z.even (py_round_div a b) = true.
Proof.
  intros Hb. unfold py_round_div.
  pose proof (Z.div_mod a b ltac:(lia)) as Hdm.
  pose proof (Z.mod_pos_bound a b Hb) as Hr.
  rewrite (Z.abs_eq (a mod b)), (Z.abs_eq b) by lia.
  destruct (Z.compare_spec (2 * (a mod b)) b) as [Heq|Hlt|Hgt].
  - destruct (Z.even (a / b)) eqn:Hev; intros Htie; [done|].
    replace (a / b + 1) with (Z.succ (a / b)) by lia.
    rewrite Z.even_succ, <- Z.negb_even, Hev. done.
  - intros [Htie|Htie]; nia.
  - intros [Htie|Htie]; nia.
Qed.

Lemma py_round_div_unique (a b r : Z) :
  0 < b →
  2 * r * b - b ≤ 2 * a ≤ 2 * r * b + b →
  (2 * a = 2 * r * b + b ∨ 2 * a = 2 * r * b - b → Z.even r = true) →
  py_round_div a b = r.
Proof.
  intros Hb Hr Htie.
  pose proof (py_round_div_bounds a b Hb) as Hr'.
  pose proof (py_round_div_tie a b Hb) as Htie'.
  remember (py_round_div a b) as r' eqn:Heq. clear Heq.
  assert (r' = r - 1 ∨ r' = r ∨ r' = r + 1) as [H|[H|H]] by nia; [|done|]; subst r'.
  - assert (Z.even r = true) as Hev by (apply Htie; nia).
    assert (Z.even (r - 1) = true) as Hev' by (apply Htie'; nia).
    replace r with (Z.succ (r - 1)) in Hev by lia.
    rewrite Z.even_succ, <- Z.negb_even, Hev' in Hev. done.
  - assert (Z.even r = true) as Hev by (apply Htie; nia).
    assert (Z.even (r + 1) = true) as Hev' by (apply Htie'; nia).
    replace (r + 1) with (Z.succ r) in Hev' by lia.
    rewrite Z.even_succ, <- Z.negb_even, Hev in Hev'. done.
Qed.

Lemma py_round_div_nonneg (a b : Z) : 0 ≤ a → 0 < b → 0 ≤ py_round_div a b.
Proof.
  intros Ha Hb. pose proof (py_round_div_bounds a b Hb). nia.
Qed.

Lemma py_round_div_negative (a b : Z) : 0 ≤ a → b < 0 → py_round_div a b ≤ 0.
Proof.
  intros Ha Hb. unfold py_round_div.
  pose proof (Z.div_mod a b ltac:(lia)) as Hdm.
  pose proof (Z.mod_neg_bound a b Hb) as Hr.
  assert (a / b ≤ 0) as Hq.
  { destruct (Z.le_gt_cases (a / b) 0) as [|Hpos]; [done|].
    assert (b * (a / b) ≤ b * 1) by (apply Z.mul_le_mono_neg_l; lia). lia. }
  destruct (Z.eq_dec (a / b) 0) as [H0|H0].
  - rewrite H0 in Hdm |- *. assert (a mod b = 0) as -> by lia.
    rewrite (Z.abs_neq b) by lia. simpl.
    destruct (- b) eqn:Hnb; simpl; lia.
  - destruct (_ ?= _); try destruct (Z.even _); lia.
Qed.

Lemma py_ceil_div_bounds (a b : Z) :
  0 < b → (py_ceil_div a b - 1) * b < a ≤ py_ceil_div a b * b.
Proof.
  intros Hb. unfold py_ceil_div.
  pose proof (Z.div_mod (- a) b ltac:(lia)) as Hdm.
  pose proof (Z.mod_pos_bound (- a) b Hb) as Hr. nia.
Qed.

Lemma py_ceil_div_unique (a b c : Z) :
  0 < b → (c - 1) * b < a ≤ c * b → py_ceil_div a b = c.
Proof.
  intros Hb Hc. pose proof (py_ceil_div_bounds a b Hb). nia.
Qed.

(** Rounding a quotient to a multiple of [1/D] first changes neither the
    integer it rounds to nor its ceiling, provided the grid is finer than
    the divisor is large. *)
Lemma round_of_rounded (A B D' : Z) :
  0 < B →
  0 < D' →
  B < 2 * D' ∨ (0 ≤ A ∧ 2 * A < B) →
  py_round_div (py_round_div (A * (2 * D')) B) (2 * D') = py_round_div A B.
Proof.
  intros HB HD Hfine.
  pose proof (py_round_div_bounds A B HB) as Hr.
  pose proof (py_round_div_tie A B HB) as Hrt.
  pose proof (py_round_div_bounds (A * (2 * D')) B HB) as Hm.
  remember (py_round_div A B) as r eqn:Her.
  remember (py_round_div (A * (2 * D')) B) as m eqn:Hem.
  assert (m ≤ r * (2 * D') + D') as Hup.
  { destruct (Z.le_gt_cases m (r * (2 * D') + D')) as [|Hgt]; [done|].
    assert ((r * (2 * D') + D' + 1) * B ≤ m * B) by (apply Z.mul_le_mono_nonneg_r; lia).
    assert (2 * A * (2 * D') ≤ (2 * r * B + B) * (2 * D'))
      by (apply Z.mul_le_mono_nonneg_r; lia).
    lia. }
  assert (r * (2 * D') - D' ≤ m) as Hlo.
  { destruct (Z.le_gt_cases (r * (2 * D') - D') m) as [|Hlt]; [done|].
    assert (m * B ≤ (r * (2 * D') - D' - 1) * B) by (apply Z.mul_le_mono_nonneg_r; lia).
    assert ((2 * r * B - B) * (2 * D') ≤ 2 * A * (2 * D'))
      by (apply Z.mul_le_mono_nonneg_r; lia).
    lia. }
  apply py_round_div_unique; [lia|lia|].
  intros Htie. destruct Hfine as [Hfine|(HA & Hsmall)].
  - apply Hrt. destruct Htie as [Htie|Htie]; [left|right].
    + assert (m = r * (2 * D') + D') as Hmv by lia.
      remember (2 * A - (2 * r * B + B)) as k eqn:Hk.
      assert (2 * D' * k = 2 * A * (2 * D') - 2 * m * B) as Hprod by (rewrite Hk, Hmv; ring).
      assert (k = 0) by nia. lia.
    + assert (m = r * (2 * D') - D') as Hmv by lia.
      remember (2 * A - (2 * r * B - B)) as k eqn:Hk.
      assert (2 * D' * k = 2 * A * (2 * D') - 2 * m * B) as Hprod by (rewrite Hk, Hmv; ring).
      assert (k = 0) by nia. lia.
  - assert (r = 0) as -> by nia. done.
Qed.

Lemma ceil_of_rounded (A B D : Z) :
  0 < B →
  0 < D →
  B < 2 * D →
  py_ceil_div (py_round_div (A * D) B) D = py_ceil_div A B.
Proof.
  intros HB HD Hfine.
  pose proof (py_ceil_div_bounds A B HB) as Hc.
  pose proof (py_round_div_bounds (A * D) B HB) as Hm.
  remember (py_ceil_div A B) as c eqn:Hec.
  remember (py_round_div (A * D) B) as m eqn:Hem.
  apply py_ceil_div_unique; [done|]. split.
  - assert ((c - 1) * B + 1 ≤ A) as HA by lia.
    assert (((c - 1) * B + 1) * (2 * D) ≤ A * (2 * D))
      by (apply Z.mul_le_mono_nonneg_r; lia).
    assert ((c - 1) * D * (2 * B) < m * (2 * B)) by lia.
    apply Z.mul_lt_mono_pos_r in H0; lia.
  - assert (A * (2 * D) ≤ c * B * (2 * D)) by (apply Z.mul_le_mono_nonneg_r; lia).
    assert (m * (2 * B) < (c * D + 1) * (2 * B)) by lia.
    apply Z.mul_lt_mono_pos_r in H0; lia.
Qed.

(** ** The exponent of a quotient *)

Lemma pow2_up_pos (k : Z) : 0 < 2 ^ Z.max k 0.
Proof. apply Z.pow_pos_nonneg; lia. Qed.

Lemma pow2_split (x y : Z) : 0 ≤ x → 0 ≤ y → 2 ^ (x + y) = 2 ^ x * 2 ^ y.
Proof. intros. by apply Z.pow_add_r. Qed.

Lemma quotient_log2_spec (a b : Z) :
  0 < a →
  0 < b →
  b * 2 ^ Z.max (quotient_log2 a b) 0 ≤ a * 2 ^ Z.max (- quotient_log2 a b) 0
  ∧ a * 2 ^ Z.max (- (quotient_log2 a b + 1)) 0
    < b * 2 ^ Z.max (quotient_log2 a b + 1) 0.
Proof.
  intros Ha Hb. unfold quotient_log2.
  pose proof (Z.log2_spec a Ha) as [Ha1 Ha2].
  pose proof (Z.log2_spec b Hb) as [Hb1 Hb2].
  pose proof (Z.log2_nonneg a) as Hla. pose proof (Z.log2_nonneg b) as Hlb.
  remember (Z.log2 a) as la eqn:Hela. remember (Z.log2 b) as lb eqn:Helb.
  clear Hela Helb.
  assert (0 < 2 ^ la ∧ 0 < 2 ^ lb) as [Hpa Hpb]
    by (split; apply Z.pow_pos_nonneg; lia).
  destruct (Z.leb_spec (b * 2 ^ Z.max (la - lb) 0) (a * 2 ^ Z.max (- (la - lb)) 0))
    as [Htest|Htest].
  - split; [done|].
    destruct (Z.le_gt_cases 0 (la - lb + 1)) as [Hd|Hd].
    + rewrite (Z.max_r (- (la - lb + 1)) 0), (Z.max_l (la - lb + 1) 0) by lia.
      assert (2 ^ Z.succ la = 2 ^ lb * 2 ^ (la - lb + 1)) as Heq
        by (rewrite <- pow2_split by lia; f_equal; lia).
      assert (0 < 2 ^ (la - lb + 1)) by (apply Z.pow_pos_nonneg; lia).
      nia.
    + rewrite (Z.max_l (- (la - lb + 1)) 0), (Z.max_r (la - lb + 1) 0) by lia.
      assert (2 ^ Z.succ la * 2 ^ (- (la - lb + 1)) = 2 ^ lb) as Heq
        by (rewrite <- pow2_split by lia; f_equal; lia).
      assert (0 < 2 ^ (- (la - lb + 1))) by (apply Z.pow_pos_nonneg; lia).
      nia.
  - replace (la - lb - 1 + 1) with (la - lb) by lia. split; [|lia].
    destruct (Z.le_gt_cases 1 (la - lb)) as [Hd|Hd].
    + rewrite (Z.max_l (la - lb - 1) 0), (Z.max_r (- (la - lb - 1)) 0) by lia.
      assert (2 ^ Z.succ lb * 2 ^ (la - lb - 1) = 2 ^ la) as Heq
        by (rewrite <- pow2_split by lia; f_equal; lia).
      assert (0 < 2 ^ (la - lb - 1)) by (apply Z.pow_pos_nonneg; lia).
      nia.
    + rewrite (Z.max_r (la - lb - 1) 0), (Z.max_l (- (la - lb - 1)) 0) by lia.
      assert (2 ^ Z.succ lb = 2 ^ la * 2 ^ (- (la - lb - 1))) as Heq
        by (rewrite <- pow2_split by lia; f_equal; lia).
      assert (0 < 2 ^ (- (la - lb - 1))) by (apply Z.pow_pos_nonneg; lia).
      nia.
Qed.

(** ** True division below [2^52] *)

Lemma py_true_div_small (E T : Z) :
  0 < E < 2 ^ 52 →
  0 < T →
  ∃ d, py_true_div E T = Ok (py_round_div (E * 2 ^ d) T, - d)
       ∧ 1 ≤ d
       ∧ (T < 2 ^ d ∨ 2 * E < T).
Proof.
  intros HE HT. unfold py_true_div.
  rewrite (proj2 (Z.eqb_neq T 0)), (proj2 (Z.eqb_neq E 0)) by lia.
  rewrite (Z.abs_eq E), (Z.abs_eq T) by lia.
  rewrite (Z.sgn_pos E), (Z.sgn_pos T) by lia.
  destruct (quotient_log2_spec E T) as [H1 H2]; [lia..|].
  remember (quotient_log2 E T) as lg eqn:Hlg. clear Hlg.
  assert (lg ≤ 51) as Hlg51.
  { destruct (Z.le_gt_cases lg 51) as [|Hbig]; [done|]. exfalso.
    rewrite (Z.max_l lg 0), (Z.max_r (- lg) 0) in H1 by lia.
    assert (2 ^ 52 ≤ 2 ^ lg) by (apply Z.pow_le_mono_r; lia). nia. }
  destruct (Z.le_gt_cases (-1074) (lg - 52)) as [Hnorm|Hsub].
  - rewrite (Z.max_l (lg - 52) (-1074)) by lia.
    rewrite (Z.max_l (- (lg - 52)) 0), (Z.max_r (lg - 52) 0) by lia.
    rewrite (proj2 (Z.ltb_ge 971 (lg - 52))), (proj2 (Z.eqb_neq (lg - 52) 971)) by lia.
    cbn [orb andb]. exists (- (lg - 52)).
    rewrite Z.opp_involutive, Z.pow_0_r, !Z.mul_1_r, Z.mul_1_l.
    split; [done|]. split; [lia|]. left.
    replace (- (lg - 52)) with (52 - lg) by lia.
    destruct (Z.le_gt_cases 0 lg) as [Hpos|Hneg].
    + rewrite (Z.max_l lg 0), (Z.max_r (- lg) 0), Z.pow_0_r in H1 by lia.
      assert (2 ^ 52 = 2 ^ lg * 2 ^ (52 - lg)) as Heq
        by (rewrite <- pow2_split by lia; f_equal; lia).
      assert (0 < 2 ^ lg) by (apply Z.pow_pos_nonneg; lia).
      nia.
    + rewrite (Z.max_r lg 0), (Z.max_l (- lg) 0), Z.pow_0_r in H1 by lia.
      assert (2 ^ (52 - lg) = 2 ^ 52 * 2 ^ (- lg)) as Heq
        by (rewrite <- pow2_split by lia; f_equal; lia).
      assert (0 < 2 ^ (- lg)) by (apply Z.pow_pos_nonneg; lia).
      nia.
  - rewrite (Z.max_r (lg - 52) (-1074)) by lia.
    exists 1074. split; [|split; [lia|]].
    + change (971 <? -1074) with false. change (-1074 =? 971) with false.
      cbn [orb andb]. change (Z.max (- -1074) 0) with 1074.
      change (Z.max (-1074) 0) with 0.
      by rewrite Z.pow_0_r, !Z.mul_1_r, Z.mul_1_l.
    + right.
      rewrite (Z.max_l (- (lg + 1)) 0), (Z.max_r (lg + 1) 0), Z.pow_0_r in H2 by lia.
      assert (2 ^ 1 ≤ 2 ^ (- (lg + 1))) by (apply Z.pow_le_mono_r; lia).
      change (2 ^ 1) with 2 in *. nia.
Qed.

Lemma py_round_small (E T : Z) :
  0 < E < 2 ^ 52 →
  0 < T →
  ∃ x, py_true_div E T = Ok x ∧ py_round x = py_round_div E T.
Proof.
  intros HE HT. destruct (py_true_div_small E T HE HT) as (d & -> & Hd & Hfine).
  eexists. split; [done|]. unfold py_round. cbn [fst snd].
  rewrite (proj2 (Z.leb_gt 0 (- d))) by lia. rewrite Z.opp_involutive.
  replace (2 ^ d) with (2 * 2 ^ (d - 1))
    by (rewrite <- (Z.pow_succ_r 2 (d - 1)) by lia; f_equal; lia).
  apply round_of_rounded; [done|apply Z.pow_pos_nonneg; lia|].
  destruct Hfine as [Hfine|Hfine]; [left|right; lia].
  replace (2 * 2 ^ (d - 1)) with (2 ^ d); [done|].
  rewrite <- (Z.pow_succ_r 2 (d - 1)) by lia. f_equal; lia.
Qed.

Lemma math_ceil_small (E n : Z) :
  0 < E < 2 ^ 52 →
  1 ≤ n ≤ E →
  ∃ x, py_true_div E n = Ok x ∧ math_ceil x = py_ceil_div E n.
Proof.
  intros HE Hn. destruct (py_true_div_small E n HE) as (d & -> & Hd & Hfine); [lia|].
  eexists. split; [done|]. unfold math_ceil. cbn [fst snd].
  rewrite (proj2 (Z.leb_gt 0 (- d))) by lia. rewrite Z.opp_involutive.
  assert (0 < 2 ^ d) by (apply Z.pow_pos_nonneg; lia).
  apply ceil_of_rounded; lia.
Qed.

Lemma py_round_div_le (E T : Z) : 0 < E → 0 < T → py_round_div E T ≤ E.
Proof.
  intros HE HT. pose proof (py_round_div_bounds E T HT). nia.
Qed.

Lemma py_round_div_nonpos (a b : Z) : a ≤ 0 → 0 < b → py_round_div a b ≤ 0.
Proof.
  intros Ha Hb. pose proof (py_round_div_bounds a b Hb). nia.
Qed.

Lemma py_true_div_opp (a b : Z) (x : pyfloat) :
  py_true_div a b = Ok x → py_true_div a (- b) = Ok (- x.1, x.2).
Proof.
  unfold py_true_div. rewrite Z.abs_opp, Z.sgn_opp.
  destruct (Z.eqb_spec b 0) as [->|Hb]; [done|].
  rewrite (proj2 (Z.eqb_neq (- b) 0)) by lia.
  destruct (a =? 0); [by intros [= <-]|].
  destruct (_ || _); [done|]. intros [= <-]. cbn [fst snd]. f_equal. f_equal. ring.
Qed.

(** Below [2^52] entries the planner's float arithmetic gives the integers
    of the exact quotients. *)
Lemma even_chunksize_small (E T : Z) :
  0 ≤ E < 2 ^ 52 →
  T ≠ 0 →
  even_chunksize E T = Ok (py_ceil_div E (Z.max (py_round_div E T) 1)).
Proof.
  intros HE HT. unfold even_chunksize.
  destruct (Z.eq_dec E 0) as [->|HE0].
  { unfold py_true_div. rewrite (proj2 (Z.eqb_neq T 0)) by done.
    cbn. unfold py_ceil_div. cbn. by rewrite Zdiv_0_l. }
  assert (∃ x, py_true_div E T = Ok x
               ∧ Z.max (py_round x) 1 = Z.max (py_round_div E T) 1) as (x & Hx & Hnx).
  { destruct (Z.lt_total T 0) as [Hneg|[?|Hpos]]; [|done|].
    - destruct (py_true_div_small E (- T)) as (d & Hdiv & Hd & _); [lia..|].
      apply py_true_div_opp in Hdiv. rewrite Z.opp_involutive in Hdiv.
      cbn [fst snd] in Hdiv. eexists. split; [exact Hdiv|].
      unfold py_round. cbn [fst snd].
      rewrite (proj2 (Z.leb_gt 0 (- d))) by lia.
      pose proof (py_round_div_negative E T ltac:(lia) Hneg).
      assert (0 ≤ py_round_div (E * 2 ^ d) (- T)).
      { apply py_round_div_nonneg; [|lia].
        assert (0 < 2 ^ d) by (apply Z.pow_pos_nonneg; lia). nia. }
      assert (0 < 2 ^ (- - d)) by (apply Z.pow_pos_nonneg; lia).
      pose proof (py_round_div_nonpos (- py_round_div (E * 2 ^ d) (- T)) (2 ^ (- - d))
                    ltac:(lia) ltac:(lia)).
      lia.
    - destruct (py_round_small E T) as (x & Hx & Hr); [lia..|].
      exists x. by rewrite Hr. }
  rewrite Hx. cbn [rbind]. cbv zeta. rewrite Hnx.
  assert (1 ≤ Z.max (py_round_div E T) 1 ≤ E) as Hn.
  { destruct (Z.lt_total T 0) as [Hneg|[?|Hpos]]; [|done|].
    - pose proof (py_round_div_negative E T ltac:(lia) Hneg). lia.
    - pose proof (py_round_div_le E T ltac:(lia) Hpos). lia. }
  destruct (math_ceil_small E (Z.max (py_round_div E T) 1)) as (w & -> & Hw); [lia..|].
  cbn [rbind]. by rewrite Hw.
Qed.

(** ** True division in general *)

Lemma py_true_div_inv (a b : Z) (x : pyfloat) :
  a ≠ 0 →
  py_true_div a b = Ok x →
  b ≠ 0
  ∧ x = (Z.sgn a * Z.sgn b
         * py_round_div
             (Z.abs a * 2 ^ Z.max (- Z.max (quotient_log2 (Z.abs a) (Z.abs b) - 52) (-1074)) 0)
             (Z.abs b * 2 ^ Z.max (Z.max (quotient_log2 (Z.abs a) (Z.abs b) - 52) (-1074)) 0),
         Z.max (quotient_log2 (Z.abs a) (Z.abs b) - 52) (-1074)).
Proof.
  intros Ha. unfold py_true_div.
  destruct (Z.eqb_spec b 0); [done|]. rewrite (proj2 (Z.eqb_neq a 0)) by done.
  destruct (_ || _); [done|]. by intros [= <-].
Qed.

(** The planner's count of chunks is at most twice the entry count. *)
Lemma py_round_true_div_le (E T : Z) (x : pyfloat) :
  0 < E → py_true_div E T = Ok x → py_round x ≤ 2 * E.
Proof.
  intros HE Hx. apply py_true_div_inv in Hx as [HT ->]; [|lia].
  rewrite (Z.abs_eq E), (Z.sgn_pos E), Z.mul_1_l by lia.
  destruct (quotient_log2_spec E (Z.abs T)) as [H1 _]; [lia..|].
  remember (quotient_log2 E (Z.abs T)) as lg eqn:Hlg. clear Hlg.
  remember (Z.max (lg - 52) (-1074)) as e eqn:He.
  pose proof (pow2_up_pos e) as Hup. pose proof (pow2_up_pos (- e)) as Hdn.
  assert (0 < Z.abs T * 2 ^ Z.max e 0) as HY by (apply Z.mul_pos_pos; lia).
  pose proof (py_round_div_bounds (E * 2 ^ Z.max (- e) 0) (Z.abs T * 2 ^ Z.max e 0) HY)
    as Hm.
  pose proof (py_round_div_nonneg (E * 2 ^ Z.max (- e) 0) (Z.abs T * 2 ^ Z.max e 0)
                ltac:(nia) HY) as Hm0.
  remember (py_round_div (E * 2 ^ Z.max (- e) 0) (Z.abs T * 2 ^ Z.max e 0)) as m eqn:Hem.
  clear Hem. unfold py_round. cbn [fst snd].
  destruct (Z.lt_total T 0) as [Hneg|[?|Hpos]]; [|done|].
  - rewrite (Z.sgn_neg T) by done.
    destruct (Z.leb_spec 0 e).
    + assert (0 < 2 ^ e) by (apply Z.pow_pos_nonneg; lia). nia.
    + assert (0 < 2 ^ (- e)) by (apply Z.pow_pos_nonneg; lia).
      pose proof (py_round_div_nonpos (-1 * m) (2 ^ (- e)) ltac:(lia) ltac:(lia)). lia.
  - rewrite (Z.sgn_pos T), Z.mul_1_l by done. rewrite (Z.abs_eq T) in * by lia.
    destruct (Z.leb_spec 0 e) as [He0|He0].
    + rewrite (Z.max_l e 0), (Z.max_r (- e) 0), Z.pow_0_r, Z.mul_1_r in * by lia.
      assert (e = lg - 52) as Helg by lia.
      rewrite (Z.max_l lg 0), (Z.max_r (- lg) 0), Z.pow_0_r, Z.mul_1_r in H1 by lia.
      assert (2 ^ e ≤ 2 ^ lg) by (apply Z.pow_le_mono_r; lia).
      assert (T * 2 ^ e ≤ E) by nia.
      assert (0 ≤ m * 2 ^ e) by nia.
      assert (2 * (m * 2 ^ e) * T ≤ 3 * E) by nia.
      nia.
    + rewrite (Z.max_r e 0), (Z.max_l (- e) 0), Z.pow_0_r, Z.mul_1_r in * by lia.
      assert (2 ^ 1 ≤ 2 ^ (- e)) as HD by (apply Z.pow_le_mono_r; lia).
      change (2 ^ 1) with 2 in HD.
      pose proof (py_round_div_bounds m (2 ^ (- e)) ltac:(lia)) as Hr.
      remember (py_round_div m (2 ^ (- e))) as r eqn:Her. clear Her.
      remember (2 ^ (- e)) as D eqn:HeD. clear HeD.
      destruct (Z.le_gt_cases r E) as [|Hbig]; [lia|]. exfalso.
      assert ((2 * r * D - D) * T ≤ 2 * m * T) by (apply Z.mul_le_mono_nonneg_r; lia).
      assert ((2 * (E + 1) * D - D) * T ≤ (2 * r * D - D) * T).
      { apply Z.mul_le_mono_nonneg_r; [lia|]. nia. }
      nia.
Qed.

(** A quotient that is at least one half is not rounded to zero. *)
Lemma math_ceil_true_div_pos (E n : Z) (y : pyfloat) :
  0 < E → 1 ≤ n ≤ 2 * E → py_true_div E n = Ok y → 0 < math_ceil y.
Proof.
  intros HE Hn Hy. apply py_true_div_inv in Hy as [_ ->]; [|lia].
  rewrite (Z.abs_eq E), (Z.abs_eq n), (Z.sgn_pos E), (Z.sgn_pos n), !Z.mul_1_l by lia.
  destruct (quotient_log2_spec E n) as [H1 H2]; [lia..|].
  remember (quotient_log2 E n) as lg eqn:Hlg. clear Hlg.
  assert (-1 ≤ lg) as Hlg1.
  { destruct (Z.le_gt_cases (-1) lg) as [|Hlow]; [done|]. exfalso.
    rewrite (Z.max_l (- (lg + 1)) 0), (Z.max_r (lg + 1) 0), Z.pow_0_r in H2 by lia.
    assert (2 ^ 1 ≤ 2 ^ (- (lg + 1))) by (apply Z.pow_le_mono_r; lia).
    change (2 ^ 1) with 2 in *. nia. }
  rewrite (Z.max_l (lg - 52) (-1074)) by lia.
  pose proof (pow2_up_pos (lg - 52)) as Hup.
  pose proof (pow2_up_pos (- (lg - 52))) as Hdn.
  pose proof (pow2_up_pos lg) as Hup'. pose proof (pow2_up_pos (- lg)) as Hdn'.
  assert (2 ^ Z.max (lg - 52) 0 ≤ 2 ^ Z.max lg 0) by (apply Z.pow_le_mono_r; lia).
  assert (2 ^ Z.max (- lg) 0 ≤ 2 ^ Z.max (- (lg - 52)) 0)
    by (apply Z.pow_le_mono_r; lia).
  assert (n * 2 ^ Z.max (lg - 52) 0 ≤ E * 2 ^ Z.max (- (lg - 52)) 0) as HYX.
  { etrans; [apply Z.mul_le_mono_nonneg_l; [lia|eassumption]|].
    etrans; [exact H1|]. apply Z.mul_le_mono_nonneg_l; [lia|done]. }
  assert (0 < n * 2 ^ Z.max (lg - 52) 0) as HY by (apply Z.mul_pos_pos; lia).
  pose proof (py_round_div_bounds (E * 2 ^ Z.max (- (lg - 52)) 0)
                (n * 2 ^ Z.max (lg - 52) 0) HY) as Hm.
  remember (py_round_div (E * 2 ^ Z.max (- (lg - 52)) 0) (n * 2 ^ Z.max (lg - 52) 0))
    as m eqn:Hem. clear Hem.
  assert (1 ≤ m) as Hm1 by nia.
  unfold math_ceil. cbn [fst snd]. destruct (Z.leb_spec 0 (lg - 52)).
  - assert (0 < 2 ^ (lg - 52)) by (apply Z.pow_pos_nonneg; lia). nia.
  - assert (0 < 2 ^ (- (lg - 52))) as HD by (apply Z.pow_pos_nonneg; lia).
    pose proof (py_ceil_div_bounds m (2 ^ (- (lg - 52))) HD). nia.
Qed.

(** Whatever the entry count, a chunk size the planner arrives at for a
    file that is not empty is at least 1. *)
Lemma even_chunksize_pos (E T w : Z) :
  0 < E → even_chunksize E T = Ok w → 0 < w.
Proof.
  intros HE. unfold even_chunksize.
  destruct (py_true_div E T) as [x|] eqn:Hx; [|done]. cbn [rbind]. cbv zeta.
  pose proof (py_round_true_div_le E T x HE Hx) as Hle.
  destruct (py_true_div E (Z.max (py_round x) 1)) as [y|] eqn:Hy; [|done].
  cbn [rbind]. intros [= <-].
  apply (math_ceil_true_div_pos E (Z.max (py_round x) 1)); [done|lia|done].
Qed.

(** The planner's arithmetic raises nothing but [ZeroDivisionError] and
    [OverflowError]. *)
Lemma py_true_div_raises (a b : Z) (e : exn) :
  py_true_div a b = Raise e →
  exn_kind_of e = ZeroDivisionError ∨ exn_kind_of e = OverflowError.
Proof.
  unfold py_true_div. destruct (b =? 0); [intros [= <-]; by left|].
  destruct (a =? 0); [done|]. destruct (_ || _); [|done].
  intros [= <-]. by right.
Qed.

Lemma even_chunksize_raises (E T : Z) (e : exn) :
  even_chunksize E T = Raise e →
  exn_kind_of e = ZeroDivisionError ∨ exn_kind_of e = OverflowError.
Proof.
  unfold even_chunksize.
  destruct (py_true_div E T) as [x|e'] eqn:Hx; cbn [rbind].
  - cbv zeta. destruct (py_true_div E (Z.max (py_round x) 1)) as [y|e'] eqn:Hy;
      cbn [rbind]; [done|].
    intros [= <-]. by apply py_true_div_raises in Hy.
  - intros [= <-]. by apply py_true_div_raises in Hx.
Qed.
(** ** The exact quotients on small numbers *)

Example py_round_div_ties :
  py_round_div 5 2 = 2 ∧ py_round_div 7 2 = 4 ∧ py_round_div (-5) 2 = -2
  ∧ py_round_div 1 2 = 0 ∧ py_round_div 2 3 = 1 ∧ py_round_div 250000 100000 = 2.
Proof. repeat split. Qed.

Example py_ceil_div_values :
  py_ceil_div 5 2 = 3 ∧ py_ceil_div 4 2 = 2 ∧ py_ceil_div 250000 2 = 125000.
Proof. repeat split. Qed.

Lemma py_ceil_div_pos (a n : Z) : 0 < a → 0 < n → 0 < py_ceil_div a n.
Proof.
  intros Ha Hn. unfold py_ceil_div.
  assert ((- a) / n < 0) by (apply Z.div_lt_upper_bound; lia). lia.
Qed.

Lemma py_ceil_div_zero (n : Z) : py_ceil_div 0 n = 0.
Proof. unfold py_ceil_div. simpl. rewrite Zdiv_0_l. reflexivity. Qed.

(** ** Tiling *)



(** ** The even-split loop *)

Section EvenLoop.
Variable mk : Z → Z → WorkItem.t.
Hypothesis mk_start : ∀ a b, WorkItem.entrystart (mk a b) = a.
Hypothesis mk_stop : ∀ a b, WorkItem.entrystop (mk a b) = b.
Variable numentries : Z.

Lemma quiet_tail (dyn : bool) (sent : list (option Z)) :
  quiet dyn sent → quiet dyn (tail sent).
Proof.
  intros [H|H]; [by left|right]. destruct sent; simpl; auto.
  by inversion H.
Qed.

Lemma quiet_keeps (dyn : bool) (sent : list (option Z)) :
  quiet dyn sent → dyn && truthy (mjoin (head sent)) = false.
Proof.
  intros [->|H]; [done|]. destruct sent as [|h sent]; simpl.
  - apply andb_false_r.
  - inversion H; subst. destruct h; simpl in *; [|apply andb_false_r].
    rewrite H2. apply andb_false_r.
Qed.

Lemma even_loop_tiles (fuel : nat) (dyn : bool) (start width : Z)
    (sent : list (option Z)) :
  quiet dyn sent →
  (start < numentries → 0 < width) →
  start ≤ numentries →
  (Z.to_nat (numentries - start) < fuel)%nat →
  ∃ units,
    even_loop fuel mk numentries dyn start width sent = Some units
    ∧ tiles start numentries (map WorkItem.range units)
    ∧ Forall (λ u, WorkItem.len u ≤ width) units.
Proof.
  revert start sent. induction fuel as [|fuel IH]; intros start sent Hq Hw Hle Hf.
  - lia.
  - simpl. destruct (Z.ltb_spec start numentries) as [Hlt|Hge].
    + specialize (Hw Hlt). rewrite (quiet_keeps _ _ Hq).
      set (stop := Z.min numentries (start + width)).
      assert (start < stop ≤ numentries) as Hs by (unfold stop; lia).
      destruct (IH stop (tail sent)) as (units & Hrun & Ht & Hb).
      * by apply quiet_tail.
      * auto.
      * lia.
      * lia.
      * exists (mk start stop :: units). rewrite Hrun. simpl.
        unfold WorkItem.range at 1. rewrite mk_start, mk_stop.
        repeat split; try lia; auto.
        constructor; auto. unfold WorkItem.len.
        rewrite mk_start, mk_stop. unfold stop. lia.
    + exists []. simpl. repeat split; auto. lia.
Qed.
End EvenLoop.

(** Fuel only bounds the run: once the loop has ended, more fuel gives the
    same items. *)
Lemma even_loop_more_fuel (mk : Z → Z → WorkItem.t) (fuel fuel' : nat) (E : Z)
    (dyn : bool) (start width : Z) (sent : list (option Z))
    (units : list WorkItem.t) :
  even_loop fuel mk E dyn start width sent = Some units →
  (fuel ≤ fuel')%nat →
  even_loop fuel' mk E dyn start width sent = Some units.
Proof.
  revert fuel' start width sent units.
  induction fuel as [|fuel IH]; intros fuel' start width sent units; [done|].
  intros Hrun Hle. destruct fuel' as [|fuel']; [lia|].
  simpl in *. destruct (start <? E); [|done].
  destruct (even_loop fuel mk E dyn _ _ _) as [units'|] eqn:Hrest; [|done].
  erewrite IH; [exact Hrun|exact Hrest|lia].
Qed.

(** ** The planner in even-split mode *)


Lemma chunks_even_unfold_any (fm : FileMeta.t) (md : Metadata) (E T : Z)
    (uuid : MetaVal) (dyn : bool) (sent : list (option Z)) (fuel : nat) :
  FileMeta.metadata fm = Some md →
  md !! "numentries" = Some (MInt E) →
  md !! "uuid" = Some uuid →
  FileMeta.chunks fm T false dyn sent fuel
  = match even_chunksize E T with
    | Raise e => Some (Raise e)
    | Ok width =>
      Ok <$> even_loop fuel (FileMeta.work_item fm (FileMeta.user_meta md) uuid)
                       E dyn 0 width sent
    end.
Proof.
  intros Hmd HE Hu. unfold FileMeta.chunks, FileMeta.populated.
  rewrite Hmd. simpl. rewrite HE, Hu. simpl.
  unfold FileMeta.getitem. rewrite Hu, HE. reflexivity.
Qed.

Lemma chunks_even_unfold (fm : FileMeta.t) (md : Metadata) (E T : Z)
    (uuid : MetaVal) (dyn : bool) (sent : list (option Z)) (fuel : nat) :
  FileMeta.metadata fm = Some md →
  md !! "numentries" = Some (MInt E) →
  md !! "uuid" = Some uuid →
  0 ≤ E < 2 ^ 52 →
  T ≠ 0 →
  FileMeta.chunks fm T false dyn sent fuel
  = Ok <$> even_loop fuel (FileMeta.work_item fm (FileMeta.user_meta md) uuid)
                     E dyn 0 (even_width E T) sent.
Proof.
  intros Hmd HE Hu HE52 HT.
  rewrite (chunks_even_unfold_any _ _ _ _ _ _ _ _ Hmd HE Hu).
  by rewrite even_chunksize_small.
Qed.




(** C2, the claim's ranges. Two files of 250000 and 50000 entries planned
    with chunk size 100000 in even-split mode do not give the four ranges
    [0,83334), [83334,166667), [166667,250000), [0,50000). *)
Lemma two_files_not_four_units :
  (λ g : gen_out, map WorkItem.range g.1)
    <$> _chunk_generator [demo_file "ZJets" "a.root" 250000;
                          demo_file "ZJets" "b.root" 50000]
                         100000 false None false [] 10
  ≠ Some [(0, 83334); (83334, 166667); (166667, 250000); (0, 50000)].
Proof. vm_compute. discriminate. Qed.

(** C2, the code at the claim's input. [round(250000 / 100000)] is
    [round(2.5)], which is 2, so the first file is cut in two windows of
    125000 entries, more than the chunk size of 100000 that
    [run_uproot_job] documents as a maximum: planning two populated files of
    250000 and 50000 entries with chunk size 100000 in even-split mode
    yields three work items, [0,125000) and [125000,250000) of the first
    file and [0,50000) of the second, and then ends normally. *)
Theorem two_files_three_units (f1 f2 : FileMeta.t) (md1 md2 : Metadata)
    (u1 u2 : MetaVal) (sent : list (option Z)) (fuel : nat) :
  FileMeta.metadata f1 = Some md1 →
  md1 !! "numentries" = Some (MInt 250000) →
  md1 !! "uuid" = Some u1 →
  FileMeta.metadata f2 = Some md2 →
  md2 !! "numentries" = Some (MInt 50000) →
  md2 !! "uuid" = Some u2 →
  (3 ≤ fuel)%nat →
  _chunk_generator [f1; f2] 100000 false None false sent fuel
  = Some ([FileMeta.work_item f1 (FileMeta.user_meta md1) u1 0 125000;
           FileMeta.work_item f1 (FileMeta.user_meta md1) u1 125000 250000;
           FileMeta.work_item f2 (FileMeta.user_meta md2) u2 0 50000], None).
Proof.
  intros H1 E1 U1 H2 E2 U2 Hf. unfold _chunk_generator, uncapped.
  destruct fuel as [|[|[|fuel]]]; try lia.
  rewrite (chunks_even_unfold _ _ _ _ _ _ _ _ H1 E1 U1) by lia.
  change (even_loop _ _ 250000 false 0 _ sent)
    with (Some [FileMeta.work_item f1 (FileMeta.user_meta md1) u1 0 125000;
                FileMeta.work_item f1 (FileMeta.user_meta md1) u1 125000 250000]).
  cbn [fmap option_fmap option_map].
  rewrite (chunks_even_unfold _ _ _ _ _ _ _ _ H2 E2 U2) by lia.
  reflexivity.
Qed.

(** C2, the code at the claim's input, on two files of a dataset. *)
Lemma two_files_three_units_witness :
  _chunk_generator [demo_file "ZJets" "a.root" 250000;
                    demo_file "ZJets" "b.root" 50000]
                   100000 false None false [] 3
  = Some ([FileMeta.work_item (demo_file "ZJets" "a.root" 250000)
             (FileMeta.user_meta (demo_md 250000)) (MBytes "0123456789abcdef")
             0 125000;
           FileMeta.work_item (demo_file "ZJets" "a.root" 250000)
             (FileMeta.user_meta (demo_md 250000)) (MBytes "0123456789abcdef")
             125000 250000;
           FileMeta.work_item (demo_file "ZJets" "b.root" 50000)
             (FileMeta.user_meta (demo_md 50000)) (MBytes "0123456789abcdef")
             0 50000], None).
Proof.
  apply (two_files_three_units _ _ (demo_md 250000) (demo_md 50000)
           (MBytes "0123456789abcdef") (MBytes "0123456789abcdef") [] 3).
  - reflexivity.
  - vm_compute. reflexivity.
  - vm_compute. reflexivity.
  - reflexivity.
  - vm_compute. reflexivity.
  - vm_compute. reflexivity.
  - lia.
Defined.

(** ** The planner in cluster-aligned mode *)


Lemma windows_cons (mk : Z → Z → WorkItem.t) (x y : Z) (l : list Z) :
  windows mk x (y :: l) = mk x y :: windows mk y l.
Proof. reflexivity. Qed.

Lemma cluster_walk_step_shape (T : Z) (cl cs acc : list Z) :
  (∀ c, c ∈ cs → c ∈ cl) →
  ∃ l',
    fold_left
      (λ chunks c, if c >=? default 0 (last chunks) + T then chunks ++ [c] else chunks)
      cs acc = acc ++ l'
    ∧ Forall (λ c, c ∈ cl) l'.
Proof.
  revert acc. induction cs as [|c cs IH]; intros acc Hin; simpl.
  - exists []. by rewrite app_nil_r.
  - assert (∀ c', c' ∈ cs → c' ∈ cl) as Hin' by (intros; apply Hin; by right).
    destruct (c >=? default 0 (last acc) + T).
    + destruct (IH (acc ++ [c]) Hin') as (l' & -> & Hl').
      exists (c :: l'). rewrite <- app_assoc. split; [done|].
      constructor; [apply Hin; by left | done].
    + by apply IH.
Qed.

Lemma cluster_walk_shape (T : Z) (cl : list Z) :
  ∃ l', cluster_walk T cl = 0 :: l' ∧ Forall (λ c, c ∈ cl) l'.
Proof.
  destruct (cluster_walk_step_shape T cl cl [0]) as (l' & H & Hl'); [done|].
  exists l'. split; [exact H|done].
Qed.

Section Windows.
Variable mk : Z → Z → WorkItem.t.
Hypothesis mk_start : ∀ a b, WorkItem.entrystart (mk a b) = a.
Hypothesis mk_stop : ∀ a b, WorkItem.entrystop (mk a b) = b.
Variable cl : list Z.

Lemma windows_members (x : Z) (l : list Z) :
  x = 0 ∨ x ∈ cl →
  Forall (λ c, c ∈ cl) l →
  Forall (λ u, WorkItem.entrystop u ∈ cl
               ∧ (WorkItem.entrystart u = 0 ∨ WorkItem.entrystart u ∈ cl))
         (windows mk x l).
Proof.
  revert x. induction l as [|y l IH]; intros x Hx Hl.
  - constructor.
  - rewrite windows_cons. inversion Hl; subst. constructor.
    + by rewrite mk_start, mk_stop.
    + apply IH; auto.
Qed.

Lemma windows_last (x : Z) (l : list Z) :
  WorkItem.entrystop <$> last (windows mk x l) = last l.
Proof.
  revert x. induction l as [|y l IH]; intros x; [done|].
  rewrite windows_cons, !last_cons. specialize (IH y).
  destruct (last (windows mk y l)), (last l); simpl in *;
    rewrite ?mk_stop; congruence.
Qed.
End Windows.

(** C7 (as stated, refuted). A cluster-populated descriptor whose cluster
    list is [[10]] (ten entries, one cluster) is planned as the single item
    [0, 10), whose [entrystart] is not in the cluster list. *)
Lemma cluster_start_not_member :
  ∃ units,
    FileMeta.chunks
      (FileMeta.Build "ZJets" "a.root" "Events"
         (Some {[ "numentries" := MInt 10; "uuid" := MBytes "0123456789abcdef";
                  "clusters" := MInts [10] ]}))
      5 true false [] 0 = Some (Ok units)
    ∧ ¬ Forall (λ u, WorkItem.entrystart u ∈ [10] ∧ WorkItem.entrystop u ∈ [10]) units.
Proof.
  eexists. split; [vm_compute; reflexivity|].
  intros H. inversion H as [|u l [Hs _] _]; subst. simpl in Hs.
  apply list_elem_of_singleton in Hs. discriminate.
Qed.

(** C7 (amended). For a cluster-populated descriptor whose cluster list
    ends with [numentries], cluster-aligned planning yields work items such
    that every [entrystop] is a member of the cluster list and every
    [entrystart] is 0 or a member of it; the last item stops at [numentries],
    and there is no item at all only if [numentries] is 0. *)
Theorem chunks_cluster_aligned (fm : FileMeta.t) (md : Metadata) (E T : Z)
    (uuid : MetaVal) (cl : list Z) (sent : list (option Z)) (fuel : nat) :
  FileMeta.metadata fm = Some md →
  md !! "numentries" = Some (MInt E) →
  md !! "uuid" = Some uuid →
  md !! "clusters" = Some (MInts cl) →
  last cl = Some E →
  ∃ units,
    FileMeta.chunks fm T true false sent fuel = Some (Ok units)
    ∧ Forall (λ u, WorkItem.entrystop u ∈ cl
                   ∧ (WorkItem.entrystart u = 0 ∨ WorkItem.entrystart u ∈ cl)) units
    ∧ match last units with
      | Some u => WorkItem.entrystop u = E
      | None => E = 0
      end.
Proof.
  intros Hmd HE Hu Hcl Hlast. unfold FileMeta.chunks, FileMeta.populated.
  rewrite Hmd. simpl. rewrite HE, Hu, Hcl. simpl.
  unfold FileMeta.getitem. rewrite Hu, Hcl. simpl. rewrite Hlast. simpl.
  destruct (cluster_walk_shape T cl) as (l' & -> & Hl').
  set (mk := FileMeta.work_item fm (FileMeta.user_meta md) uuid).
  assert (E ∈ cl) as HEin.
  { apply list_elem_of_lookup. rewrite last_lookup in Hlast. eauto. }
  assert (∃ l'', (if bool_decide (E ≠ default 0 (last (0 :: l')))
                  then (0 :: l') ++ [E] else 0 :: l') = 0 :: l''
                 ∧ Forall (λ c, c ∈ cl) l''
                 ∧ match last l'' with Some c => c = E | None => E = 0 end)
    as (l'' & -> & Hl'' & Hend).
  { case_bool_decide as Hne.
    - exists (l' ++ [E]). split; [done|]. split.
      + apply Forall_app. split; [done|]. by constructor.
      + by rewrite last_snoc.
    - exists l'. split; [done|]. split; [done|].
      rewrite last_cons in Hne.
      destruct (last l'); simpl in Hne; done. }
  exists (windows mk 0 l''). split; [done|]. split.
  - apply windows_members; auto.
  - pose proof (windows_last mk (λ _ _, eq_refl) 0 l'') as Hw.
    destruct (last (windows mk 0 l'')), (last l''); simpl in Hw; congruence.
Qed.


(** C7 (amended) on the cluster list [[0; 3; 6; 10]] with target 4. *)
Lemma chunks_cluster_aligned_witness :
  ∃ units,
    FileMeta.chunks
      (FileMeta.Build "ZJets" "a.root" "Events" (Some (demo_clustered [0; 3; 6; 10] 10)))
      4 true false [] 0 = Some (Ok units)
    ∧ Forall (λ u, WorkItem.entrystop u ∈ [0; 3; 6; 10]
                   ∧ (WorkItem.entrystart u = 0
                      ∨ WorkItem.entrystart u ∈ [0; 3; 6; 10])) units
    ∧ match last units with
      | Some u => WorkItem.entrystop u = 10
      | None => 10 = 0
      end.
Proof.
  apply (chunks_cluster_aligned _ (demo_clustered [0; 3; 6; 10] 10) 10 4
           (MBytes "0123456789abcdef")).
  - reflexivity.
  - vm_compute. reflexivity.
  - vm_compute. reflexivity.
  - vm_compute. reflexivity.
  - reflexivity.
Defined.

(** ** The capped chunk generator *)


Lemma count_dataset_snoc (ds : string) (l : list WorkItem.t) (u : WorkItem.t) :
  count_dataset ds (l ++ [u])
  = (count_dataset ds l + if decide (WorkItem.dataset u = ds) then 1 else 0)%nat.
Proof.
  unfold count_dataset. rewrite filter_app, length_app. f_equal.
  rewrite filter_cons. by destruct (decide (WorkItem.dataset u = ds)).
Qed.

Lemma nchunks_get_insert (nchunks : gmap string Z) (ds ds' : string) (v : Z) :
  nchunks_get (<[ds := v]> nchunks) ds'
  = if decide (ds = ds') then v else nchunks_get nchunks ds'.
Proof.
  unfold nchunks_get. rewrite lookup_insert. by destruct (decide (ds = ds')).
Qed.


Lemma even_loop_made (mk : Z → Z → WorkItem.t) (fuel : nat) (E : Z) (dyn : bool)
    (start width : Z) (sent : list (option Z)) (units : list WorkItem.t) :
  even_loop fuel mk E dyn start width sent = Some units →
  Forall (λ u, ∃ a b, u = mk a b) units.
Proof.
  revert start width sent units.
  induction fuel as [|fuel IH]; intros start width sent units; simpl; [done|].
  destruct (start <? E); [|intros [= <-]; constructor].
  destruct (even_loop fuel mk E dyn _ _ _) as [units'|] eqn:Hrun; [|done].
  simpl. intros [= <-]. constructor; eauto.
Qed.

Lemma zip_with_made (mk : Z → Z → WorkItem.t) (l1 l2 : list Z) :
  Forall (λ u, ∃ a b, u = mk a b) (zip_with mk l1 l2).
Proof.
  revert l2. induction l1 as [|a l1 IH]; intros [|b l2]; simpl;
    try constructor; eauto.
Qed.

Lemma chunks_made (fm : FileMeta.t) (T : Z) (al dyn : bool)
    (sent : list (option Z)) (fuel : nat) (produced : list WorkItem.t) :
  FileMeta.chunks fm T al dyn sent fuel = Some (Ok produced) →
  Forall (λ u, WorkItem.dataset u = FileMeta.dataset fm) produced.
Proof.
  unfold FileMeta.chunks. intros H.
  assert (Forall (λ u, ∃ um uuid a b, u = FileMeta.work_item fm um uuid a b) produced)
    as Hmade.
  { destruct (al && dyn); [done|].
    destruct (negb (FileMeta.populated fm al)); [done|].
    destruct (FileMeta.getitem _ "uuid") as [uuid|]; [|done].
    destruct al.
    - destruct (FileMeta.getitem _ "clusters") as [v|]; [|done]. simpl in H.
      destruct (FileMeta.as_ints v) as [cl|]; [|done]. simpl in H.
      destruct (last cl); [|done]. simpl in H. injection H as <-.
      eapply Forall_impl; [apply zip_with_made|].
      intros u (a & b & ->). eauto.
    - destruct (rbind _ _) as [E|]; [|done].
      destruct (even_chunksize E T) as [width|]; [|done].
      destruct (even_loop _ _ _ _ _ _ _) as [units|] eqn:Hrun; [|done].
      injection H as <-. apply even_loop_made in Hrun.
      eapply Forall_impl; [exact Hrun|].
      intros u (a & b & ->). eauto. }
  eapply Forall_impl; [exact Hmade|].
  by intros u (um & uuid & a & b & ->).
Qed.

Lemma chunks_static_total (fm : FileMeta.t) (T : Z) (al : bool)
    (sent : list (option Z)) (fuel : nat) :
  (Z.to_nat (entries_of fm) < fuel)%nat →
  is_Some (FileMeta.chunks fm T al false sent fuel).
Proof.
  intros Hf. unfold FileMeta.chunks, entries_of in *.
  rewrite andb_false_r.
  destruct (negb (FileMeta.populated fm al)); [done|].
  destruct (FileMeta.metadata fm) as [md|]; simpl.
  2:{ unfold FileMeta.getitem. by rewrite lookup_empty. }
  destruct (FileMeta.getitem md "uuid") as [uuid|]; [|done].
  destruct al; [done|].
  unfold FileMeta.getitem at 1.
  destruct (md !! "numentries") as [[E| | |]|]; simpl; try done.
  destruct (even_chunksize E T) as [width|] eqn:Hwidth; [|done].
  set (mk := FileMeta.work_item fm (FileMeta.user_meta md) uuid).
  destruct (Z.le_gt_cases 0 E) as [HE|HE].
  - destruct (even_loop_tiles mk (λ _ _, eq_refl) (λ _ _, eq_refl) E fuel false 0
                width sent)
      as (units & -> & _); try done.
    + by left.
    + intros. by apply (even_chunksize_pos E T).
    + by rewrite Z.sub_0_r.
  - destruct fuel as [|fuel]; [lia|]. simpl.
    destruct (Z.ltb_spec 0 E); [lia|done].
Qed.

Lemma yield_from_iter_prefix (chunks : list WorkItem.t) (sent : list (option Z)) :
  ∃ k, (yield_from_iter chunks sent).1 = take k chunks.
Proof.
  revert sent. induction chunks as [|chunk chunks IH]; intros sent; simpl.
  - by exists 0%nat.
  - destruct (mjoin (head sent)).
    + by exists 1%nat.
    + destruct (IH (tail sent)) as [k Hk]. exists (S k). simpl. by rewrite Hk.
Qed.

Lemma count_dataset_take (ds : string) (k : nat) (l : list WorkItem.t) :
  (count_dataset ds (take k l) ≤ count_dataset ds l)%nat.
Proof.
  unfold count_dataset. rewrite <- (take_drop k l) at 2.
  rewrite filter_app, length_app. lia.
Qed.

Lemma capped_outer_nothing (fuel : nat) (chunksize : Z) (al : bool) (m : Z)
    (fileset : list FileMeta.t) :
  m ≤ 0 →
  capped_outer fuel chunksize al m fileset ∅ [] = Some (Ok []).
Proof.
  intros Hm. induction fileset as [|fm fileset IH]; simpl; [done|].
  unfold nchunks_get at 1. rewrite lookup_empty. simpl.
  destruct (Z.geb_spec 0 m); [done|lia].
Qed.

Section Capped.
Variable m : Z.
Hypothesis m_nonneg : 0 ≤ m.


Lemma capped_inv_init : capped_inv m ∅ [].
Proof.
  intros ds. unfold nchunks_get. rewrite lookup_empty.
  split; [reflexivity|exact m_nonneg].
Qed.

Lemma capped_inner_inv (ds : string) (produced : list WorkItem.t)
    (nchunks : gmap string Z) (chunks : list WorkItem.t) :
  capped_inv m nchunks chunks →
  nchunks_get nchunks ds < m →
  Forall (λ u, WorkItem.dataset u = ds) produced →
  capped_inv m (capped_inner m ds produced nchunks chunks).1
             (capped_inner m ds produced nchunks chunks).2.
Proof.
  revert nchunks chunks.
  induction produced as [|u produced IH]; intros nchunks chunks Hinv Hlt Hds;
    [done|].
  inversion Hds as [|? ? Hu Hds']; subst.
  assert (capped_inv m (<[WorkItem.dataset u := nchunks_get nchunks (WorkItem.dataset u) + 1]> nchunks)
                     (chunks ++ [u])) as Hinv'.
  { intros ds. rewrite count_dataset_snoc, nchunks_get_insert.
    destruct (Hinv ds) as [Hc Hm].
    destruct (decide (WorkItem.dataset u = ds)) as [<-|]; lia. }
  assert (nchunks_get (<[WorkItem.dataset u := nchunks_get nchunks (WorkItem.dataset u) + 1]> nchunks)
                      (WorkItem.dataset u)
          = nchunks_get nchunks (WorkItem.dataset u) + 1) as Hget.
  { rewrite nchunks_get_insert. by destruct (decide _). }
  cbn [capped_inner]. rewrite Hget.
  destruct (Z.geb_spec (nchunks_get nchunks (WorkItem.dataset u) + 1) m);
    [done|].
  apply IH; auto. rewrite Hget. lia.
Qed.

Lemma capped_inner_from (ds : string) (produced : list WorkItem.t)
    (nchunks : gmap string Z) (chunks : list WorkItem.t) (u : WorkItem.t) :
  u ∈ (capped_inner m ds produced nchunks chunks).2 →
  u ∈ chunks ∨ u ∈ produced.
Proof.
  revert nchunks chunks.
  induction produced as [|v produced IH]; intros nchunks chunks; simpl; [auto|].
  destruct (_ >=? m).
  - simpl. rewrite elem_of_app, list_elem_of_singleton, elem_of_cons.
    intros [?| ->]; auto.
  - intros H. apply IH in H. rewrite elem_of_app, list_elem_of_singleton in H.
    rewrite elem_of_cons. destruct H as [[?| ->]|?]; auto.
Qed.

Lemma capped_outer_spec (fuel : nat) (chunksize : Z) (al : bool)
    (all fileset : list FileMeta.t)
    (nchunks : gmap string Z) (chunks : list WorkItem.t) :
  let made u := ∃ fm produced,
    fm ∈ all
    ∧ FileMeta.chunks fm chunksize al false [] fuel = Some (Ok produced)
    ∧ u ∈ produced in
  (∀ fm, fm ∈ fileset → fm ∈ all) →
  Forall (λ fm, (Z.to_nat (entries_of fm) < fuel)%nat) fileset →
  capped_inv m nchunks chunks →
  Forall made chunks →
  ∃ r, capped_outer fuel chunksize al m fileset nchunks chunks = Some r
       ∧ ∀ chunks', r = Ok chunks' →
           (∀ ds, Z.of_nat (count_dataset ds chunks') ≤ m) ∧ Forall made chunks'.
Proof.
  intros made. revert nchunks chunks.
  induction fileset as [|fm fileset IH]; intros nchunks chunks Hsub Hfuel Hinv Hmade;
    simpl.
  - eexists. split; [done|]. intros ? [= <-]. split; [|done].
    intros ds. destruct (Hinv ds). lia.
  - inversion Hfuel as [|? ? Hfm Hfuel']; subst.
    assert (∀ fm', fm' ∈ fileset → fm' ∈ all) as Hsub'
      by (intros; apply Hsub; by right).
    destruct (Z.geb_spec (nchunks_get nchunks (FileMeta.dataset fm)) m) as [|Hlt].
    + by apply IH.
    + destruct (chunks_static_total fm chunksize al [] fuel Hfm) as [r Hr].
      rewrite Hr. destruct r as [produced|e].
      * pose proof (capped_inner_inv (FileMeta.dataset fm) produced nchunks chunks
                      Hinv Hlt (chunks_made _ _ _ _ _ _ _ Hr)) as Hinv'.
        pose proof (capped_inner_from (FileMeta.dataset fm) produced nchunks chunks)
          as Hfrom.
        destruct (capped_inner m (FileMeta.dataset fm) produced nchunks chunks)
          as [nchunks' chunks'].
        apply IH; auto. simpl in Hfrom.
        apply Forall_forall. intros u Hu. destruct (Hfrom u Hu) as [Hold|Hnew].
        -- by eapply Forall_forall in Hmade.
        -- exists fm, produced. split; [apply Hsub; by left|done].
      * eexists. split; [done|]. by intros ? [=].
Qed.
End Capped.

(** C10 (as stated, refuted). With the cap [-1] the generator yields no
    item, which is more than [-1] items of the dataset. *)
Lemma chunk_generator_negative_cap :
  ∃ g,
    _chunk_generator [demo_file "ZJets" "a.root" 10] 4 false (Some (-1)) false [] 11
    = Some g
    ∧ ¬ Z.of_nat (count_dataset "ZJets" g.1) ≤ -1.
Proof.
  eexists. split; [vm_compute; reflexivity|]. simpl. lia.
Qed.

(** C10 (amended). With a cap [maxchunks = m], whatever [dynamic_chunksize]
    is passed and whatever is sent into the generator, the chunk generator
    (given fuel above every file's entry count) ends having yielded at most
    [max(m, 0)] work items of any one dataset, and every item it yields is
    one that a file of the file set produces with dynamic resizing off and
    nothing sent. *)
Theorem chunk_generator_capped (fileset : list FileMeta.t) (chunksize : Z)
    (align_clusters : bool) (m : Z) (dynamic_chunksize : bool)
    (sent : list (option Z)) (fuel : nat) :
  Forall (λ fm, (Z.to_nat (entries_of fm) < fuel)%nat) fileset →
  ∃ g,
    _chunk_generator fileset chunksize align_clusters (Some m)
                     dynamic_chunksize sent fuel = Some g
    ∧ (∀ ds, Z.of_nat (count_dataset ds g.1) ≤ Z.max m 0)
    ∧ Forall (λ u, ∃ fm produced,
                fm ∈ fileset
                ∧ FileMeta.chunks fm chunksize align_clusters false [] fuel
                  = Some (Ok produced)
                ∧ u ∈ produced) g.1.
Proof.
  intros Hfuel. unfold _chunk_generator.
  destruct (Z.le_gt_cases 0 m) as [Hm|Hm].
  - destruct (capped_outer_spec m fuel chunksize align_clusters fileset fileset ∅ [])
      as (r & Hr & Hspec); auto using capped_inv_init.
    rewrite Hr. simpl. destruct r as [chunks|e].
    + eexists. split; [done|].
      destruct (Hspec chunks eq_refl) as [Hcount Hmade].
      destruct (yield_from_iter_prefix chunks sent) as [k ->]. split.
      * intros ds. pose proof (count_dataset_take ds k chunks).
        specialize (Hcount ds). lia.
      * apply Forall_take, Hmade.
    + exists ([], Some e). split; [done|]. split; [|constructor].
      intros ds. change (0 ≤ Z.max m 0). lia.
  - rewrite capped_outer_nothing by lia. simpl.
    exists ([], None). split; [done|]. split; [|constructor].
    intros ds. change (0 ≤ Z.max m 0). lia.
Qed.

(** C10 (amended) on three files of two datasets with a cap of 3,
    resizing asked for and a value sent after the second item. *)
Lemma chunk_generator_capped_witness :
  ∃ g,
    _chunk_generator [demo_file "ZJets" "a.root" 10; demo_file "ZJets" "b.root" 7;
                      demo_file "TTbar" "c.root" 5]
                     4 false (Some 3) true [None; Some 7] 11 = Some g
    ∧ (∀ ds, Z.of_nat (count_dataset ds g.1) ≤ Z.max 3 0)
    ∧ Forall (λ u, ∃ fm produced,
                fm ∈ [demo_file "ZJets" "a.root" 10; demo_file "ZJets" "b.root" 7;
                      demo_file "TTbar" "c.root" 5]
                ∧ FileMeta.chunks fm 4 false false [] 11 = Some (Ok produced)
                ∧ u ∈ produced) g.1.
Proof.
  apply (chunk_generator_capped
           [demo_file "ZJets" "a.root" 10; demo_file "ZJets" "b.root" 7;
            demo_file "TTbar" "c.root" 5] 4 false 3 true [None; Some 7] 11).
  repeat constructor; vm_compute; lia.
Defined.

(** ** The reducer and the codec *)

(** C6. Reducing an empty sequence raises [ValueError], with or without
    compression; a reduction that returns a value was given at least one
    item. *)
Theorem reduce_empty_raises {V : Type} `{External V} (clevel : option Z) :
  _reduce clevel [] = Raise (Exn ValueError "Empty list provided to reduction")
  ∧ ∀ items v, _reduce clevel items = Ok v → items ≠ [].
Proof.
  split; [reflexivity|].
  intros items v Hr ->. discriminate Hr.
Qed.

Lemma map_result_Forall2 {A B : Type} (f : A → result B) (l : list A) (l' : list B) :
  Forall2 (λ a b, f a = Ok b) l l' → map_result f l = Ok l'.
Proof.
  induction 1 as [|a b l l' Hab _ IH]; simpl; [done|].
  by rewrite Hab, IH.
Qed.

(** C9. Given that [lz4.frame.decompress] undoes [lz4.frame.compress]:
    for every value that [pickle] gives back unchanged and every level,
    [_decompress (_compress x level)] is [x]; and on payloads that
    decompress to [xs] and a last payload that decompresses to [x0], the
    compressing reducer returns a payload that decompresses to
    [accumulate xs x0], the merge of the others into the last one,
    provided [pickle] gives that merge back unchanged. *)
Theorem codec_round_trip {V : Type} `{External V} :
  (∀ b level, lz4f_decompress (lz4f_compress b level) = Ok b) →
  (∀ x clevel,
     pickle_loads (pickle_dumps x) = Ok x →
     _decompress (_compress x clevel) = Ok x)
  ∧ (∀ clevel payloads last_payload xs x0 out,
       Forall2 (λ p x, _decompress p = Ok x) payloads xs →
       _decompress last_payload = Ok x0 →
       accumulate xs x0 = Ok out →
       pickle_loads (pickle_dumps out) = Ok out →
       ∃ merged,
         _reduce (Some clevel) (payloads ++ [last_payload]) = Ok merged
         ∧ _decompress merged = Ok out).
Proof.
  intros Hlz4.
  assert (∀ x clevel, pickle_loads (pickle_dumps x) = Ok x →
                      _decompress (_compress x clevel) = Ok x) as Hrt.
  { intros x clevel Hp. unfold _decompress, _compress. rewrite Hlz4. exact Hp. }
  split; [exact Hrt|].
  intros clevel payloads last_payload xs x0 out Hxs Hx0 Hacc Hp.
  exists (_compress out clevel). split; [|by apply Hrt].
  unfold _reduce. rewrite length_app, Nat.add_comm. simpl.
  rewrite last_snoc. simpl. rewrite Hx0. simpl.
  rewrite removelast_last. rewrite (map_result_Forall2 _ _ _ Hxs). simpl.
  by rewrite Hacc.
Qed.

(** C9 on the toy codec: one value, and a reduction of three payloads. *)
Lemma codec_round_trip_witness :
  _decompress (_compress (PyAcc true) 9) = Ok (PyAcc true)
  ∧ ∃ merged,
      _reduce (Some 1) ([_compress (PyAcc false) 1; _compress (PyAcc true) 1]
                        ++ [_compress (PyAcc false) 1]) = Ok merged
      ∧ _decompress merged = Ok (PyAcc true).
Proof.
  destruct (@codec_round_trip bool toy_external) as [Hone Hreduce].
  - intros b level. reflexivity.
  - split.
    + apply Hone. reflexivity.
    + apply (Hreduce 1 _ _ [PyAcc false; PyAcc true] (PyAcc false) (PyAcc true)).
      * repeat constructor.
      * reflexivity.
      * reflexivity.
      * reflexivity.
Defined.

(** ** The completion handler *)

Section HandlerFacts.
Context {V : Type}.
Implicit Types futures : gmap nat (future V).




Lemma yielded_app (a b : list (hevent V)) : yielded (a ++ b) = yielded a ++ yielded b.
Proof. apply omap_app. Qed.

Lemma yielded_cancels (l : list (nat * future V)) :
  yielded (V:=V) (map (λ kv, Cancel kv.1) l) = [].
Proof. induction l; simpl; auto. Qed.

Lemma yielded_finally futures : yielded (finally_cancel futures) = [].
Proof.
  unfold finally_cancel. rewrite yielded_app, yielded_cancels.
  by destruct (0 <? running_count futures)%nat.
Qed.

Lemma finally_cancels_all futures i :
  i ∈ dom futures → Cancel i ∈ finally_cancel futures.
Proof.
  intros [job Hjob]%elem_of_dom. unfold finally_cancel.
  apply elem_of_app. right. apply list_elem_of_In, in_map_iff.
  exists (i, job). split; [done|].
  by apply list_elem_of_In, elem_of_map_to_list.
Qed.


End HandlerFacts.



(** ** The executors *)

(** C4. Called on an empty sequence of items, the iterative executor and
    the futures executor return the accumulator they were given, and
    nothing happens: the function is neither called nor submitted. *)
Theorem executors_empty_items {V : Type} `{External V} {Item : Type}
    (function : Item → worked V) (accumulator : PyObj V) (kwargs : exe_kwargs)
    (pool : pool_env) :
  iterative_executor [] function accumulator kwargs = ([], Some (Ok accumulator))
  ∧ futures_executor pool [] function accumulator kwargs = ([], Some (Ok accumulator)).
Proof. split; reflexivity. Qed.

(** The iterative executor calls the function on none but the items. *)
Lemma feed_invokes {V : Type} `{External V} {Item : Type} (function : Item → worked V)
    (items : list Item) (item : Item) :
  ∀ (taken : list (PyObj V)) (accumulator : PyObj V),
  Invoked item ∈ (feed function taken items accumulator).1 → item ∈ items.
Proof.
  induction items as [|a items IH]; intros taken accumulator; simpl.
  - destruct (accumulate_stops _ _); by intros ?%elem_of_nil.
  - destruct (accumulate_stops _ _); [by intros ?%elem_of_nil|].
    destruct (function a) as [warnings [v|e]].
    + destruct (feed function (taken ++ [v]) items accumulator) as [events out] eqn:Hrec.
      simpl. rewrite elem_of_cons, !elem_of_app. intros [[= ->]|[Hw|Hev]].
      * by left.
      * apply list_elem_of_In, in_map_iff in Hw as (? & [=] & _).
      * right. apply (IH (taken ++ [v]) accumulator). by rewrite Hrec.
    + simpl. rewrite elem_of_cons. intros [[= ->]|Hw]; [by left|].
      apply list_elem_of_In, in_map_iff in Hw as (? & [=] & _).
Qed.

(** ** The retrying work function *)

Section WorkFacts.
Context {V : Type} `{External V} `{World V}.

(** An I/O failure that is an authentication failure, or any I/O failure
    when bad files are not to be skipped, leaves the function at once. *)
Lemma work_function_io_propagates (item : WorkItem.t) (savemetrics : bool)
    (schema : schema_t) (skipbadfiles : bool) (retries : nat)
    (use_dataframes : bool) (e : exn) :
  world_process item 0 = OpenFails e →
  is_os_error e = true →
  skipbadfiles = false ∨ contains "Auth failed" (exn_msg e) = true →
  _work_function item savemetrics schema skipbadfiles retries use_dataframes
  = ([], Raise e).
Proof.
  intros Hw Hos Hwhy. unfold _work_function. simpl. unfold try_body.
  rewrite Hw, Hos. destruct Hwhy as [->| ->]; [done|].
  by rewrite orb_true_r.
Qed.

(** A skippable I/O failure on the first attempt, with [use_dataframes]
    off: one warning, then [return {"out": out}] with [out] never
    assigned.  No second attempt is made, whatever [retries] is. *)
Lemma work_function_io_no_retry (item : WorkItem.t) (savemetrics : bool)
    (schema : schema_t) (retries : nat) (e : exn) :
  world_process item 0 = OpenFails e →
  is_os_error e = true →
  contains "Auth failed" (exn_msg e) = false →
  _work_function item savemetrics schema true retries false
  = ([bad_file_warning (WorkItem.filename item) retries 0],
     Raise (Exn UnboundLocalError "local variable 'out' referenced before assignment")).
Proof.
  intros Hw Hos Hauth. unfold _work_function. simpl. unfold try_body.
  by rewrite Hw, Hos, Hauth.
Qed.

(** The same failure met by [_get_metadata], whose [except OSError] block has
    no early return: the probe is made again. *)
Lemma get_metadata_io_retries (item : FileMeta.t) (retries : nat)
    (align_clusters : bool) (e : exn) (numentries : Z) (uuid : string)
    (clusters : list Z) :
  world_probe item 0 = ProbeFails e →
  is_os_error e = true →
  contains "Auth failed" (exn_msg e) = false →
  world_probe item 1 = ProbeFinds numentries uuid clusters →
  (1 ≤ retries)%nat →
  ∃ fetched,
    _get_metadata item true retries align_clusters
    = ([bad_file_warning (FileMeta.filename item) retries 0], Ok (PyFileSet [fetched]))
    ∧ FileMeta.populated fetched align_clusters = true.
Proof.
  intros Hp0 Hos Hauth Hp1 Hr. destruct retries as [|retries]; [lia|].
  unfold _get_metadata. cbn [metadata_loop].
  rewrite Hp0, Hos, Hauth, Hp1. cbn [negb orb].
  eexists. split; [reflexivity|].
  unfold FileMeta.populated. cbn [FileMeta.metadata].
  destruct align_clusters.
  - rewrite lookup_insert_ne, lookup_insert_ne, lookup_insert_eq by done.
    rewrite lookup_insert_ne, lookup_insert_eq by done.
    by rewrite lookup_insert_eq.
  - rewrite lookup_insert_ne, lookup_insert_eq by done.
    by rewrite lookup_insert_eq.
Qed.
End WorkFacts.

Example contains_auth_failed :
  contains "Auth failed" "[ERROR] Server responded with an error: [3010] Auth failed" = true
  ∧ contains "Auth failed" "[Errno 2] No such file or directory" = false.
Proof. split; reflexivity. Qed.

(** With [use_dataframes] on, the early return is not taken and the second
    attempt is made. *)
Example work_function_retries_with_dataframes :
  _work_function demo_item false SchemaBase true 2 true
  = ([BadFileSource "a.root" (Some (1, 3)%nat) true], Ok (PyAcc true)).
Proof. reflexivity. Qed.

(** With [skipbadfiles] off the first failure leaves the function. *)
Example work_function_skip_off :
  _work_function demo_item false SchemaBase false 2 false
  = ([], Raise (Exn OSError "[Errno 2] No such file or directory")).
Proof. reflexivity. Qed.

Example get_metadata_second_probe :
  (_get_metadata (FileMeta.Build "ZJets" "a.root" "Events" None) true 2 false).1
  = [BadFileSource "a.root" (Some (1, 3)%nat) true].
Proof. reflexivity. Qed.

(** C3 (the code at a failing input). Bad files are to be skipped, two
    retries are allowed, and the file cannot be opened at the first attempt
    though it could at the second: the work function warns once and raises
    [UnboundLocalError]; it neither retries nor returns a placeholder. *)
Theorem work_function_first_io_failure :
  world_process demo_item 0 = OpenFails (Exn OSError "[Errno 2] No such file or directory")
  ∧ world_process demo_item 1 = ProcessReturns (PyAcc true) (PyDict [])
  ∧ _work_function demo_item false SchemaBase true 2 false
    = ([BadFileSource "a.root" (Some (1, 3)%nat) true],
       Raise (Exn UnboundLocalError "local variable 'out' referenced before assignment")).
Proof. repeat split. Qed.

(** ** The orchestrator *)

(** C5 (the code on an empty file set). With either in-core executor and no
    refused or conflicting option, [run_uproot_job] on an empty mapping
    calls no function and raises [TypeError]: the executor returns the
    [None] it was given as accumulator, and [wrapped_out["out"]] subscripts
    it. *)
Theorem run_uproot_job_empty_fileset {V : Type} `{External V} `{World V}
    (treename : option string) (skipbadfiles : bool) (retries : nat)
    (align_clusters savemetrics : bool) (schema : schema_t) (use_dataframes : bool)
    (kwargs : exe_kwargs) (pre_executor : option (executor_t V))
    (pre_args : option exe_kwargs) (chunksize : Z) (maxchunks : option Z)
    (metadata_cache : cache_t) (sent : list (option Z)) (fuel : nat)
    (pool : pool_env) :
  let executor_args :=
    ExecutorArgs skipbadfiles retries align_clusters savemetrics schema
                 use_dataframes false false kwargs in
  let raised :=
    Job [] [] (if use_dataframes then [DataframesNeedDask] else []) metadata_cache
        (Some (Raise (Exn TypeError "'NoneType' object is not subscriptable"))) in
  run_uproot_job (FilesetMapping []) treename the_iterative_executor executor_args
                 pre_executor pre_args chunksize maxchunks metadata_cache false sent fuel
  = raised
  ∧ run_uproot_job (FilesetMapping []) treename (the_futures_executor pool) executor_args
                   pre_executor pre_args chunksize maxchunks metadata_cache false sent fuel
    = raised.
Proof.
  destruct maxchunks, use_dataframes, align_clusters; split;
    unfold run_uproot_job; cbn; rewrite ?andb_false_r; reflexivity.
Qed.

(** * Further properties *)

(** ** The planner *)

Lemma chunks_shape (fm : FileMeta.t) (T : Z) (al dyn : bool)
    (sent : list (option Z)) (fuel : nat) (produced : list WorkItem.t) :
  FileMeta.chunks fm T al dyn sent fuel = Some (Ok produced) →
  al && dyn = false
  ∧ FileMeta.populated fm al = true
  ∧ ∃ md uuid,
      FileMeta.metadata fm = Some md
      ∧ md !! "uuid" = Some uuid
      ∧ Forall (λ u, ∃ a b, u = FileMeta.work_item fm (FileMeta.user_meta md) uuid a b)
               produced.
Proof.
  unfold FileMeta.chunks. intros Hrun.
  destruct (al && dyn); [done|]. split; [done|].
  destruct (FileMeta.populated fm al) eqn:Hpop; [|done]. split; [done|].
  unfold FileMeta.populated in Hpop.
  destruct (FileMeta.metadata fm) as [md|]; [|done]. simpl in Hrun.
  exists md. unfold FileMeta.getitem in Hrun at 1.
  destruct (md !! "uuid") as [uuid|] eqn:Hu; [|done].
  exists uuid. split; [done|]. split; [done|].
  destruct al.
  - destruct (FileMeta.getitem _ "clusters") as [v|]; [|done]. simpl in Hrun.
    destruct (FileMeta.as_ints v) as [cl|]; [|done]. simpl in Hrun.
    destruct (last cl); [|done]. simpl in Hrun. injection Hrun as <-.
    apply zip_with_made.
  - destruct (rbind _ _) as [E|]; [|done].
    destruct (even_chunksize E T) as [width|]; [|done].
    destruct (even_loop _ _ _ _ _ _ _) as [units|] eqn:Hloop; [|done].
    injection Hrun as <-. by apply even_loop_made in Hloop.
Qed.

(** X1. [FileMeta.chunks] raises [RuntimeError] exactly when the descriptor
    is not populated for the mode asked for, or when cluster alignment and
    dynamic resizing are asked for together. *)
Theorem chunks_runtime_error (fm : FileMeta.t) (T : Z) (al dyn : bool)
    (sent : list (option Z)) (fuel : nat) :
  (∃ msg, FileMeta.chunks fm T al dyn sent fuel = Some (Raise (Exn RuntimeError msg)))
  ↔ FileMeta.populated fm al = false ∨ al && dyn = true.
Proof.
  unfold FileMeta.chunks. split.
  - intros [msg Hrun]. destruct (al && dyn); [by right|].
    destruct (FileMeta.populated fm al) eqn:Hpop; [|by left]. exfalso.
    simpl in Hrun. unfold FileMeta.getitem in Hrun at 1.
    destruct (default ∅ (FileMeta.metadata fm) !! "uuid"); [|done].
    destruct al.
    + unfold FileMeta.getitem in Hrun.
      destruct (default ∅ (FileMeta.metadata fm) !! "clusters") as [[]|];
        simpl in Hrun; try done.
      destruct (last l); simpl in Hrun; done.
    + unfold FileMeta.getitem in Hrun.
      destruct (default ∅ (FileMeta.metadata fm) !! "numentries") as [[]|];
        simpl in Hrun; try done.
      destruct (even_chunksize _ T) as [width|e] eqn:Hwidth.
      * by destruct (even_loop _ _ _ _ _ _ _).
      * injection Hrun as ->. by apply even_chunksize_raises in Hwidth as [|].
  - intros [Hpop|Hboth].
    + destruct (al && dyn); [by eexists|]. rewrite Hpop. by eexists.
    + rewrite Hboth. by eexists.
Qed.

(** X2. Every work item [FileMeta.chunks] yields names the descriptor's
    dataset, file and tree, carries its [uuid], and carries as user metadata
    the descriptor's metadata without the protected names: a protected key
    is never passed on, any other key is passed on with its value. *)
Theorem chunks_items_carry (fm : FileMeta.t) (T : Z) (al dyn : bool)
    (sent : list (option Z)) (fuel : nat) (produced : list WorkItem.t) :
  FileMeta.chunks fm T al dyn sent fuel = Some (Ok produced) →
  ∃ md uuid,
    FileMeta.metadata fm = Some md
    ∧ md !! "uuid" = Some uuid
    ∧ Forall (λ u,
        WorkItem.dataset u = FileMeta.dataset fm
        ∧ WorkItem.filename u = FileMeta.filename fm
        ∧ WorkItem.treename u = FileMeta.treename fm
        ∧ WorkItem.fileuuid u = uuid
        ∧ ∃ um, WorkItem.usermeta u = Some um
                ∧ ∀ k, um !! k = if bool_decide (k ∈ _PROTECTED_NAMES) then None
                                 else md !! k) produced.
Proof.
  intros Hrun. apply chunks_shape in Hrun as (_ & _ & md & uuid & Hmd & Hu & Hmade).
  exists md, uuid. split; [done|]. split; [done|].
  eapply Forall_impl; [exact Hmade|]. intros u (a & b & ->). simpl.
  repeat split. exists (FileMeta.user_meta md). split; [done|].
  intros k. unfold FileMeta.user_meta. case_bool_decide as Hk.
  - apply map_lookup_filter_None. right. intros v _. simpl. tauto.
  - destruct (md !! k) as [v|] eqn:Hv.
    + apply map_lookup_filter_Some. by split.
    + apply map_lookup_filter_None. by left.
Qed.

(** X2 on a descriptor with one user key. *)
Lemma chunks_items_carry_witness :
  ∃ md uuid,
    FileMeta.metadata (demo_file "ZJets" "a.root" 10) = Some md
    ∧ md !! "uuid" = Some uuid
    ∧ Forall (λ u,
        WorkItem.dataset u = FileMeta.dataset (demo_file "ZJets" "a.root" 10)
        ∧ WorkItem.filename u = FileMeta.filename (demo_file "ZJets" "a.root" 10)
        ∧ WorkItem.treename u = FileMeta.treename (demo_file "ZJets" "a.root" 10)
        ∧ WorkItem.fileuuid u = uuid
        ∧ ∃ um, WorkItem.usermeta u = Some um
                ∧ ∀ k, um !! k = if bool_decide (k ∈ _PROTECTED_NAMES) then None
                                 else md !! k)
        [FileMeta.work_item (demo_file "ZJets" "a.root" 10)
           (FileMeta.user_meta (demo_md 10)) (MBytes "0123456789abcdef") 0 10].
Proof.
  apply (chunks_items_carry (demo_file "ZJets" "a.root" 10) 20 false false [] 2).
  vm_compute. reflexivity.
Defined.

Section EvenLoopMore.
Variable mk : Z → Z → WorkItem.t.
Hypothesis mk_start : ∀ a b, WorkItem.entrystart (mk a b) = a.
Hypothesis mk_stop : ∀ a b, WorkItem.entrystop (mk a b) = b.
Variable E : Z.

Lemma even_loop_widths (fuel : nat) (dyn : bool) (start width : Z)
    (sent : list (option Z)) (units : list WorkItem.t) :
  quiet dyn sent →
  0 < width →
  even_loop fuel mk E dyn start width sent = Some units →
  (∀ i u, units !! i = Some u → (S i < length units)%nat → WorkItem.len u = width)
  ∧ (start < E → (Z.of_nat (length units) - 1) * width < E - start)
  ∧ (start < E → units ≠ []).
Proof.
  revert start sent units.
  induction fuel as [|fuel IH]; intros start sent units Hq Hw; [done|].
  simpl. destruct (Z.ltb_spec start E) as [Hlt|Hge].
  - rewrite (quiet_keeps _ _ Hq).
    destruct (even_loop fuel mk E dyn _ width (tail sent)) as [rest|] eqn:Hrest;
      [|done].
    simpl. intros [= <-].
    destruct (IH _ _ _ (quiet_tail _ _ Hq) Hw Hrest) as (Hwid & Hcnt & Hne).
    split; [|split].
    + intros [|i] u Hu Hlen; simpl in *.
      * injection Hu as <-. unfold WorkItem.len. rewrite mk_start, mk_stop.
        destruct (Z.ltb_spec (Z.min E (start + width)) E) as [Hin|Hout]; [lia|].
        destruct fuel as [|fuel']; [done|]. simpl in Hrest.
        destruct (Z.ltb_spec (Z.min E (start + width)) E); [lia|].
        injection Hrest as <-. simpl in Hlen. lia.
      * apply (Hwid i u Hu). lia.
    + intros _. simpl length.
      destruct (Z.ltb_spec (Z.min E (start + width)) E) as [Hin|Hout].
      * specialize (Hcnt Hin). nia.
      * destruct fuel as [|fuel']; [done|]. simpl in Hrest.
        destruct (Z.ltb_spec (Z.min E (start + width)) E); [lia|].
        injection Hrest as <-. simpl. lia.
    + done.
  - intros [= <-]. split; [|split]; try lia. intros i u Hu. done.
Qed.
End EvenLoopMore.

Lemma py_ceil_div_covers (a n : Z) : 0 < n → a ≤ n * py_ceil_div a n.
Proof.
  intros Hn. unfold py_ceil_div.
  pose proof (Z.div_mod (- a) n ltac:(lia)) as Hdm.
  pose proof (Z.mod_pos_bound (- a) n Hn). nia.
Qed.

(** X3. In even-split mode, with a target that is not zero and no resize
    hint taking effect, a file of [E] entries, [0 < E < 2^52], is cut in at
    least one and at most [max(round(E / T), 1)] work items, and every item
    but the last is exactly [ceil(E / max(round(E / T), 1))] entries long. *)
Theorem chunks_even_split_count (fm : FileMeta.t) (md : Metadata) (E T : Z)
    (uuid : MetaVal) (dyn : bool) (sent : list (option Z)) (fuel : nat) :
  FileMeta.metadata fm = Some md →
  md !! "numentries" = Some (MInt E) →
  md !! "uuid" = Some uuid →
  0 < E < 2 ^ 52 →
  T ≠ 0 →
  quiet dyn sent →
  (Z.to_nat E < fuel)%nat →
  ∃ units,
    FileMeta.chunks fm T false dyn sent fuel = Some (Ok units)
    ∧ (1 ≤ length units)%nat
    ∧ Z.of_nat (length units) ≤ Z.max (py_round_div E T) 1
    ∧ ∀ i u, units !! i = Some u → (S i < length units)%nat →
             WorkItem.len u = py_ceil_div E (Z.max (py_round_div E T) 1).
Proof.
  intros Hmd HE Hu HE0 HT Hq Hf.
  rewrite (chunks_even_unfold _ _ _ _ _ _ _ _ Hmd HE Hu) by (done || lia).
  unfold even_width.
  set (n := Z.max (py_round_div E T) 1) in *.
  assert (0 < py_ceil_div E n) as Hw by (apply py_ceil_div_pos; lia).
  destruct (even_loop_tiles (FileMeta.work_item fm (FileMeta.user_meta md) uuid)
              (λ _ _, eq_refl) (λ _ _, eq_refl) E fuel dyn 0 (py_ceil_div E n) sent)
    as (units & Hloop & _); [done|done|lia|lia|].
  exists units. rewrite Hloop. split; [done|].
  destruct (even_loop_widths (FileMeta.work_item fm (FileMeta.user_meta md) uuid)
              (λ _ _, eq_refl) (λ _ _, eq_refl) E _ _ _ _ _ _
              Hq Hw Hloop) as (Hwid & Hcnt & Hne).
  specialize (Hcnt ltac:(lia)). specialize (Hne ltac:(lia)).
  pose proof (py_ceil_div_covers E n ltac:(lia)) as Hcov.
  split; [|split].
  - destruct units; [done|simpl; lia].
  - nia.
  - exact Hwid.
Qed.

(** X3 on a file of ten entries with target 4. *)
Lemma chunks_even_split_count_witness :
  ∃ units,
    FileMeta.chunks (demo_file "ZJets" "a.root" 10) 4 false false [] 11
    = Some (Ok units)
    ∧ (1 ≤ length units)%nat
    ∧ Z.of_nat (length units) ≤ Z.max (py_round_div 10 4) 1
    ∧ ∀ i u, units !! i = Some u → (S i < length units)%nat →
             WorkItem.len u = py_ceil_div 10 (Z.max (py_round_div 10 4) 1).
Proof.
  apply (chunks_even_split_count (demo_file "ZJets" "a.root" 10) (demo_md 10) 10 4
           (MBytes "0123456789abcdef") false [] 11).
  - reflexivity.
  - vm_compute. reflexivity.
  - vm_compute. reflexivity.
  - split; [lia|reflexivity].
  - lia.
  - left. reflexivity.
  - simpl. lia.
Defined.

Section EvenLoopHinted.
Variable mk : Z → Z → WorkItem.t.
Hypothesis mk_start : ∀ a b, WorkItem.entrystart (mk a b) = a.
Hypothesis mk_stop : ∀ a b, WorkItem.entrystop (mk a b) = b.
Variable E : Z.

Lemma hinted_width_pos (dyn : bool) (width : Z) (sent : list (option Z)) :
  hints_ok sent →
  0 < width →
  0 < (if dyn && truthy (mjoin (head sent))
       then default 0 (mjoin (head sent)) else width).
Proof.
  intros Hok Hw. destruct dyn; [|done]. simpl.
  destruct sent as [|[z|] sent]; simpl; try done.
  inversion Hok; subst. destruct (Z.eqb_spec z 0); simpl; lia.
Qed.

Lemma hints_ok_tail (sent : list (option Z)) : hints_ok sent → hints_ok (tail sent).
Proof. intros Hok. destruct sent; [done|]. by inversion Hok. Qed.

Lemma even_loop_tiles_hinted (fuel : nat) (dyn : bool) (start width : Z)
    (sent : list (option Z)) :
  hints_ok sent →
  0 < width →
  start ≤ E →
  (Z.to_nat (E - start) < fuel)%nat →
  ∃ units,
    even_loop fuel mk E dyn start width sent = Some units
    ∧ tiles start E (map WorkItem.range units).
Proof.
  revert start width sent.
  induction fuel as [|fuel IH]; intros start width sent Hok Hw Hle Hf; [lia|].
  simpl. destruct (Z.ltb_spec start E) as [Hlt|Hge].
  - set (stop := Z.min E (start + width)).
    assert (start < stop ≤ E) as Hs by (unfold stop; lia).
    destruct (IH stop (if dyn && truthy (mjoin (head sent))
                       then default 0 (mjoin (head sent)) else width) (tail sent))
      as (units & Hrun & Ht).
    + by apply hints_ok_tail.
    + by apply hinted_width_pos.
    + lia.
    + lia.
    + exists (mk start stop :: units). rewrite Hrun. simpl.
      unfold WorkItem.range at 1. rewrite mk_start, mk_stop.
      repeat split; try lia; auto.
  - exists []. simpl. split; [done|lia].
Qed.

Lemma even_loop_first (fuel : nat) (dyn : bool) (start width : Z)
    (sent : list (option Z)) (units : list WorkItem.t) (u : WorkItem.t) :
  even_loop fuel mk E dyn start width sent = Some units →
  units !! 0%nat = Some u →
  WorkItem.entrystart u = start ∧ WorkItem.entrystop u = Z.min E (start + width).
Proof.
  destruct fuel as [|fuel]; [done|]. simpl.
  destruct (start <? E); [|by intros [= <-]].
  destruct (even_loop fuel mk E dyn _ _ _); [|done].
  simpl. intros [= <-] [= <-]. by rewrite mk_start, mk_stop.
Qed.

Lemma even_loop_hinted (fuel : nat) (start width : Z) (sent : list (option Z))
    (units : list WorkItem.t) (i : nat) (u : WorkItem.t) (z : Z) :
  even_loop fuel mk E true start width sent = Some units →
  units !! S i = Some u →
  sent !! i = Some (Some z) →
  z ≠ 0 →
  WorkItem.entrystop u = Z.min E (WorkItem.entrystart u + z).
Proof.
  revert start width sent units i.
  induction fuel as [|fuel IH]; intros start width sent units i; [done|].
  simpl. destruct (start <? E); [|by intros [= <-]].
  destruct (even_loop fuel mk E true _ _ (tail sent)) as [rest|] eqn:Hrest; [|done].
  simpl. intros [= <-] Hu Hz Hne. simpl in Hu.
  destruct i as [|i].
  - destruct sent as [|h sent]; [done|]. simpl in Hz. injection Hz as ->.
    simpl in Hrest. destruct (Z.eqb_spec z 0); [done|]. simpl in Hrest.
    destruct (even_loop_first _ _ _ _ _ _ _ Hrest Hu) as [-> ->]. done.
  - destruct sent as [|h sent]; [done|]. simpl in Hz.
    by apply (IH _ _ _ _ _ Hrest Hu Hz).
Qed.
End EvenLoopHinted.

(** X4. With dynamic resizing on, a target that is not zero and no negative
    value sent, even-split planning of a file of [E] entries,
    [0 ≤ E < 2^52], still ends and yields ranges that tile [0, E); and a
    non-zero value [z] sent after the item of index [i] makes the item of
    index [i + 1] exactly [min(z, E - entrystart)] entries long. *)
Theorem chunks_dynamic_resizing (fm : FileMeta.t) (md : Metadata) (E T : Z)
    (uuid : MetaVal) (sent : list (option Z)) (fuel : nat) :
  FileMeta.metadata fm = Some md →
  md !! "numentries" = Some (MInt E) →
  md !! "uuid" = Some uuid →
  0 ≤ E < 2 ^ 52 →
  T ≠ 0 →
  hints_ok sent →
  (Z.to_nat E < fuel)%nat →
  ∃ units,
    FileMeta.chunks fm T false true sent fuel = Some (Ok units)
    ∧ tiles 0 E (map WorkItem.range units)
    ∧ ∀ i u z, units !! S i = Some u → sent !! i = Some (Some z) → z ≠ 0 →
               WorkItem.len u = Z.min z (E - WorkItem.entrystart u).
Proof.
  intros Hmd HE Hu HE0 HT Hok Hf.
  rewrite (chunks_even_unfold _ _ _ _ _ _ _ _ Hmd HE Hu HE0 HT).
  set (mk := FileMeta.work_item fm (FileMeta.user_meta md) uuid).
  destruct (Z.eq_dec E 0) as [->|HEne].
  - destruct fuel as [|fuel]; [lia|]. exists []. simpl.
    split; [done|]. split; [done|]. intros i u z Hnil. done.
  - destruct (even_loop_tiles_hinted mk (λ _ _, eq_refl) (λ _ _, eq_refl) E fuel true
                0 (even_width E T) sent) as (units & Hrun & Ht); auto.
    + apply py_ceil_div_pos; lia.
    + lia.
    + by rewrite Z.sub_0_r.
    + exists units. rewrite Hrun. simpl. split; [done|]. split; [done|].
      intros i u z Hi Hz Hne.
      pose proof (even_loop_hinted mk (λ _ _, eq_refl) (λ _ _, eq_refl) E
                    _ _ _ _ _ _ _ _ Hrun Hi Hz Hne) as Hstop.
      unfold WorkItem.len. lia.
Qed.

(** X4 on a file of ten entries, with 1 sent after the first item and 5
    after the third. *)
Lemma chunks_dynamic_resizing_witness :
  ∃ units,
    FileMeta.chunks (demo_file "ZJets" "a.root" 10) 4 false true
                    [Some 1; None; Some 5] 11 = Some (Ok units)
    ∧ tiles 0 10 (map WorkItem.range units)
    ∧ ∀ i u z, units !! S i = Some u → [Some 1; None; Some 5] !! i = Some (Some z) →
               z ≠ 0 → WorkItem.len u = Z.min z (10 - WorkItem.entrystart u).
Proof.
  apply (chunks_dynamic_resizing (demo_file "ZJets" "a.root" 10) (demo_md 10) 10 4
           (MBytes "0123456789abcdef") [Some 1; None; Some 5] 11).
  - reflexivity.
  - vm_compute. reflexivity.
  - vm_compute. reflexivity.
  - split; [lia|reflexivity].
  - lia.
  - repeat constructor; lia.
  - simpl. lia.
Defined.

Lemma gapped_snoc (T c : Z) (l : list Z) :
  gapped T l →
  (∀ x, last l = Some x → T ≤ c - x) →
  gapped T (l ++ [c]).
Proof.
  induction l as [|x [|y l] IH]; intros Hg Hlast.
  - done.
  - simpl. split; [|done]. by apply Hlast.
  - destruct Hg as [Hxy Hg]. split; [done|]. apply IH; [done|].
    intros z Hz. apply Hlast. by rewrite last_cons_cons.
Qed.

Lemma gapped_weaken (T T' : Z) (l : list Z) : T' ≤ T → gapped T l → gapped T' l.
Proof.
  intros HT. induction l as [|x [|y l] IH]; try done.
  intros [Hxy Hg]. split; [lia|]. by apply IH.
Qed.

Lemma cluster_walk_step_gapped (T E : Z) (cs acc : list Z) :
  Forall (λ c, c ≤ E) cs →
  gapped T acc → Forall (λ c, c ≤ E) acc → acc ≠ [] →
  let walked :=
    fold_left
      (λ chunks c, if c >=? default 0 (last chunks) + T then chunks ++ [c] else chunks)
      cs acc in
  gapped T walked ∧ Forall (λ c, c ≤ E) walked.
Proof.
  revert acc. induction cs as [|c cs IH]; intros acc Hcs Hg Hle Hne; simpl; [done|].
  inversion Hcs; subst.
  destruct (Z.geb_spec c (default 0 (last acc) + T)) as [Hge|Hlt].
  - apply IH; auto.
    + apply gapped_snoc; [done|]. intros x Hx. rewrite Hx in Hge. simpl in Hge. lia.
    + apply Forall_app. split; [done|]. by constructor.
    + by destruct acc.
  - by apply IH.
Qed.

Section WindowsMore.
Variable mk : Z → Z → WorkItem.t.
Hypothesis mk_start : ∀ a b, WorkItem.entrystart (mk a b) = a.
Hypothesis mk_stop : ∀ a b, WorkItem.entrystop (mk a b) = b.

Lemma windows_tiles (x hi : Z) (l : list Z) :
  gapped 1 (x :: l) →
  last (x :: l) = Some hi →
  tiles x hi (map WorkItem.range (windows mk x l)).
Proof.
  revert x. induction l as [|y l IH]; intros x Hg Hlast.
  - simpl in *. congruence.
  - rewrite windows_cons. destruct Hg as [Hxy Hg]. simpl.
    unfold WorkItem.range at 1. rewrite mk_start, mk_stop.
    split; [done|]. split; [lia|]. apply IH; [done|].
    by rewrite last_cons_cons in Hlast.
Qed.

Lemma windows_gapped (T x : Z) (l : list Z) :
  gapped T (x :: l) → Forall (λ u, T ≤ WorkItem.len u) (windows mk x l).
Proof.
  revert x. induction l as [|y l IH]; intros x Hg; [constructor|].
  rewrite windows_cons. destruct Hg as [Hxy Hg]. constructor.
  - unfold WorkItem.len. by rewrite mk_start, mk_stop.
  - by apply IH.
Qed.

Lemma windows_snoc (x c : Z) (l : list Z) :
  windows mk x (l ++ [c]) = windows mk x l ++ [mk (default x (last l)) c].
Proof.
  revert x. induction l as [|y l IH]; intros x; [done|].
  rewrite <- app_comm_cons, !windows_cons, IH. simpl. f_equal. f_equal. f_equal.
  rewrite last_cons. by destruct (last l).
Qed.
End WindowsMore.

(** X5. For a target [T > 0] and a cluster list bounded by its last element
    [E ≥ 0], cluster-aligned planning yields work items whose ranges tile
    [0, E), and every item but the last is at least [T] entries long. *)
Theorem chunks_cluster_tiles (fm : FileMeta.t) (md : Metadata) (E T : Z)
    (uuid : MetaVal) (cl : list Z) (sent : list (option Z)) (fuel : nat) :
  FileMeta.metadata fm = Some md →
  is_Some (md !! "numentries") →
  md !! "uuid" = Some uuid →
  md !! "clusters" = Some (MInts cl) →
  last cl = Some E →
  Forall (λ c, c ≤ E) cl →
  0 ≤ E →
  0 < T →
  ∃ units,
    FileMeta.chunks fm T true false sent fuel = Some (Ok units)
    ∧ tiles 0 E (map WorkItem.range units)
    ∧ ∀ i u, units !! i = Some u → (S i < length units)%nat → T ≤ WorkItem.len u.
Proof.
  intros Hmd [vE HE] Hu Hcl Hlast Hbound HE0 HT.
  unfold FileMeta.chunks, FileMeta.populated.
  rewrite Hmd. simpl. rewrite HE, Hu, Hcl. simpl.
  unfold FileMeta.getitem. rewrite Hu, Hcl. simpl. rewrite Hlast. simpl.
  set (mk := FileMeta.work_item fm (FileMeta.user_meta md) uuid).
  destruct (cluster_walk_shape T cl) as (l' & Hwalk & _).
  destruct (cluster_walk_step_gapped T E cl [0] Hbound) as [Hg Hle]; try done.
  { by repeat constructor. }
  fold (cluster_walk T cl) in Hg, Hle. rewrite Hwalk in *.
  case_bool_decide as Hne.
  - exists (windows mk 0 (l' ++ [E])). split; [done|].
    assert (default 0 (last (0 :: l')) < E) as Hlt.
    { assert (default 0 (last (0 :: l')) ≤ E); [|lia].
      destruct (last (0 :: l')) as [x|] eqn:Hx; [|done]. simpl.
      apply last_Some_elem_of in Hx.
      by eapply Forall_forall in Hle. }
    split.
    + apply (windows_tiles mk (λ _ _, eq_refl) (λ _ _, eq_refl)).
      * change (0 :: l' ++ [E]) with ((0 :: l') ++ [E]). apply gapped_snoc.
        -- apply (gapped_weaken T); [lia|done].
        -- intros x Hx. rewrite Hx in Hlt. simpl in Hlt. lia.
      * change (0 :: l' ++ [E]) with ((0 :: l') ++ [E]). apply last_snoc.
    + rewrite windows_snoc. intros i u Hi Hlen.
      rewrite length_app in Hlen. simpl in Hlen.
      rewrite lookup_app_l in Hi by lia.
      pose proof (windows_gapped mk (λ _ _, eq_refl) (λ _ _, eq_refl) T 0 l' Hg) as Hall.
      by eapply Forall_lookup_1 in Hall.
  - exists (windows mk 0 l'). split; [done|]. split.
    + apply (windows_tiles mk (λ _ _, eq_refl) (λ _ _, eq_refl)).
      * apply (gapped_weaken T); [lia|done].
      * destruct (last (0 :: l')) eqn:Hx; simpl in Hne; [congruence|].
        by rewrite last_cons in Hx; destruct (last l').
    + intros i u Hi _.
      pose proof (windows_gapped mk (λ _ _, eq_refl) (λ _ _, eq_refl) T 0 l' Hg) as Hall.
      by eapply Forall_lookup_1 in Hall.
Qed.

(** X5 on the cluster list [[0; 3; 6; 10]] with target 4. *)
Lemma chunks_cluster_tiles_witness :
  ∃ units,
    FileMeta.chunks
      (FileMeta.Build "ZJets" "a.root" "Events" (Some (demo_clustered [0; 3; 6; 10] 10)))
      4 true false [] 0 = Some (Ok units)
    ∧ tiles 0 10 (map WorkItem.range units)
    ∧ ∀ i u, units !! i = Some u → (S i < length units)%nat → 4 ≤ WorkItem.len u.
Proof.
  apply (chunks_cluster_tiles _ (demo_clustered [0; 3; 6; 10] 10) 10 4
           (MBytes "0123456789abcdef") [0; 3; 6; 10]).
  - reflexivity.
  - vm_compute. eexists. reflexivity.
  - vm_compute. reflexivity.
  - vm_compute. reflexivity.
  - reflexivity.
  - repeat constructor; lia.
  - lia.
  - lia.
Defined.

(** ** The chunk generator *)

Lemma tiles_total (lo hi : Z) (units : list WorkItem.t) :
  tiles lo hi (map WorkItem.range units) → total_len units = hi - lo.
Proof.
  revert lo. induction units as [|u units IH]; simpl; intros lo Ht.
  - lia.
  - destruct Ht as (Hlo & _ & Ht). rewrite (IH _ Ht).
    unfold WorkItem.len. simpl in Hlo. lia.
Qed.

Lemma total_len_app (a b : list WorkItem.t) :
  total_len (a ++ b) = total_len a + total_len b.
Proof. induction a as [|u a IH]; simpl; [done|]. rewrite IH. lia. Qed.

(** X6. Without a cap and without resizing, with a chunk size that is not
    zero, over files that each carry a [uuid] and an entry count that is not
    negative and is below [2^52], the chunk generator ends normally and the
    lengths of the work items it yields add up to the sum of the files'
    entry counts: the two ways [run_uproot_job] computes [events_total]
    agree. *)
Theorem chunk_generator_total (fileset : list FileMeta.t) (chunksize : Z)
    (sent : list (option Z)) (fuel : nat) :
  chunksize ≠ 0 →
  Forall (countable fuel) fileset →
  ∃ units,
    _chunk_generator fileset chunksize false None false sent fuel = Some (units, None)
    ∧ total_len units = total_entries fileset.
Proof.
  intros HT. unfold _chunk_generator. revert sent.
  induction fileset as [|fm fileset IH]; intros sent Hall.
  - exists []. done.
  - inversion Hall as [|? ? (md & E & uuid & Hmd & HE & Hu & HE0 & Hf) Hrest]; subst.
    simpl.
    rewrite (chunks_even_unfold _ _ _ _ _ _ _ _ Hmd HE Hu HE0 HT).
    destruct (even_loop_tiles (FileMeta.work_item fm (FileMeta.user_meta md) uuid)
                (λ _ _, eq_refl) (λ _ _, eq_refl) E fuel false 0
                (even_width E chunksize) sent)
      as (produced & -> & Ht & _); auto.
    + by left.
    + intros. apply py_ceil_div_pos; lia.
    + lia.
    + by rewrite Z.sub_0_r.
    + simpl. destruct (IH (drop (length produced) sent) Hrest) as (units & -> & Hsum).
      simpl. exists (produced ++ units). split; [done|].
      rewrite total_len_app, Hsum, (tiles_total _ _ _ Ht).
      unfold entries_of at 1. rewrite Hmd, HE. lia.
Qed.

(** X6 on two files of ten and seven entries. *)
Lemma chunk_generator_total_witness :
  ∃ units,
    _chunk_generator [demo_file "ZJets" "a.root" 10; demo_file "TTbar" "b.root" 7]
                     4 false None false [] 11 = Some (units, None)
    ∧ total_len units
      = total_entries [demo_file "ZJets" "a.root" 10; demo_file "TTbar" "b.root" 7].
Proof.
  apply (chunk_generator_total
           [demo_file "ZJets" "a.root" 10; demo_file "TTbar" "b.root" 7] 4 [] 11).
  - lia.
  - repeat constructor.
    + exists (demo_md 10), 10, (MBytes "0123456789abcdef").
      repeat split; try reflexivity; lia.
    + exists (demo_md 7), 7, (MBytes "0123456789abcdef").
      repeat split; try reflexivity; lia.
Defined.

(** X7. A cap that is zero or negative makes the chunk generator yield
    nothing and end normally, without asking any file for its chunks: not
    even an unpopulated file makes it raise. *)
Theorem chunk_generator_cap_zero (fileset : list FileMeta.t) (chunksize : Z)
    (align_clusters : bool) (m : Z) (dynamic_chunksize : bool)
    (sent : list (option Z)) (fuel : nat) :
  m ≤ 0 →
  _chunk_generator fileset chunksize align_clusters (Some m) dynamic_chunksize sent fuel
  = Some ([], None).
Proof.
  intros Hm. unfold _chunk_generator.
  by rewrite capped_outer_nothing.
Qed.

(** X7 on a file set holding an unpopulated file. *)
Lemma chunk_generator_cap_zero_witness :
  _chunk_generator [FileMeta.Build "ZJets" "a.root" "Events" None] 4 false (Some 0)
                   false [] 0
  = Some ([], None).
Proof.
  apply (chunk_generator_cap_zero [FileMeta.Build "ZJets" "a.root" "Events" None]
           4 false 0 false [] 0).
  lia.
Defined.

(** ** Normalizing, caching and filtering descriptors *)

(** X8. With [skipbadfiles] on, [_filter_badfiles] never raises and keeps
    exactly the populated descriptors, in order; with it off, it returns the
    file set unchanged if every descriptor is populated and raises
    [RuntimeError] otherwise.  Whatever it returns is populated
    throughout. *)
Theorem filter_badfiles_spec (fileset : list FileMeta.t) (align_clusters : bool) :
  _filter_badfiles fileset align_clusters true
  = Ok (List.filter (λ fm, FileMeta.populated fm align_clusters) fileset)
  ∧ _filter_badfiles fileset align_clusters false
    = (if forallb (λ fm, FileMeta.populated fm align_clusters) fileset
       then Ok fileset
       else raise RuntimeError "Metadata for file {} could not be accessed.")
  ∧ ∀ skipbadfiles kept,
      _filter_badfiles fileset align_clusters skipbadfiles = Ok kept →
      Forall (λ fm, FileMeta.populated fm align_clusters = true) kept.
Proof.
  split; [|split].
  - induction fileset as [|fm fileset IH]; simpl; [done|].
    rewrite IH. by destruct (FileMeta.populated fm align_clusters).
  - induction fileset as [|fm fileset IH]; simpl; [done|].
    destruct (FileMeta.populated fm align_clusters); simpl; [|done].
    rewrite IH. by destruct (forallb _ fileset).
  - intros skipbadfiles. induction fileset as [|fm fileset IH]; simpl; intros kept.
    + intros [= <-]. constructor.
    + destruct (FileMeta.populated fm align_clusters) eqn:Hpop.
      * destruct (_filter_badfiles fileset align_clusters skipbadfiles) as [rest|];
          simpl; [|done].
        intros [= <-]. constructor; auto.
      * destruct skipbadfiles; simpl; [apply IH|done].
Qed.

Lemma normalize_entry_ok (treename : option string) (dataset : string)
    (entry : fileset_entry) (fms : list FileMeta.t) :
  normalize_entry treename dataset entry = Ok fms →
  map FileMeta.filename fms = entry_files entry
  ∧ Forall (λ fm,
      FileMeta.dataset fm = dataset
      ∧ ∀ k, k ∈ _PROTECTED_NAMES → default ∅ (FileMeta.metadata fm) !! k = None) fms.
Proof.
  destruct entry as [files|local files user_meta|]; simpl; [| |done].
  - destruct treename as [t|]; [|done]. intros [= <-].
    rewrite map_map. simpl. rewrite map_id. split; [done|].
    apply Forall_forall. intros fm Hin.
    apply list_elem_of_In, in_map_iff in Hin as (f & <- & _). simpl.
    split; [done|]. intros k _. apply lookup_empty.
  - case_bool_decide as Hres; [done|].
    assert (∀ k, k ∈ _PROTECTED_NAMES → default ∅ user_meta !! k = None) as Hfree.
    { intros k Hk. apply not_elem_of_dom. intros Hdom. apply Hres. by exists k. }
    intros Hrun.
    assert (∃ t, match files with
                 | Some files =>
                   Ok (map (λ filename, FileMeta.Build dataset filename t user_meta) files)
                 | None => raise KeyError "files"
                 end = Ok fms) as [t Hrun'].
    { destruct local, treename; try done; eauto. }
    destruct files as [files|]; [|done]. injection Hrun' as <-.
    rewrite map_map. simpl. rewrite map_id. split; [done|].
    apply Forall_forall. intros fm Hin.
    apply list_elem_of_In, in_map_iff in Hin as (f & <- & _). simpl.
    split; [done|]. destruct user_meta; [exact Hfree|].
    intros k _. apply lookup_empty.
Qed.

(** X9. When [_normalize_fileset] accepts a mapping, it gives one
    descriptor per listed file, in the order of the mapping; no descriptor
    carries a protected name in its metadata, so none is populated yet. *)
Theorem normalize_fileset_ok {V : Type} `{World V}
    (datasets : list (string * fileset_entry)) (treename : option string)
    (fms : list FileMeta.t) :
  _normalize_fileset (FilesetMapping datasets) treename = Ok fms →
  map FileMeta.filename fms = concat (map (λ de, entry_files de.2) datasets)
  ∧ Forall (λ fm,
      (∃ entry, (FileMeta.dataset fm, entry) ∈ datasets)
      ∧ (∀ k, k ∈ _PROTECTED_NAMES → default ∅ (FileMeta.metadata fm) !! k = None)
      ∧ ∀ clusters, FileMeta.populated fm clusters = false) fms.
Proof.
  unfold _normalize_fileset. revert fms.
  induction datasets as [|[dataset entry] datasets IH]; simpl; intros fms.
  - intros [= <-]. split; constructor.
  - destruct (normalize_entry treename dataset entry) as [here|] eqn:Hhere; [|done].
    simpl. destruct (normalize_entries treename datasets) as [rest|]; [|done].
    simpl. intros [= <-].
    destruct (normalize_entry_ok _ _ _ _ Hhere) as [Hnames Hhere'].
    destruct (IH rest eq_refl) as [Hrnames Hrest].
    split.
    + by rewrite map_app, Hnames, Hrnames.
    + apply Forall_app. split.
      * eapply Forall_impl; [exact Hhere'|]. intros fm [Hds Hfree].
        split; [|split; [done|]].
        -- exists entry. rewrite Hds. by left.
        -- intros clusters. unfold FileMeta.populated.
           destruct (FileMeta.metadata fm) as [md|]; [|done].
           assert (md !! "numentries" = None) as ->; [|done].
           apply (Hfree "numentries"). set_solver.
      * eapply Forall_impl; [exact Hrest|]. intros fm ([e He] & Hfree & Hpop).
        split; [|done]. exists e. by right.
Qed.

(** X9 on a mapping of one list and one dictionary entry. *)
Lemma normalize_fileset_ok_witness :
  map FileMeta.filename
      [FileMeta.Build "ZJets" "a.root" "Events" None;
       FileMeta.Build "ZJets" "b.root" "Events" None;
       FileMeta.Build "TTbar" "c.root" "Tree" (Some {[ "year" := MStr "2018" ]})]
  = concat (map (λ de : string * fileset_entry, entry_files de.2)
                [("ZJets", FileList ["a.root"; "b.root"]);
                 ("TTbar", FileDict (Some "Tree") (Some ["c.root"])
                                    (Some {[ "year" := MStr "2018" ]}))])
  ∧ Forall (λ fm,
      (∃ entry, (FileMeta.dataset fm, entry)
                ∈ [("ZJets", FileList ["a.root"; "b.root"]);
                   ("TTbar", FileDict (Some "Tree") (Some ["c.root"])
                                      (Some {[ "year" := MStr "2018" ]}))])
      ∧ (∀ k, k ∈ _PROTECTED_NAMES → default ∅ (FileMeta.metadata fm) !! k = None)
      ∧ ∀ clusters, FileMeta.populated fm clusters = false)
      [FileMeta.Build "ZJets" "a.root" "Events" None;
       FileMeta.Build "ZJets" "b.root" "Events" None;
       FileMeta.Build "TTbar" "c.root" "Tree" (Some {[ "year" := MStr "2018" ]})].
Proof.
  apply (@normalize_fileset_ok bool flaky_world
           [("ZJets", FileList ["a.root"; "b.root"]);
            ("TTbar", FileDict (Some "Tree") (Some ["c.root"])
                               (Some {[ "year" := MStr "2018" ]}))]
           (Some "Events")).
  vm_compute. reflexivity.
Defined.

(** X10. A mapping in which some dictionary entry uses a protected name as
    a metadata key is never accepted: [_normalize_fileset] raises, whatever
    the other entries are. *)
Theorem normalize_fileset_reserved {V : Type} `{World V}
    (datasets : list (string * fileset_entry)) (treename : option string)
    (dataset : string) (local : option string) (files : option (list string))
    (user_meta : Metadata) (k : string) :
  (dataset, FileDict local files (Some user_meta)) ∈ datasets →
  k ∈ _PROTECTED_NAMES →
  is_Some (user_meta !! k) →
  ∃ e, _normalize_fileset (FilesetMapping datasets) treename = Raise e.
Proof.
  intros Hin Hk Hused. unfold _normalize_fileset.
  induction datasets as [|[ds entry] datasets IH]; [by apply elem_of_nil in Hin|].
  simpl. apply elem_of_cons in Hin as [[= <- <-]|Hin].
  - simpl. rewrite bool_decide_eq_true_2; [by eexists|].
    exists k. split; [done|]. by apply elem_of_dom.
  - destruct (normalize_entry treename ds entry); [|by eexists].
    simpl. destruct (IH Hin) as [e ->]. by eexists.
Qed.

(** X10 on an entry whose metadata uses [uuid]. *)
Lemma normalize_fileset_reserved_witness :
  ∃ e, _normalize_fileset
         (FilesetMapping
            [("ZJets", FileList ["a.root"]);
             ("TTbar", FileDict (Some "Tree") (Some ["c.root"])
                                (Some {[ "uuid" := MStr "mine" ]}))])
         (Some "Events") = Raise e.
Proof.
  apply (@normalize_fileset_reserved bool flaky_world _ (Some "Events") "TTbar"
           (Some "Tree") (Some ["c.root"]) {[ "uuid" := MStr "mine" ]} "uuid").
  - right. left.
  - vm_compute. reflexivity.
  - vm_compute. eexists. reflexivity.
Defined.

(** X11. A cache entry written for one descriptor populates every
    descriptor of the same file and tree, whatever its dataset, and leaves
    the descriptor's own names alone; a descriptor with no entry in the
    cache is left as it is. *)
Theorem maybe_populate_insert_lookup (cache : cache_t) (item fm : FileMeta.t)
    (md : option Metadata) :
  (FileMeta.eqb fm item = true →
   maybe_populate fm (<[cache_key item := md]> cache)
   = FileMeta.Build (FileMeta.dataset fm) (FileMeta.filename fm)
                    (FileMeta.treename fm) md)
  ∧ (cache !! cache_key fm = None → maybe_populate fm cache = fm).
Proof.
  split.
  - intros Heq. unfold FileMeta.eqb in Heq.
    apply andb_true_iff in Heq as [Hf Ht].
    apply bool_decide_eq_true in Hf. apply bool_decide_eq_true in Ht.
    unfold maybe_populate.
    rewrite bool_decide_eq_false_2 by apply insert_non_empty. simpl.
    assert (cache_key fm = cache_key item) as -> by (unfold cache_key; congruence).
    by rewrite lookup_insert_eq.
  - intros Hmiss. unfold maybe_populate. rewrite Hmiss.
    by destruct (negb _).
Qed.

Lemma file_set_nil (seen : list (string * string)) : file_set seen [] = [].
Proof. reflexivity. Qed.

Lemma preprocess_each_populated {V : Type} `{External V} `{World V}
    (fileset : list FileMeta.t) (metadata_fetcher : FileMeta.t → worked V)
    (metadata_cache : cache_t) (align_clusters skipbadfiles : bool) :
  Forall (λ fm, FileMeta.populated fm align_clusters = true) fileset →
  preprocess_each fileset metadata_fetcher metadata_cache align_clusters skipbadfiles
  = ([], metadata_cache, Ok fileset).
Proof.
  induction 1 as [|fm fileset Hfm _ IH]; simpl; [done|].
  by rewrite Hfm, IH.
Qed.

(** X12. When every descriptor is already populated (from the cache, say),
    [_preprocess_fileset] fetches nothing: the executor is not called, the
    metadata fetcher is not called, and the cache and the file set come back
    unchanged, with or without a cap. *)
Theorem preprocess_fileset_populated {V : Type} `{External V} `{World V}
    (pre_executor : executor_t V) (pre_args : exe_kwargs)
    (fileset : list FileMeta.t) (metadata_fetcher : FileMeta.t → worked V)
    (metadata_cache : cache_t) (align_clusters : bool) (maxchunks : option Z)
    (skipbadfiles : bool) :
  Forall (λ fm, FileMeta.populated fm align_clusters = true) fileset →
  _preprocess_fileset pre_executor pre_args fileset metadata_fetcher metadata_cache
                      align_clusters maxchunks skipbadfiles
  = ([], metadata_cache, Some (Ok fileset)).
Proof.
  intros Hall. unfold _preprocess_fileset. destruct maxchunks as [m|].
  - by rewrite preprocess_each_populated.
  - assert (filter (λ fm, FileMeta.populated fm align_clusters = false) fileset = [])
      as ->; [|done].
    induction Hall as [|fm fileset Hfm _ IH]; [done|].
    rewrite filter_cons, IH. rewrite decide_False; [done|]. by rewrite Hfm.
Qed.

(** X12 on two populated descriptors. *)
Lemma preprocess_fileset_populated_witness :
  _preprocess_fileset the_iterative_executor (ExeKwargs None None)
    [demo_file "ZJets" "a.root" 10; demo_file "TTbar" "b.root" 7]
    (λ item, _get_metadata item false 0 false) ∅ false None false
  = ([], ∅, Some (Ok [demo_file "ZJets" "a.root" 10; demo_file "TTbar" "b.root" 7])).
Proof.
  apply (@preprocess_fileset_populated bool toy_external flaky_world).
  repeat constructor.
Defined.

(** ** The orchestrator's refusals *)

(** X13. [run_uproot_job] asked for dynamic resizing with an executor that
    is not the work queue executor, or together with cluster alignment, or
    together with a non-zero cap, raises before anything is dispatched: no
    function is called in either pass and the cache is left as it was. *)
Theorem run_uproot_job_refuses_dynamic {V : Type} `{External V} `{World V}
    (fileset : fileset_arg) (treename : option string) (executor : executor_t V)
    (executor_args : executor_args_t) (pre_executor : option (executor_t V))
    (pre_args : option exe_kwargs) (chunksize : Z) (maxchunks : option Z)
    (metadata_cache : cache_t) (sent : list (option Z)) (fuel : nat) :
  ex_is_work_queue executor = false
  ∨ a_align_clusters executor_args = true
  ∨ truthy maxchunks = true →
  let j := run_uproot_job fileset treename executor executor_args pre_executor pre_args
                          chunksize maxchunks metadata_cache true sent fuel in
  j_pre_events j = [] ∧ j_events j = [] ∧ j_cache j = metadata_cache
  ∧ ∃ e, j_result j = Some (Raise e).
Proof.
  intros Hwhy j. unfold j, run_uproot_job.
  assert (∀ e, let j := Job (V:=V) [] [] [] metadata_cache (Some (Raise e)) in
               j_pre_events j = [] ∧ j_events j = [] ∧ j_cache j = metadata_cache
               ∧ ∃ e, j_result j = Some (Raise e)) as Hfail.
  { intros e. simpl. repeat split. by eexists. }
  destruct fileset as [path|datasets|]; try apply Hfail.
  - destruct (_normalize_fileset (FilesetPath path) treename); [|apply Hfail].
    rewrite andb_true_r.
    destruct (a_align_clusters executor_args); [apply Hfail|].
    rewrite andb_true_r. destruct (truthy maxchunks); [apply Hfail|].
    simpl. destruct (ex_is_work_queue executor); [|apply Hfail].
    by destruct Hwhy as [?|[?|?]].
  - destruct (_normalize_fileset (FilesetMapping datasets) treename); [|apply Hfail].
    rewrite andb_true_r.
    destruct (a_align_clusters executor_args); [apply Hfail|].
    rewrite andb_true_r. destruct (truthy maxchunks); [apply Hfail|].
    simpl. destruct (ex_is_work_queue executor); [|apply Hfail].
    by destruct Hwhy as [?|[?|?]].
Qed.

(** X13 with the iterative executor. *)
Lemma run_uproot_job_refuses_dynamic_witness :
  let j := run_uproot_job (V:=bool)
             (FilesetMapping [("ZJets", FileList ["a.root"])]) (Some "Events")
             the_iterative_executor
             (ExecutorArgs false 0 false false SchemaBase false false false
                           (ExeKwargs None None))
             None None 100000 None ∅ true [] 0 in
  j_pre_events j = [] ∧ j_events j = [] ∧ j_cache j = ∅
  ∧ ∃ e, j_result j = Some (Raise e).
Proof.
  apply (@run_uproot_job_refuses_dynamic bool toy_external flaky_world).
  left. reflexivity.
Defined.

(** ** The completion handler, further *)

Lemma filter_none {A : Type} (P : A → Prop) `{!∀ x, Decision (P x)} (l : list A) :
  (∀ x, x ∈ l → ¬ P x) → filter P l = [].
Proof.
  induction l as [|a l IH]; intros Hnone; [done|].
  rewrite filter_cons, decide_False by (apply Hnone; by left).
  apply IH. intros x Hx. apply Hnone. by right.
Qed.

Section HandlerMore.
Context {V : Type}.
Implicit Types futures : gmap nat (future V).

Lemma after_nil (h : handled V) : after [] h = h.
Proof. by destruct h. Qed.

Lemma after_after (a b : list (hevent V)) (h : handled V) :
  after a (after b h) = after (a ++ b) h.
Proof. unfold after. simpl. by rewrite app_assoc. Qed.

Lemma handler_loop_empty (timeout : option Z) (script : list wait_answer)
    (cancelled : gset nat) :
  handler_loop (V:=V) timeout script ∅ cancelled = Handled [] Finished.
Proof.
  destruct script; simpl; rewrite bool_decide_eq_true_2 by done;
    unfold finally_cancel, running_count; by rewrite map_to_list_empty.
Qed.

Lemma handler_loop_prompt_then (timeout : option Z)
    (others : list (nat * PyObj V * bool)) (script : list wait_answer) futures :
  NoDup (map (λ x, x.1.1) others) →
  (∀ x, x ∈ others → futures !! x.1.1 = None) →
  handler_loop timeout (map (λ x, Completed [x.1.1]) others ++ script)
               (list_to_map (map prompt_future others) ∪ futures) ∅
  = after (map (λ x, Yield x.1.2) others) (handler_loop timeout script futures ∅).
Proof.
  induction others as [|[[i v] r] others IH]; intros Hnd Hfresh.
  - change (list_to_map (map prompt_future []))
      with (∅ : gmap nat (future V)).
    rewrite (left_id_L ∅ (∪) futures). simpl. by rewrite after_nil.
  - inversion Hnd as [|? ? Hi Hnd']; subst.
    assert ((list_to_map (map prompt_future others) ∪ futures) !! i = None) as Hnone.
    { apply lookup_union_None. split.
      - apply not_elem_of_list_to_map_1. intros Hin. apply Hi.
        apply list_elem_of_In in Hin. apply list_elem_of_In.
        rewrite map_map in Hin. exact Hin.
      - apply (Hfresh (i, v, r)). by left. }
    cbn [map prompt_future fst snd list_to_map foldr uncurry app].
    change (foldr (λ p, <[p.1:=p.2]>) ∅ (map prompt_future others))
      with (list_to_map (map prompt_future others) : gmap nat (future V)).
    rewrite <- insert_union_l. cbn [handler_loop].
    rewrite bool_decide_eq_false_2 by apply insert_non_empty.
    assert (wait_done (<[i:=Future (FutResult v) r]>
                         (list_to_map (map prompt_future others) ∪ futures)) [i]
            = [(i, Future (FutResult v) r)]) as ->.
    { unfold wait_done. simpl. by rewrite lookup_insert_eq. }
    assert (wait_not_done (<[i:=Future (FutResult v) r]>
                             (list_to_map (map prompt_future others) ∪ futures)) [i]
            = list_to_map (map prompt_future others) ∪ futures) as ->.
    { unfold wait_not_done. simpl. rewrite delete_insert_eq. by apply delete_id. }
    simpl. rewrite bool_decide_eq_false_2 by apply not_elem_of_empty.
    rewrite IH; auto.
    intros x Hx. apply Hfresh. by right.
Qed.

Lemma wait_done_lookup futures ids i job :
  (i, job) ∈ wait_done futures ids → futures !! i = Some job.
Proof.
  unfold wait_done. intros (j & _ & Hj)%list_elem_of_omap.
  destruct (futures !! j) eqn:Hl; simpl in Hj; [|done].
  injection Hj as <- <-. done.
Qed.

Lemma wait_not_done_dom futures ids : dom (wait_not_done futures ids) ⊆ dom futures.
Proof.
  unfold wait_not_done. induction ids as [|i ids IH]; simpl; [done|].
  rewrite dom_delete_L. intros j Hj. apply elem_of_difference in Hj as [Hj _].
  by apply IH.
Qed.

Lemma drain_cancelled (cancelled : gset nat) (done : list (nat * future V)) :
  (∀ i job, (i, job) ∈ done → i ∈ cancelled) →
  drain cancelled done = ([], None).
Proof.
  induction done as [|[i job] done IH]; intros Hall; simpl; [done|].
  rewrite bool_decide_eq_true_2 by (apply (Hall i job); by left).
  apply IH. intros j job' Hin. apply (Hall j job'). by right.
Qed.

Lemma yielded_on_interrupt futures : yielded (on_interrupt futures) = [].
Proof.
  unfold on_interrupt. rewrite yielded_app, yielded_cancels. done.
Qed.

Lemma yielded_no_progress (timeout : option Z) futures :
  yielded (h_events (no_progress timeout futures)) = []
  ∧ ∀ e, h_status (no_progress timeout futures) ≠ Failed e.
Proof.
  destruct timeout; simpl; [|done]. by rewrite yielded_finally.
Qed.

Lemma wait_not_done_lookup futures ids i job :
  wait_not_done futures ids !! i = Some job → futures !! i = Some job.
Proof.
  unfold wait_not_done. induction ids as [|j ids IH]; simpl; [done|].
  intros Hjob. apply lookup_delete_Some in Hjob as [_ Hjob]. by apply IH.
Qed.

Lemma drain_from (cancelled : gset nat) (done : list (nat * future V)) :
  (∀ v, v ∈ yielded (drain cancelled done).1 →
        ∃ i job, (i, job) ∈ done ∧ (i ∉ cancelled) ∧ f_outcome job = FutResult v)
  ∧ (∀ e, (drain cancelled done).2 = Some e →
          ∃ i job, (i, job) ∈ done ∧ (i ∉ cancelled) ∧ f_outcome job = FutRaises e).
Proof.
  induction done as [|[i job] done [IHy IHe]]; simpl.
  { split; [intros v Hv; by apply elem_of_nil in Hv|done]. }
  case_bool_decide as Hc.
  - split.
    + intros v Hv. destruct (IHy v Hv) as (j & job' & Hin & Hrest).
      exists j, job'. split; [by right|done].
    + intros e He. destruct (IHe e He) as (j & job' & Hin & Hrest).
      exists j, job'. split; [by right|done].
  - destruct (f_outcome job) as [v0|e0] eqn:Hout.
    + destruct (drain cancelled done) as [events e'] eqn:Hd. simpl in *. split.
      * intros v Hv. apply elem_of_cons in Hv as [->|Hv].
        -- exists i, job. split; [by left|done].
        -- destruct (IHy v Hv) as (j & job' & Hin & Hrest).
           exists j, job'. split; [by right|done].
      * intros e He. destruct (IHe e He) as (j & job' & Hin & Hrest).
        exists j, job'. split; [by right|done].
    + simpl. split.
      * intros v Hv. by apply elem_of_nil in Hv.
      * intros e [= <-]. exists i, job. split; [by left|done].
Qed.

(** What the handler yields, and the exception that leaves it, come from
    operations of the set that were not cancelled. *)
Lemma handler_loop_from (timeout : option Z) (script : list wait_answer) :
  ∀ futures (cancelled : gset nat),
  let h := handler_loop timeout script futures cancelled in
  (∀ v, v ∈ yielded (h_events h) →
        ∃ i job, futures !! i = Some job ∧ (i ∉ cancelled)
                 ∧ f_outcome job = FutResult v)
  ∧ (∀ e, h_status h = Failed e →
          ∃ i job, futures !! i = Some job ∧ (i ∉ cancelled)
                   ∧ f_outcome job = FutRaises e).
Proof.
  induction script as [|[ids|fin] script IH]; intros futures cancelled h; unfold h;
    cbn [handler_loop].
  - case_bool_decide.
    + simpl. rewrite yielded_finally. split; [intros v Hv; by apply elem_of_nil in Hv|done].
    + destruct (yielded_no_progress timeout futures) as [Hy Hs]. rewrite Hy.
      split; [intros v Hv; by apply elem_of_nil in Hv|]. intros e He. by apply Hs in He.
  - case_bool_decide.
    { simpl. rewrite yielded_finally.
      split; [intros v Hv; by apply elem_of_nil in Hv|done]. }
    destruct (length (wait_done futures ids) =? 0)%nat.
    { destruct (yielded_no_progress timeout (wait_not_done futures ids)) as [Hy Hs].
      rewrite Hy. split; [intros v Hv; by apply elem_of_nil in Hv|].
      intros e He. by apply Hs in He. }
    destruct (drain_from cancelled (wait_done futures ids)) as [Hdy Hde].
    destruct (drain cancelled (wait_done futures ids)) as [events [e0|]] eqn:Hd;
      simpl in Hdy, Hde.
    + simpl. split.
      * intros v Hv. rewrite yielded_app, yielded_finally, app_nil_r in Hv.
        destruct (Hdy v Hv) as (i & job & Hin & Hrest).
        exists i, job. split; [by eapply wait_done_lookup|done].
      * intros e [= <-]. destruct (Hde e0 eq_refl) as (i & job & Hin & Hrest).
        exists i, job. split; [by eapply wait_done_lookup|done].
    + destruct (IH (wait_not_done futures ids) cancelled) as [IHy IHe].
      unfold after. simpl. split.
      * intros v Hv. rewrite yielded_app in Hv. apply elem_of_app in Hv as [Hv|Hv].
        -- destruct (Hdy v Hv) as (i & job & Hin & Hrest).
           exists i, job. split; [by eapply wait_done_lookup|done].
        -- destruct (IHy v Hv) as (i & job & Hin & Hrest).
           exists i, job. split; [by eapply wait_not_done_lookup|done].
      * intros e He. destruct (IHe e He) as (i & job & Hin & Hrest).
        exists i, job. split; [by eapply wait_not_done_lookup|done].
  - case_bool_decide.
    { simpl. rewrite yielded_finally.
      split; [intros v Hv; by apply elem_of_nil in Hv|done]. }
    destruct (IH futures (cancelled ∪ cancellable futures fin)) as [IHy IHe].
    unfold after. simpl. split.
    + intros v Hv. rewrite yielded_app, yielded_on_interrupt in Hv. simpl in Hv.
      destruct (IHy v Hv) as (i & job & Hin & Hnot & Hout).
      exists i, job. split; [done|]. split; [|done].
      intros Hc. apply Hnot. apply elem_of_union. by left.
    + intros e He. destruct (IHe e He) as (i & job & Hin & Hnot & Hout).
      exists i, job. split; [done|]. split; [|done].
      intros Hc. apply Hnot. apply elem_of_union. by left.
Qed.

Lemma futures_handler_prompt_all (timeout : option Z)
    (others : list (nat * PyObj V * bool)) :
  NoDup (map (λ x, x.1.1) others) →
  _futures_handler (list_to_map (map prompt_future others)) timeout
                   (map (λ x, Completed [x.1.1]) others)
  = Handled (map (λ x, Yield x.1.2) others) Finished.
Proof.
  intros Hnd. unfold _futures_handler.
  pose proof (handler_loop_prompt_then timeout others [] ∅ Hnd) as Hrun.
  rewrite (right_id_L ∅ (∪)), app_nil_r in Hrun. rewrite Hrun.
  - rewrite handler_loop_empty. unfold after. simpl. by rewrite app_nil_r.
  - intros x _. apply lookup_empty.
Qed.

Lemma yielded_yields (l : list (PyObj V)) : yielded (map Yield l) = l.
Proof. induction l as [|v l IH]; simpl; [done|]. by f_equal. Qed.
End HandlerMore.

(** X14. When every operation completes, one after the other in any order,
    the handler yields the result of each exactly once, in the order of
    completion, warns of nothing, cancels nothing and ends, with or without
    a tail timeout. *)
Theorem futures_handler_all_complete {V : Type} (timeout : option Z)
    (others : list (nat * PyObj V * bool)) :
  NoDup (map (λ x, x.1.1) others) →
  _futures_handler (list_to_map (map prompt_future others)) timeout
                   (map (λ x, Completed [x.1.1]) others)
  = Handled (map (λ x, Yield x.1.2) others) Finished.
Proof. apply futures_handler_prompt_all. Qed.

(** X14 on three operations completing in the order 2, 0, 1. *)
Lemma futures_handler_all_complete_witness :
  _futures_handler
    (list_to_map (map prompt_future
       [(2%nat, PyAcc true, false); (0%nat, PyAcc false, true); (1%nat, PyNone, false)]))
    None [Completed [2%nat]; Completed [0%nat]; Completed [1%nat]]
  = Handled [Yield (PyAcc true); Yield (PyAcc false); Yield (PyNone : PyObj bool)]
            Finished.
Proof.
  apply (@futures_handler_all_complete bool None
           [(2%nat, PyAcc true, false); (0%nat, PyAcc false, true);
            (1%nat, PyNone, false)]).
  apply (bool_decide_unpack _). vm_compute. reflexivity.
Defined.

(** X15. When the operation a wait reports done has raised, the handler
    yields nothing more, requests the cancellation of every other operation
    still in the set, and the exception leaves it. *)
Theorem futures_handler_failure {V : Type} (timeout : option Z)
    (futures : gmap nat (future V)) (cancelled : gset nat) (i : nat) (e : exn)
    (running : bool) (script : list wait_answer) :
  futures !! i = Some (Future (FutRaises e) running) →
  i ∉ cancelled →
  let h := handler_loop timeout (Completed [i] :: script) futures cancelled in
  h_status h = Failed e
  ∧ h_events h = finally_cancel (delete i futures)
  ∧ yielded (h_events h) = []
  ∧ ∀ j, j ∈ dom futures → j ≠ i → Cancel j ∈ h_events h.
Proof.
  intros Hi Hnot h. unfold h. cbn [handler_loop].
  rewrite bool_decide_eq_false_2 by (intros ->; by rewrite lookup_empty in Hi).
  assert (wait_done futures [i] = [(i, Future (FutRaises e) running)]) as ->.
  { unfold wait_done. simpl. by rewrite Hi. }
  simpl. rewrite bool_decide_eq_false_2 by done. simpl.
  split; [done|]. split; [done|]. split; [apply yielded_finally|].
  intros j Hj Hne. apply finally_cancels_all.
  unfold wait_not_done. simpl. rewrite dom_delete_L.
  apply elem_of_difference. split; [done|]. by rewrite elem_of_singleton.
Qed.

(** X15 on two operations, the first of which raises. *)
Lemma futures_handler_failure_witness :
  let h := handler_loop (V:=bool) None [Completed [0%nat]]
             {[ 0%nat := Future (FutRaises (Exn ValueError "bad")) false;
                1%nat := Future (FutResult (PyAcc true)) false ]} ∅ in
  h_status h = Failed (Exn ValueError "bad")
  ∧ h_events h
    = finally_cancel
        (delete 0%nat
           ({[ 0%nat := Future (FutRaises (Exn ValueError "bad")) false;
               1%nat := Future (FutResult (PyAcc true)) false ]}
            : gmap nat (future bool)))
  ∧ yielded (h_events h) = []
  ∧ ∀ j, j ∈ dom ({[ 0%nat := Future (FutRaises (Exn ValueError "bad")) false;
                     1%nat := Future (FutResult (PyAcc true)) false ]}
                  : gmap nat (future bool)) →
         j ≠ 0%nat → Cancel j ∈ h_events h.
Proof.
  apply (@futures_handler_failure bool None
           {[ 0%nat := Future (FutRaises (Exn ValueError "bad")) false;
              1%nat := Future (FutResult (PyAcc true)) false ]}
           ∅ 0%nat (Exn ValueError "bad") false []).
  - vm_compute. reflexivity.
  - apply not_elem_of_empty.
Defined.

(** X16. After a [KeyboardInterrupt] that breaks a [wait] while none of the
    operations is running, the handler has requested the cancellation of
    every operation and warned of an early stop; whatever the scheduler
    reports afterwards, every result it yields and any exception that leaves
    it is that of an operation that had already finished when the interrupt
    came.  When none had, it yields nothing and lets no exception of an
    operation through. *)
Theorem futures_handler_interrupt {V : Type} (timeout : option Z)
    (futures : gmap nat (future V)) (cancelled : gset nat)
    (finished : list nat) (script : list wait_answer) :
  futures ≠ ∅ →
  (∀ i job, futures !! i = Some job → f_running job = false) →
  let h := handler_loop timeout (Interrupted finished :: script) futures cancelled in
  (∀ i, i ∈ dom futures → Cancel i ∈ h_events h)
  ∧ Warn (EarlyStop (size futures) 0) ∈ h_events h
  ∧ (∀ v, v ∈ yielded (h_events h) →
          ∃ i job, i ∈ finished ∧ futures !! i = Some job
                   ∧ f_outcome job = FutResult v)
  ∧ (∀ e, h_status h = Failed e →
          ∃ i job, i ∈ finished ∧ futures !! i = Some job
                   ∧ f_outcome job = FutRaises e)
  ∧ ((∀ i, i ∈ finished → futures !! i = None) →
     yielded (h_events h) = [] ∧ ∀ e, h_status h ≠ Failed e).
Proof.
  intros Hne Hidle h. unfold h. cbn [handler_loop].
  rewrite bool_decide_eq_false_2 by done.
  assert (∀ i job, futures !! i = Some job →
                   i ∉ cancelled ∪ cancellable futures finished → i ∈ finished)
    as Hleft.
  { intros i job Hjob Hnot.
    destruct (decide (i ∈ finished)) as [|Hout]; [done|]. exfalso. apply Hnot.
    apply elem_of_union. right. unfold cancellable. apply elem_of_dom.
    exists job. apply map_lookup_filter_Some. split; [done|]. simpl.
    split; [by apply (Hidle i)|done]. }
  assert (running_count futures = 0%nat) as Hrun.
  { unfold running_count.
    assert (filter (λ kv : nat * future V, f_running kv.2 = true)
                   (map_to_list futures) = []) as ->; [|done].
    apply filter_none. intros [i job] Hin.
    apply elem_of_map_to_list in Hin. simpl. by rewrite (Hidle i job Hin). }
  destruct (handler_loop_from timeout script futures
              (cancelled ∪ cancellable futures finished)) as [Hy Hs].
  assert (∀ v, v ∈ yielded (h_events
                  (after (on_interrupt futures)
                     (handler_loop timeout script futures
                        (cancelled ∪ cancellable futures finished)))) →
               ∃ i job, i ∈ finished ∧ futures !! i = Some job
                        ∧ f_outcome job = FutResult v) as Hyield.
  { intros v Hv. unfold after in Hv. simpl in Hv.
    rewrite yielded_app, yielded_on_interrupt in Hv. simpl in Hv.
    destruct (Hy v Hv) as (i & job & Hjob & Hnot & Hout).
    exists i, job. split; [by apply (Hleft i job)|done]. }
  assert (∀ e, h_status
                 (after (on_interrupt futures)
                    (handler_loop timeout script futures
                       (cancelled ∪ cancellable futures finished))) = Failed e →
               ∃ i job, i ∈ finished ∧ futures !! i = Some job
                        ∧ f_outcome job = FutRaises e) as Hfail.
  { intros e He. unfold after in He. simpl in He.
    destruct (Hs e He) as (i & job & Hjob & Hnot & Hout).
    exists i, job. split; [by apply (Hleft i job)|done]. }
  split; [|split; [|split; [done|split; [done|]]]].
  - intros i [job Hjob]%elem_of_dom. unfold after, on_interrupt. simpl.
    apply elem_of_app. left. apply elem_of_app. left.
    apply list_elem_of_In, in_map_iff. exists (i, job). split; [done|].
    by apply list_elem_of_In, elem_of_map_to_list.
  - unfold after, on_interrupt. simpl. rewrite Hrun.
    apply elem_of_app. left. apply elem_of_app. right.
    rewrite Nat.sub_0_r. by left.
  - intros Hnone. split.
    + apply elem_of_nil_inv. intros v Hv.
      destruct (Hyield v Hv) as (i & job & Hi & Hjob & _).
      by rewrite (Hnone i Hi) in Hjob.
    + intros e He. destruct (Hfail e He) as (i & job & Hi & Hjob & _).
      by rewrite (Hnone i Hi) in Hjob.
Qed.

(** X16 on two operations, of which the second had finished when the
    interrupt came, that the scheduler then reports done. *)
Lemma futures_handler_interrupt_witness :
  let futures : gmap nat (future bool) :=
    {[ 0%nat := Future (FutResult (PyAcc true)) false;
       1%nat := Future (FutResult (PyAcc false)) false ]} in
  let h := handler_loop None [Interrupted [1%nat]; Completed [0%nat; 1%nat]] futures ∅ in
  (∀ i, i ∈ dom futures → Cancel i ∈ h_events h)
  ∧ Warn (EarlyStop (size futures) 0) ∈ h_events h
  ∧ (∀ v, v ∈ yielded (h_events h) →
          ∃ i job, i ∈ [1%nat] ∧ futures !! i = Some job
                   ∧ f_outcome job = FutResult v)
  ∧ (∀ e, h_status h = Failed e →
          ∃ i job, i ∈ [1%nat] ∧ futures !! i = Some job
                   ∧ f_outcome job = FutRaises e)
  ∧ ((∀ i, i ∈ [1%nat] → futures !! i = None) →
     yielded (h_events h) = [] ∧ ∀ e, h_status h ≠ Failed e).
Proof.
  apply (@futures_handler_interrupt bool None
           {[ 0%nat := Future (FutResult (PyAcc true)) false;
              1%nat := Future (FutResult (PyAcc false)) false ]}
           ∅ [1%nat] [Completed [0%nat; 1%nat]]).
  - apply insert_non_empty.
  - intros i job Hjob.
    apply lookup_insert_Some in Hjob as [[_ <-]|[_ Hjob]]; [reflexivity|].
    apply lookup_singleton_Some in Hjob as [_ <-]. reflexivity.
Defined.

(** ** The executors, further *)

Section ExecutorsMore.
Context {V : Type} `{External V} {Item : Type}.

Lemma invoked_warned (ws : list warning) :
  invoked (Item:=Item) (V:=V) (map Warned ws) = [].
Proof. unfold invoked. induction ws; simpl; auto. Qed.

Lemma invoked_here (item : Item) (ws : list warning) (events : list (xevent Item V)) :
  invoked (Invoked item :: map Warned ws ++ events) = item :: invoked events.
Proof.
  unfold invoked. simpl. f_equal. rewrite omap_app.
  fold (invoked (Item:=Item) (V:=V) (map Warned ws)). by rewrite invoked_warned.
Qed.

Lemma invoked_app (events events' : list (xevent Item V)) :
  invoked (events ++ events') = invoked events ++ invoked events'.
Proof. unfold invoked. apply omap_app. Qed.

Lemma feed_takes (function : Item → worked V) (accumulator : PyObj V)
    (pre : list Item) (outs : list (PyObj V)) (rest : list Item) :
  ∀ taken : list (PyObj V),
  Forall2 (λ item o, (function item).2 = Ok o) pre outs →
  (∀ k, (k < length outs)%nat →
        accumulate_stops (taken ++ take k outs) accumulator = false) →
  (feed function taken (pre ++ rest) accumulator).2
  = (feed function (taken ++ outs) rest accumulator).2
  ∧ invoked (feed function taken (pre ++ rest) accumulator).1
    = pre ++ invoked (feed function (taken ++ outs) rest accumulator).1.
Proof.
  intros taken Hok. revert taken.
  induction Hok as [|item o pre outs Ho _ IH]; intros taken Hasks.
  - by rewrite app_nil_r.
  - cbn [app feed].
    pose proof (Hasks 0%nat ltac:(simpl; lia)) as H0. cbn [take] in H0.
    rewrite app_nil_r in H0. rewrite H0.
    destruct (function item) as [ws r]. simpl in Ho. subst r.
    destruct (IH (taken ++ [o])) as [IHr IHe].
    { intros k Hk. rewrite <- app_assoc. apply (Hasks (S k)). simpl. lia. }
    rewrite <- app_assoc in IHr, IHe. cbn [app] in IHr, IHe.
    destruct (feed function (taken ++ [o]) (pre ++ rest) accumulator) as [events out].
    cbn [fst snd] in *. split; [done|].
    rewrite (invoked_here item ws events). by rewrite IHe.
Qed.

Lemma feed_ends (function : Item → worked V) (accumulator : PyObj V)
    (taken : list (PyObj V)) (rest : list Item) :
  rest = [] ∨ accumulate_stops taken accumulator = true →
  feed function taken rest accumulator = ([], accumulate taken accumulator).
Proof.
  intros [->|Hstop].
  - simpl. by destruct (accumulate_stops _ _).
  - destruct rest; simpl; by rewrite Hstop.
Qed.

Lemma feed_raises (function : Item → worked V) (accumulator : PyObj V)
    (taken : list (PyObj V)) (item : Item) (post : list Item) (e : exn) :
  accumulate_stops taken accumulator = false →
  (function item).2 = Raise e →
  (feed function taken (item :: post) accumulator).2 = Raise e
  ∧ invoked (feed function taken (item :: post) accumulator).1 = [item].
Proof.
  intros Hasks He. cbn [feed]. rewrite Hasks.
  destruct (function item) as [ws r]. simpl in He. subst r. cbn [fst snd].
  split; [done|].
  rewrite <- (app_nil_r (map Warned ws)). by rewrite invoked_here.
Qed.
End ExecutorsMore.

(** X17. The iterative executor hands [accumulate] the outputs of the
    function lazily: the function is called on the next item, in order, each
    time [accumulate] asks for one more.  Let the calls on the items [pre]
    return [outs], [accumulate] having asked for each of them.  If no item
    is left, or [accumulate] asks for no more, the result is [accumulate] of
    [outs] into the given accumulator and the items called are [pre], once
    each and in order.  If [accumulate] asks for one more and the call on
    the next item raises an exception (other than [StopIteration]), that
    exception is the result and no later item is called. *)
Theorem iterative_executor_runs {V : Type} `{External V} {Item : Type}
    (function : Item → worked V) (accumulator : PyObj V) (kwargs : exe_kwargs)
    (pre : list Item) (outs : list (PyObj V)) (rest : list Item) :
  pre ++ rest ≠ [] →
  Forall2 (λ item o, (function item).2 = Ok o) pre outs →
  (∀ k, (k < length outs)%nat → accumulate_stops (take k outs) accumulator = false) →
  (rest = [] ∨ accumulate_stops outs accumulator = true →
   (iterative_executor (pre ++ rest) function accumulator kwargs).2
   = Some (accumulate outs accumulator)
   ∧ invoked (iterative_executor (pre ++ rest) function accumulator kwargs).1 = pre)
  ∧ (∀ item post e,
       rest = item :: post →
       accumulate_stops outs accumulator = false →
       (function item).2 = Raise e →
       (iterative_executor (pre ++ rest) function accumulator kwargs).2
       = Some (Raise e)
       ∧ invoked (iterative_executor (pre ++ rest) function accumulator kwargs).1
         = pre ++ [item]).
Proof.
  intros Hne Hok Hasks. unfold iterative_executor.
  assert ((length (pre ++ rest) =? 0)%nat = false) as ->.
  { apply Nat.eqb_neq. by destruct (pre ++ rest). }
  destruct (feed_takes function accumulator pre outs rest [] Hok Hasks) as [Hr He].
  cbn [app] in Hr, He.
  destruct (feed function [] (pre ++ rest) accumulator) as [events out].
  cbn [fst snd] in *. split.
  - intros Hend. rewrite (feed_ends function accumulator outs rest Hend) in Hr, He.
    rewrite Hr, He. split; [done|]. apply app_nil_r.
  - intros item post e -> Hmore Hraise.
    destruct (feed_raises function accumulator outs item post e Hmore Hraise)
      as [Hr' He'].
    rewrite Hr' in Hr. rewrite He' in He. by rewrite Hr, He.
Qed.

(** X17 on a table of two results, and on one whose second entry raises. *)
Lemma iterative_executor_runs_witness :
  ((iterative_executor ([0%nat; 1%nat] ++ [])
      (table_function [Ok (PyAcc false); Ok (PyAcc true)]) PyNone
      (ExeKwargs None None)).2
   = Some (accumulate [PyAcc false; PyAcc true] PyNone)
   ∧ invoked (iterative_executor ([0%nat; 1%nat] ++ [])
                (table_function [Ok (PyAcc false); Ok (PyAcc true)]) PyNone
                (ExeKwargs None None)).1 = [0%nat; 1%nat])
  ∧ ((iterative_executor ([0%nat] ++ [1%nat; 2%nat])
        (table_function [Ok (PyAcc false); Raise (Exn ValueError "bad"); Ok PyNone])
        PyNone (ExeKwargs None None)).2
     = Some (Raise (Exn ValueError "bad"))
     ∧ invoked (iterative_executor ([0%nat] ++ [1%nat; 2%nat])
                  (table_function [Ok (PyAcc false); Raise (Exn ValueError "bad");
                                   Ok PyNone])
                  PyNone (ExeKwargs None None)).1 = [0%nat] ++ [1%nat]).
Proof.
  split.
  - apply (proj1 (@iterative_executor_runs bool toy_external nat
                    (table_function [Ok (PyAcc false); Ok (PyAcc true)]) PyNone
                    (ExeKwargs None None) [0%nat; 1%nat] [PyAcc false; PyAcc true] []
                    ltac:(discriminate) ltac:(repeat constructor)
                    ltac:(reflexivity))).
    by left.
  - apply (proj2 (@iterative_executor_runs bool toy_external nat
                    (table_function [Ok (PyAcc false); Raise (Exn ValueError "bad");
                                     Ok PyNone]) PyNone
                    (ExeKwargs None None) [0%nat] [PyAcc false] [1%nat; 2%nat]
                    ltac:(discriminate) ltac:(repeat constructor)
                    ltac:(reflexivity))
             1%nat [2%nat] (Exn ValueError "bad")); reflexivity.
Defined.

Section FuturesMore.
Context {V : Type} `{External V} {Item : Type}.

Lemma submitted_as_table (pool : pool_env) (function : Item → result (PyObj V))
    (items : list Item) (payloads : list (PyObj V)) :
  Forall2 (λ item p, function item = Ok p) items payloads →
  imap (submit pool function) items
  = (λ i, (i, Future (FutResult (default PyNone (payloads !! i))) (pool_running pool i)))
      <$> seq 0 (length items).
Proof.
  intros Hok. apply list_eq. intros i.
  rewrite list_lookup_imap, list_lookup_fmap.
  destruct (decide (i < length items)%nat) as [Hlt|Hge].
  - rewrite lookup_seq_lt by done. simpl.
    destruct (lookup_lt_is_Some_2 items i Hlt) as [item Hitem]. rewrite Hitem. simpl.
    destruct (Forall2_lookup_l _ _ _ _ _ Hok Hitem) as (p & Hp & Hfp).
    unfold submit. by rewrite Hfp, Hp.
  - rewrite lookup_seq_ge by lia. rewrite lookup_ge_None_2 by lia. done.
Qed.

Lemma omap_lookup_all (outs : list (PyObj V)) (order : list nat) :
  (∀ i, i ∈ order → (i < length outs)%nat) →
  omap (λ i, outs !! i) order = (λ i, default PyNone (outs !! i)) <$> order.
Proof.
  induction order as [|i order IH]; intros Hlt; [done|]. simpl.
  destruct (lookup_lt_is_Some_2 outs i) as [o Ho]; [apply Hlt; by left|].
  rewrite Ho. simpl. f_equal. apply IH. intros j Hj. apply Hlt. by right.
Qed.
End FuturesMore.

(** X18. When no call raises and the operations complete one after the
    other in some order, the futures executor returns [accumulate] of the
    outputs, in the order of completion, into the given accumulator, whatever
    the tail timeout; compressing the outputs in flight (at the default
    level, at a given one, or not at all) changes nothing, given that
    [lz4.frame.decompress] undoes [lz4.frame.compress] and that [pickle]
    gives each output back. *)
Theorem futures_executor_transparent {V : Type} `{External V} {Item : Type}
    (pool : pool_env) (items : list Item) (function : Item → worked V)
    (accumulator : PyObj V) (kwargs : exe_kwargs) (outs : list (PyObj V))
    (order : list nat) :
  (∀ b level, lz4f_decompress (lz4f_compress b level) = Ok b) →
  items ≠ [] →
  Forall2 (λ item o, (function item).2 = Ok o ∧ pickle_loads (pickle_dumps o) = Ok o)
          items outs →
  order ≡ₚ seq 0 (length items) →
  pool_script pool = map (λ i, Completed [i]) order →
  (futures_executor pool items function accumulator kwargs).2
  = Some (accumulate (omap (λ i, outs !! i) order) accumulator).
Proof.
  intros Hlz4 Hne Hok Hperm Hscript. unfold futures_executor.
  destruct items as [|item0 items0] eqn:Hitems; [done|]. rewrite <- Hitems in *.
  assert ((length items =? 0)%nat = false) as -> by (by rewrite Hitems).
  set (clevel := default (Some 1) (kw_compression kwargs)).
  set (pl := λ o : PyObj V, match clevel with Some l => _compress o l | None => o end).
  set (function' := match clevel with
                    | Some l => _compression_wrapper l (λ item, (function item).2)
                    | None => λ item, (function item).2
                    end).
  assert (length outs = length items) as Hlen
    by (symmetry; by eapply Forall2_length).
  assert (Forall2 (λ item p, function' item = Ok p) items (pl <$> outs)) as Hpay.
  { apply Forall2_fmap_r. eapply Forall2_impl; [exact Hok|].
    intros item o [Ho _]. unfold function', pl, _compression_wrapper.
    destruct clevel; by rewrite Ho. }
  rewrite (submitted_as_table pool function' items (pl <$> outs) Hpay).
  set (g := λ i, (i, Future (FutResult (default PyNone ((pl <$> outs) !! i)))
                            (pool_running pool i))).
  set (others := (λ i, (i, default PyNone ((pl <$> outs) !! i), pool_running pool i))
                   <$> order).
  assert (NoDup order) as Hnd by (rewrite Hperm; apply NoDup_seq).
  assert ((list_to_map (g <$> seq 0 (length items)) : gmap nat (future V))
          = list_to_map (map prompt_future others)) as ->.
  { transitivity (list_to_map (g <$> order) : gmap nat (future V)).
    - apply list_to_map_proper.
      + replace ((g <$> seq 0 (length items)).*1) with (seq 0 (length items));
          [apply NoDup_seq|].
        generalize (seq 0 (length items)). intros l.
        induction l as [|a l IHl]; simpl; [done|]. by f_equal.
      + by rewrite Hperm.
    - f_equal. unfold others. rewrite map_map. done. }
  assert (map (λ x : nat * PyObj V * bool, x.1.1) others = order) as Hids.
  { unfold others. change (map ?f (?h <$> order)) with (map f (map h order)).
    rewrite map_map. simpl. apply map_id. }
  assert (pool_script pool = map (λ x : nat * PyObj V * bool, Completed [x.1.1]) others)
    as ->.
  { rewrite Hscript. unfold others.
    change (map ?f (?h <$> order)) with (map f (map h order)).
    by rewrite map_map. }
  rewrite futures_handler_prompt_all by (by rewrite Hids).
  cbn [h_status h_events snd].
  assert (map (λ x : nat * PyObj V * bool, Yield x.1.2) others
          = map Yield ((λ i, default PyNone ((pl <$> outs) !! i)) <$> order)) as ->.
  { unfold others. change (?h <$> order) with (map h order). by rewrite !map_map. }
  rewrite yielded_yields.
  assert (∀ i, i ∈ order → (i < length outs)%nat) as Hin.
  { intros i Hi. rewrite Hperm in Hi. apply elem_of_seq in Hi. lia. }
  rewrite (omap_lookup_all outs order Hin).
  assert (match clevel with
          | Some _ => map_result _decompress
                        ((λ i, default PyNone ((pl <$> outs) !! i)) <$> order)
          | None => Ok ((λ i, default PyNone ((pl <$> outs) !! i)) <$> order)
          end = Ok ((λ i, default PyNone (outs !! i)) <$> order)) as ->; [|done].
  unfold pl. destruct clevel as [l|].
  - apply map_result_Forall2. apply Forall2_fmap.
    apply Forall_Forall2_diag, Forall_forall. intros i Hi.
    destruct (lookup_lt_is_Some_2 outs i (Hin i Hi)) as [o Ho].
    rewrite list_lookup_fmap, Ho. simpl.
    destruct (lookup_lt_is_Some_2 items i) as [item Hitem]; [rewrite <- Hlen; auto|].
    destruct (Forall2_lookup_l _ _ _ _ _ Hok Hitem) as (o' & Ho' & _ & Hpick).
    assert (o' = o) as -> by congruence.
    unfold _decompress, _compress. by rewrite Hlz4.
  - f_equal. apply list_fmap_ext. intros k i _.
    rewrite list_lookup_fmap. by destruct (outs !! i).
Qed.

(** X18 on three items completing in the order 2, 0, 1, compressed at the
    default level. *)
Lemma futures_executor_transparent_witness :
  (futures_executor
     (PoolEnv (λ _, false) (map (λ i, Completed [i]) [2%nat; 0%nat; 1%nat]))
     [0%nat; 1%nat; 2%nat]
     (table_function [Ok (PyAcc false); Ok (PyAcc true); Ok (PyAcc false)])
     PyNone (ExeKwargs None (Some (Some 30)))).2
  = Some (accumulate
            (omap (λ i, [PyAcc false; PyAcc true; PyAcc false] !! i)
                  [2%nat; 0%nat; 1%nat])
            PyNone).
Proof.
  apply (@futures_executor_transparent bool toy_external nat
           (PoolEnv (λ _, false) (map (λ i, Completed [i]) [2%nat; 0%nat; 1%nat]))
           [0%nat; 1%nat; 2%nat]
           (table_function [Ok (PyAcc false); Ok (PyAcc true); Ok (PyAcc false)])
           PyNone (ExeKwargs None (Some (Some 30)))
           [PyAcc false; PyAcc true; PyAcc false] [2%nat; 0%nat; 1%nat]).
  - intros b level. reflexivity.
  - discriminate.
  - repeat constructor.
  - apply (bool_decide_unpack _). vm_compute. reflexivity.
  - reflexivity.
Defined.

(** * Further properties: the retrying work function and the metadata probe *)

Section WorkMore.
Context {V : Type} {W : World V}.
Variables (item : WorkItem.t) (savemetrics : bool) (schema : schema_t).
Variables (skipbadfiles : bool) (retries : nat) (use_dataframes : bool).

Lemma try_body_process_raises (rc : nat) (out : option (PyObj V)) (e : exn) :
  world_process item rc = ProcessRaises e →
  uuid_accepted item = true →
  schema ≠ SchemaOther →
  try_body item savemetrics schema use_dataframes rc out
  = TryRaise (reraised e (file_trace item)) out.
Proof.
  intros Hw Hu Hs. unfold try_body, uuid_accepted in *. rewrite Hw. cbv zeta.
  rewrite Hu. simpl. by destruct schema.
Qed.

Lemma try_body_returns (rc : nat) (out : option (PyObj V)) (o m : PyObj V) :
  world_process item rc = ProcessReturns o m →
  o ≠ PyNone →
  uuid_accepted item = true →
  schema ≠ SchemaOther →
  try_body item savemetrics schema use_dataframes rc out
  = TryReturn (if use_dataframes then o
               else if savemetrics then PyDict [("out", o); ("metrics", m)]
               else PyDict [("out", o)]).
Proof.
  intros Hw Ho Hu Hs. unfold try_body, uuid_accepted in *. rewrite Hw. cbv zeta.
  rewrite Hu. simpl.
  destruct schema, o; try done; by destruct use_dataframes, savemetrics.
Qed.

Lemma try_body_open_fails (rc : nat) (out : option (PyObj V)) (e : exn) :
  world_process item rc = OpenFails e →
  try_body item savemetrics schema use_dataframes rc out = TryRaise e out.
Proof. intros Hw. unfold try_body. by rewrite Hw. Qed.


Lemma work_loop_again (b rc : nat) (out out' : option (PyObj V)) (e : exn) :
  try_body item savemetrics schema use_dataframes rc out = TryRaise e out' →
  is_os_error e = false →
  retries ≠ rc →
  work_loop item savemetrics schema skipbadfiles retries use_dataframes (S b) rc out
  = (AttemptWillRetry (rc + 1) (retries + 1)
       :: (work_loop item savemetrics schema skipbadfiles retries use_dataframes
                     b (S rc) out').1,
     (work_loop item savemetrics schema skipbadfiles retries use_dataframes
                b (S rc) out').2).
Proof.
  intros Ht He Hr. cbn [work_loop]. rewrite Ht, He.
  rewrite (proj2 (Nat.eqb_neq _ _)) by done.
  by destruct (work_loop _ _ _ _ _ _ _ _ _).
Qed.

Lemma work_loop_skips (b rc : nat) (out out' : option (PyObj V)) (e : exn) :
  try_body item savemetrics schema use_dataframes rc out = TryRaise e out' →
  is_os_error e = true →
  skipbadfiles = true →
  contains "Auth failed" (exn_msg e) = false →
  use_dataframes = true →
  work_loop item savemetrics schema skipbadfiles retries use_dataframes (S b) rc out
  = (bad_file_warning (WorkItem.filename item) retries rc
       :: (work_loop item savemetrics schema skipbadfiles retries use_dataframes
                     b (S rc) out').1,
     (work_loop item savemetrics schema skipbadfiles retries use_dataframes
                b (S rc) out').2).
Proof.
  intros Ht He Hs Ha Hd. cbn [work_loop]. rewrite Ht, He, Hs, Ha, Hd. simpl.
  by destruct (work_loop _ _ _ _ _ _ _ _ _).
Qed.

Lemma reraised_os_error (e : exn) (trace : string) :
  is_os_error (reraised e trace) = is_os_error e.
Proof. unfold reraised, is_os_error. by destruct (exn_kind_of e). Qed.


Lemma work_loop_recovers (k : nat) :
  ∀ (rc : nat) (out : option (PyObj V)) (o m : PyObj V),
  (rc + k ≤ retries)%nat →
  uuid_accepted item = true →
  schema ≠ SchemaOther →
  (∀ j, (j < k)%nat →
        ∃ e, world_process item (rc + j) = ProcessRaises e ∧ is_os_error e = false) →
  world_process item (rc + k) = ProcessReturns o m →
  o ≠ PyNone →
  work_loop item savemetrics schema skipbadfiles retries use_dataframes
            (S (retries - rc)) rc out
  = (map (λ j, AttemptWillRetry (rc + j + 1) (retries + 1)) (seq 0 k),
     Ok (if use_dataframes then o
         else if savemetrics then PyDict [("out", o); ("metrics", m)]
         else PyDict [("out", o)])).
Proof.
  induction k as [|k IH]; intros rc out o m Hle Hu Hs Hfail Hret Ho.
  - rewrite Nat.add_0_r in Hret. cbn [work_loop].
    by rewrite (try_body_returns _ _ o m).
  - destruct (Hfail 0%nat) as (e & He & Hos); [lia|]. rewrite Nat.add_0_r in He.
    rewrite (work_loop_again _ _ _ out (reraised e (file_trace item)));
      [|by apply try_body_process_raises|by rewrite reraised_os_error|lia].
    replace (retries - rc)%nat with (S (retries - S rc)) by lia.
    rewrite (IH (S rc) out o m); [| lia | done | done | | | done].
    + simpl. f_equal. f_equal; [by rewrite Nat.add_0_r|].
      rewrite <- seq_shift, map_map. apply map_ext. intros j. f_equal. lia.
    + intros j Hj. destruct (Hfail (S j)) as (e' & He' & Hos'); [lia|].
      exists e'. split; [|done]. by replace (S rc + j)%nat with (rc + S j)%nat by lia.
    + by replace (S rc + k)%nat with (rc + S k)%nat by lia.
Qed.



Lemma work_loop_skips_then (k : nat) (e : nat → exn) :
  ∀ (rc : nat) (out : option (PyObj V)) (o m : PyObj V),
  use_dataframes = true →
  skipbadfiles = true →
  (rc + k ≤ retries)%nat →
  uuid_accepted item = true →
  schema ≠ SchemaOther →
  (∀ j, (j < k)%nat →
        world_process item (rc + j) = OpenFails (e (rc + j)%nat)
        ∧ is_os_error (e (rc + j)%nat) = true
        ∧ contains "Auth failed" (exn_msg (e (rc + j)%nat)) = false) →
  world_process item (rc + k) = ProcessReturns o m →
  o ≠ PyNone →
  work_loop item savemetrics schema skipbadfiles retries use_dataframes
            (S (retries - rc)) rc out
  = (map (λ j, bad_file_warning (WorkItem.filename item) retries (rc + j)) (seq 0 k),
     Ok o).
Proof.
  induction k as [|k IH]; intros rc out o m Hd Hsk Hle Hu Hs Hfail Hret Ho.
  - rewrite Nat.add_0_r in Hret. cbn [work_loop].
    rewrite (try_body_returns _ _ o m) by done. by rewrite Hd.
  - destruct (Hfail 0%nat) as (He & Hos & Hauth); [lia|]. rewrite Nat.add_0_r in *.
    rewrite (work_loop_skips _ _ _ out (e rc));
      [|by apply try_body_open_fails|done..].
    replace (retries - rc)%nat with (S (retries - S rc)) by lia.
    rewrite (IH (S rc) out o m); [| done | done | lia | done | done | | | done].
    + simpl. f_equal. f_equal; [by rewrite Nat.add_0_r|].
      rewrite <- seq_shift, map_map. apply map_ext. intros j. f_equal. lia.
    + intros j Hj. replace (S rc + j)%nat with (rc + S j)%nat by lia.
      apply Hfail. lia.
    + by replace (S rc + k)%nat with (rc + S k)%nat by lia.
Qed.

Lemma work_loop_skips_all (e : nat → exn) (b : nat) :
  ∀ (rc : nat) (out : option (PyObj V)),
  use_dataframes = true →
  skipbadfiles = true →
  (rc + b = S retries)%nat →
  (∀ j, (j ≤ retries)%nat →
        world_process item j = OpenFails (e j)
        ∧ is_os_error (e j) = true
        ∧ contains "Auth failed" (exn_msg (e j)) = false) →
  work_loop item savemetrics schema skipbadfiles retries use_dataframes b rc out
  = (map (λ j, bad_file_warning (WorkItem.filename item) retries (rc + j)) (seq 0 b),
     Ok PyNone).
Proof.
  induction b as [|b IH]; intros rc out Hd Hsk Hrc Hfail; [done|].
  destruct (Hfail rc) as (He & Hos & Hauth); [lia|].
  rewrite (work_loop_skips _ _ _ out (e rc));
    [|by apply try_body_open_fails|done..].
  rewrite (IH (S rc) out) by (done || lia).
  simpl. f_equal. f_equal; [by rewrite Nat.add_0_r|].
  rewrite <- seq_shift, map_map. apply map_ext. intros j. f_equal. lia.
Qed.
End WorkMore.

Lemma work_loop_agree {V : Type} (W1 W2 : World V) (item : WorkItem.t)
    (savemetrics : bool) (schema : schema_t) (skipbadfiles : bool) (retries : nat)
    (use_dataframes : bool) (b : nat) :
  ∀ (rc : nat) (out : option (PyObj V)),
  (∀ k, (rc ≤ k < rc + b)%nat →
        @world_process V W1 item k = @world_process V W2 item k) →
  @work_loop V W1 item savemetrics schema skipbadfiles retries use_dataframes b rc out
  = @work_loop V W2 item savemetrics schema skipbadfiles retries use_dataframes b rc out.
Proof.
  induction b as [|b IH]; intros rc out Hsame; [done|].
  cbn [work_loop].
  assert (@try_body V W1 item savemetrics schema use_dataframes rc out
          = @try_body V W2 item savemetrics schema use_dataframes rc out) as ->.
  { unfold try_body. rewrite (Hsame rc) by lia. done. }
  destruct (try_body _ _ _ _ _ _) as [v|e out']; [done|].
  rewrite (IH (S rc) out'); [done|]. intros k Hk. apply Hsame. lia.
Qed.

(** ** The work function's retries *)

(** X19. When processing raises an exception that is not an [OSError] on
    each of the first [k] attempts, [k] being at most [retries], and goes
    through on the next, [_work_function] warns once per failed attempt,
    numbering them from 1 out of [retries + 1], and returns that attempt's
    output: bare with [use_dataframes], with the metrics with [savemetrics],
    and otherwise as the one-key dict. *)
Theorem work_function_recovers {V : Type} {W : World V} (item : WorkItem.t)
    (savemetrics : bool) (schema : schema_t) (skipbadfiles : bool) (retries : nat)
    (use_dataframes : bool) (k : nat) (o m : PyObj V) :
  (k ≤ retries)%nat →
  uuid_accepted item = true →
  schema ≠ SchemaOther →
  (∀ j, (j < k)%nat →
        ∃ e, world_process item j = ProcessRaises e ∧ is_os_error e = false) →
  world_process item k = ProcessReturns o m →
  o ≠ PyNone →
  _work_function item savemetrics schema skipbadfiles retries use_dataframes
  = (map (λ j, AttemptWillRetry (j + 1) (retries + 1)) (seq 0 k),
     Ok (if use_dataframes then o
         else if savemetrics then PyDict [("out", o); ("metrics", m)]
         else PyDict [("out", o)])).
Proof.
  intros Hk Hu Hs Hfail Hret Ho. unfold _work_function.
  replace (S retries) with (S (retries - 0)) by (f_equal; lia).
  by apply (work_loop_recovers item savemetrics schema skipbadfiles retries
              use_dataframes k 0%nat None o m).
Qed.

(** X19 on an item whose processing fails twice and then goes through. *)
Lemma work_function_recovers_witness :
  @_work_function bool shaky_world demo_item false SchemaBase false 3 false
  = ([AttemptWillRetry 1 4; AttemptWillRetry 2 4], Ok (PyDict [("out", PyAcc true)])).
Proof.
  apply (@work_function_recovers bool shaky_world demo_item false SchemaBase false
           3 false 2 (PyAcc true) (PyDict [])); try done; try lia.
  intros j Hj. destruct j as [|[|j]]; [eexists; split; reflexivity..|lia].
Defined.





(** X22. With [use_dataframes] and [skipbadfiles], a file that cannot be
    opened for an [OSError] other than an authentication failure on each of
    the first [k] attempts, [k] being at most [retries], and is processed on
    the next, costs one bad-file warning per failed attempt and gives that
    attempt's output. *)
Theorem work_function_dataframes_retry {V : Type} {W : World V} (item : WorkItem.t)
    (savemetrics : bool) (schema : schema_t) (retries : nat) (k : nat)
    (e : nat → exn) (o m : PyObj V) :
  (k ≤ retries)%nat →
  uuid_accepted item = true →
  schema ≠ SchemaOther →
  (∀ j, (j < k)%nat →
        world_process item j = OpenFails (e j)
        ∧ is_os_error (e j) = true
        ∧ contains "Auth failed" (exn_msg (e j)) = false) →
  world_process item k = ProcessReturns o m →
  o ≠ PyNone →
  _work_function item savemetrics schema true retries true
  = (map (λ j, bad_file_warning (WorkItem.filename item) retries j) (seq 0 k), Ok o).
Proof.
  intros Hk Hu Hs Hfail Hret Ho. unfold _work_function.
  replace (S retries) with (S (retries - 0)) by (f_equal; lia).
  by apply (work_loop_skips_then item savemetrics schema true retries true k e
              0%nat None o m).
Qed.

(** X22 on a file that cannot be opened at the first attempt. *)
Lemma work_function_dataframes_retry_witness :
  @_work_function bool flaky_world demo_item false SchemaBase true 2 true
  = ([BadFileSource "a.root" (Some (1, 3)%nat) true], Ok (PyAcc true)).
Proof.
  apply (@work_function_dataframes_retry bool flaky_world demo_item false SchemaBase
           2 1 (λ _, Exn OSError "[Errno 2] No such file or directory")
           (PyAcc true) (PyDict [])); try done; try lia.
  intros j Hj. destruct j as [|j]; [done|lia].
Defined.

(** X23. With [use_dataframes] and [skipbadfiles], a file that cannot be
    opened for an [OSError] other than an authentication failure on any of
    the [retries + 1] attempts costs [retries + 1] bad-file warnings, and
    [_work_function] runs off the end of its loop and returns [None]. *)
Theorem work_function_dataframes_exhausted {V : Type} {W : World V}
    (item : WorkItem.t) (savemetrics : bool) (schema : schema_t) (retries : nat)
    (e : nat → exn) :
  (∀ j, (j ≤ retries)%nat →
        world_process item j = OpenFails (e j)
        ∧ is_os_error (e j) = true
        ∧ contains "Auth failed" (exn_msg (e j)) = false) →
  _work_function item savemetrics schema true retries true
  = (map (λ j, bad_file_warning (WorkItem.filename item) retries j)
         (seq 0 (S retries)),
     Ok PyNone).
Proof.
  intros Hfail. unfold _work_function.
  by apply (work_loop_skips_all item savemetrics schema true retries true e
              (S retries) 0%nat None).
Qed.

(** X23 on a file that can never be opened. *)
Lemma work_function_dataframes_exhausted_witness :
  @_work_function bool closed_world demo_item false SchemaBase true 1 true
  = ([BadFileSource "a.root" (Some (1, 2)%nat) false;
      BadFileSource "a.root" (Some (2, 2)%nat) false], Ok PyNone).
Proof.
  apply (@work_function_dataframes_exhausted bool closed_world demo_item false
           SchemaBase 1 (λ _, Exn OSError "[Errno 2] No such file or directory")).
  done.
Defined.

(** X24. [_work_function] makes at most [retries + 1] attempts: two worlds
    that treat the item alike on attempts [0] to [retries] give the same
    warnings and the same result, whatever they would do later. *)
Theorem work_function_bounded_attempts {V : Type} (W1 W2 : World V)
    (item : WorkItem.t) (savemetrics : bool) (schema : schema_t)
    (skipbadfiles : bool) (retries : nat) (use_dataframes : bool) :
  (∀ k, (k ≤ retries)%nat →
        @world_process V W1 item k = @world_process V W2 item k) →
  @_work_function V W1 item savemetrics schema skipbadfiles retries use_dataframes
  = @_work_function V W2 item savemetrics schema skipbadfiles retries use_dataframes.
Proof.
  intros Hsame. unfold _work_function. apply work_loop_agree.
  intros k Hk. apply Hsame. lia.
Qed.

(** X24 on two worlds that part ways at the third attempt. *)
Lemma work_function_bounded_attempts_witness :
  @_work_function bool shaky_world demo_item false SchemaBase false 1 false
  = @_work_function bool broken_world demo_item false SchemaBase false 1 false.
Proof.
  apply (work_function_bounded_attempts shaky_world broken_world).
  intros k Hk. destruct k as [|[|k]]; [done..|lia].
Defined.

Section MetadataMore.
Context {V : Type} {W : World V}.
Variables (item : FileMeta.t) (skipbadfiles : bool) (retries : nat).
Variables (align_clusters : bool) (e : nat → exn).

Lemma metadata_loop_again (b rc : nat) (out : PyObj V) :
  world_probe item rc = ProbeFails (e rc) →
  retriable skipbadfiles (e rc) = true →
  (is_os_error (e rc) = false → retries ≠ rc) →
  metadata_loop item skipbadfiles retries align_clusters (S b) rc out
  = (failure_warning (FileMeta.filename item) retries rc (e rc)
       :: (metadata_loop item skipbadfiles retries align_clusters b (S rc) out).1,
     (metadata_loop item skipbadfiles retries align_clusters b (S rc) out).2).
Proof.
  intros Hp Hr Hlast. cbn [metadata_loop]. rewrite Hp.
  unfold retriable, failure_warning in *. destruct (is_os_error (e rc)).
  - apply andb_true_iff in Hr as [-> Hauth]. apply negb_true_iff in Hauth.
    rewrite Hauth. simpl. by destruct (metadata_loop _ _ _ _ _ _ _).
  - rewrite (proj2 (Nat.eqb_neq _ _)) by auto.
    by destruct (metadata_loop _ _ _ _ _ _ _).
Qed.

Lemma metadata_loop_recovers (k : nat) :
  ∀ (rc : nat) (out : PyObj V) (numentries : Z) (uuid : string) (clusters : list Z),
  (rc + k ≤ retries)%nat →
  (∀ j, (j < k)%nat →
        world_probe item (rc + j) = ProbeFails (e (rc + j)%nat)
        ∧ retriable skipbadfiles (e (rc + j)%nat) = true) →
  world_probe item (rc + k) = ProbeFinds numentries uuid clusters →
  metadata_loop item skipbadfiles retries align_clusters (S (retries - rc)) rc out
  = (map (λ j, failure_warning (FileMeta.filename item) retries (rc + j)
                               (e (rc + j)%nat))
         (seq 0 k),
     Ok (PyFileSet
           [FileMeta.Build (FileMeta.dataset item) (FileMeta.filename item)
              (FileMeta.treename item)
              (Some ((if align_clusters
                      then <["clusters" := MInts clusters]>
                      else λ md : Metadata, md)
                       (<["uuid" := MBytes uuid]>
                          (<["numentries" := MInt numentries]>
                             (default ∅ (FileMeta.metadata item))))))])).
Proof.
  induction k as [|k IH]; intros rc out n u cl Hle Hfail Hfind.
  - rewrite Nat.add_0_r in Hfind. cbn [metadata_loop]. rewrite Hfind.
    destruct (FileMeta.metadata item), align_clusters; reflexivity.
  - destruct (Hfail 0%nat) as [Hp Hr]; [lia|]. rewrite Nat.add_0_r in Hp, Hr.
    rewrite metadata_loop_again; [|done|done|lia].
    replace (retries - rc)%nat with (S (retries - S rc)) by lia.
    rewrite (IH (S rc) out n u cl); [|lia| |].
    + simpl. f_equal. f_equal; [by rewrite Nat.add_0_r|].
      rewrite <- seq_shift, map_map. apply map_ext. intros j.
      by replace (rc + S j)%nat with (S (rc + j)) by lia.
    + intros j Hj. replace (S rc + j)%nat with (rc + S j)%nat by lia.
      apply Hfail. lia.
    + by replace (S rc + k)%nat with (rc + S k)%nat by lia.
Qed.

Lemma metadata_loop_gives_up (n : nat) :
  ∀ (rc : nat) (out : PyObj V),
  (rc + n = retries)%nat →
  (∀ j, (j ≤ retries)%nat →
        world_probe item j = ProbeFails (e j) ∧ retriable skipbadfiles (e j) = true) →
  metadata_loop item skipbadfiles retries align_clusters (S n) rc out
  = if is_os_error (e retries)
    then (map (λ j, failure_warning (FileMeta.filename item) retries (rc + j)
                                    (e (rc + j)%nat))
              (seq 0 (S n)),
          Ok out)
    else (map (λ j, failure_warning (FileMeta.filename item) retries (rc + j)
                                    (e (rc + j)%nat))
              (seq 0 n),
          Raise (e retries)).
Proof.
  induction n as [|n IH]; intros rc out Hrc Hfail.
  - rewrite Nat.add_0_r in Hrc. subst rc.
    destruct (Hfail retries) as [Hp Hr]; [lia|].
    destruct (is_os_error (e retries)) eqn:Hos.
    + rewrite metadata_loop_again; [|done|done|congruence].
      simpl. by rewrite Nat.add_0_r.
    + cbn [metadata_loop]. rewrite Hp, Hos. by rewrite Nat.eqb_refl.
  - destruct (Hfail rc) as [Hp Hr]; [lia|].
    rewrite metadata_loop_again; [|done|done|lia].
    rewrite (IH (S rc) out) by (done || lia).
    assert (∀ m, map (λ j, failure_warning (FileMeta.filename item) retries (rc + j)
                                           (e (rc + j)%nat)) (seq 0 (S m))
                 = failure_warning (FileMeta.filename item) retries rc (e rc)
                   :: map (λ j, failure_warning (FileMeta.filename item) retries
                                                (S rc + j) (e (S rc + j)%nat))
                          (seq 0 m)) as Hmap.
    { intros m. cbn [seq map]. rewrite Nat.add_0_r. f_equal.
      rewrite <- seq_shift, map_map. apply map_ext. intros j.
      by replace (rc + S j)%nat with (S rc + j)%nat by lia. }
    destruct (is_os_error (e retries)); cbn [fst snd]; by rewrite Hmap.
Qed.
End MetadataMore.

Lemma probed_populated (item : FileMeta.t) (align_clusters : bool) (md : Metadata)
    (numentries : Z) (uuid : string) (clusters : list Z) :
  FileMeta.populated
    (FileMeta.Build (FileMeta.dataset item) (FileMeta.filename item)
       (FileMeta.treename item)
       (Some ((if align_clusters
               then <["clusters" := MInts clusters]>
               else λ md : Metadata, md)
                (<["uuid" := MBytes uuid]> (<["numentries" := MInt numentries]> md)))))
    align_clusters = true.
Proof.
  unfold FileMeta.populated. cbn [FileMeta.metadata]. destruct align_clusters.
  - rewrite !bool_decide_eq_true_2; [done|..].
    + rewrite lookup_insert_eq. by eexists.
    + rewrite lookup_insert_ne by done. rewrite lookup_insert_eq. by eexists.
    + rewrite !lookup_insert_ne by done. rewrite lookup_insert_eq. by eexists.
  - rewrite (bool_decide_eq_true_2 (is_Some (_ !! "numentries")))
      by (rewrite lookup_insert_ne by done; rewrite lookup_insert_eq; by eexists).
    rewrite (bool_decide_eq_true_2 (is_Some (_ !! "uuid")))
      by (rewrite lookup_insert_eq; by eexists).
    done.
Qed.

Lemma get_metadata_first_probe {V : Type} {W : World V} (item : FileMeta.t)
    (skipbadfiles : bool) (retries : nat) (align_clusters : bool)
    (numentries : Z) (uuid : string) (clusters : list Z) :
  world_probe item 0 = ProbeFinds numentries uuid clusters →
  ∃ md, _get_metadata item skipbadfiles retries align_clusters
        = ([], Ok (PyFileSet [with_metadata item (Some md)]))
        ∧ FileMeta.populated (with_metadata item (Some md)) align_clusters = true.
Proof.
  intros Hfind. eexists. split.
  - unfold _get_metadata.
    replace (S retries) with (S (retries - 0)) by (f_equal; lia).
    apply (metadata_loop_recovers item skipbadfiles retries align_clusters
             (λ _, Exn OSError "") 0 0%nat (PyFileSet []) numentries uuid clusters);
      [lia| |done].
    intros j Hj. lia.
  - apply probed_populated.
Qed.

(** ** The metadata probe's retries *)

(** X25. When the first [k] probes of a file fail in a way that is tried
    again ([k] being at most [retries]) and the next one finds the tree,
    [_get_metadata] gives one warning per failed probe and returns the set
    of one descriptor: the item's own names, and its metadata with
    [numentries] and [uuid] set from the file, [clusters] set when
    alignment is asked for, and every other key as it was.  That descriptor
    is populated. *)
Theorem get_metadata_finds {V : Type} {W : World V} (item : FileMeta.t)
    (skipbadfiles : bool) (retries : nat) (align_clusters : bool) (e : nat → exn)
    (k : nat) (numentries : Z) (uuid : string) (clusters : list Z) :
  (k ≤ retries)%nat →
  (∀ j, (j < k)%nat →
        world_probe item j = ProbeFails (e j) ∧ retriable skipbadfiles (e j) = true) →
  world_probe item k = ProbeFinds numentries uuid clusters →
  ∃ md fm,
    fm = FileMeta.Build (FileMeta.dataset item) (FileMeta.filename item)
                        (FileMeta.treename item) (Some md)
    ∧ _get_metadata item skipbadfiles retries align_clusters
      = (map (λ j, failure_warning (FileMeta.filename item) retries j (e j)) (seq 0 k),
         Ok (PyFileSet [fm]))
    ∧ md !! "numentries" = Some (MInt numentries)
    ∧ md !! "uuid" = Some (MBytes uuid)
    ∧ (align_clusters = true → md !! "clusters" = Some (MInts clusters))
    ∧ (∀ key, key ≠ "numentries" → key ≠ "uuid"
              → (align_clusters = true → key ≠ "clusters")
              → md !! key = default ∅ (FileMeta.metadata item) !! key)
    ∧ FileMeta.populated fm align_clusters = true.
Proof.
  intros Hk Hfail Hfind. eexists _, _. split; [reflexivity|].
  split.
  { unfold _get_metadata. replace (S retries) with (S (retries - 0)) by (f_equal; lia).
    by apply (metadata_loop_recovers item skipbadfiles retries align_clusters e k
                0%nat (PyFileSet []) numentries uuid clusters). }
  assert (∀ md : Metadata,
            (<["uuid" := MBytes uuid]> (<["numentries" := MInt numentries]> md))
              !! "numentries" = Some (MInt numentries)) as Hn.
  { intros md. rewrite lookup_insert_ne by done. by rewrite lookup_insert_eq. }
  destruct align_clusters.
  - repeat split.
    + rewrite lookup_insert_ne by done. apply Hn.
    + rewrite lookup_insert_ne by done. by rewrite lookup_insert_eq.
    + intros _. by rewrite lookup_insert_eq.
    + intros key H1 H2 H3. specialize (H3 eq_refl).
      by rewrite !lookup_insert_ne by congruence.
    + apply (probed_populated item true _ numentries uuid clusters).
  - repeat split.
    + apply Hn.
    + by rewrite lookup_insert_eq.
    + done.
    + intros key H1 H2 _. by rewrite !lookup_insert_ne by congruence.
    + apply (probed_populated item false _ numentries uuid clusters).
Qed.

(** X25 on a file whose first probe times out. *)
Lemma get_metadata_finds_witness :
  ∃ md fm,
    fm = FileMeta.Build "ZJets" "a.root" "Events" (Some md)
    ∧ @_get_metadata bool closed_world (bare_file "ZJets" "a.root") false 1 true
      = ([AttemptWillRetry 1 2], Ok (PyFileSet [fm]))
    ∧ md !! "numentries" = Some (MInt 10)
    ∧ md !! "uuid" = Some (MBytes "0123456789abcdef")
    ∧ (true = true → md !! "clusters" = Some (MInts [0; 10]))
    ∧ (∀ key, key ≠ "numentries" → key ≠ "uuid" → (true = true → key ≠ "clusters")
              → md !! key = ({[ "year" := MStr "2018" ]} : Metadata) !! key)
    ∧ FileMeta.populated fm true = true.
Proof.
  apply (@get_metadata_finds bool closed_world (bare_file "ZJets" "a.root") false 1
           true (λ _, Exn OtherException "timed out") 1 10 "0123456789abcdef" [0; 10]);
    [lia| |done].
  intros j Hj. destruct j as [|j]; [done|lia].
Defined.

(** X26. When every one of the [retries + 1] probes of a file fails in a
    way that is tried again, the outcome turns on the last failure: after an
    [OSError] (bad files being skipped) [_get_metadata] has warned
    [retries + 1] times and returns the empty set; after any other
    exception it has warned [retries] times and raises that exception. *)
Theorem get_metadata_gives_up {V : Type} {W : World V} (item : FileMeta.t)
    (skipbadfiles : bool) (retries : nat) (align_clusters : bool) (e : nat → exn) :
  (∀ j, (j ≤ retries)%nat →
        world_probe item j = ProbeFails (e j) ∧ retriable skipbadfiles (e j) = true) →
  _get_metadata item skipbadfiles retries align_clusters
  = if is_os_error (e retries)
    then (map (λ j, failure_warning (FileMeta.filename item) retries j (e j))
              (seq 0 (S retries)),
          Ok (PyFileSet []))
    else (map (λ j, failure_warning (FileMeta.filename item) retries j (e j))
              (seq 0 retries),
          Raise (e retries)).
Proof.
  intros Hfail. unfold _get_metadata.
  by apply (metadata_loop_gives_up item skipbadfiles retries align_clusters e
              retries 0%nat (PyFileSet [])).
Qed.

(** X26 on a file that can never be opened. *)
Lemma get_metadata_gives_up_witness :
  @_get_metadata bool broken_world (bare_file "ZJets" "a.root") true 1 false
  = ([BadFileSource "a.root" (Some (1, 2)%nat) false;
      BadFileSource "a.root" (Some (2, 2)%nat) false], Ok (PyFileSet [])).
Proof.
  apply (@get_metadata_gives_up bool broken_world (bare_file "ZJets" "a.root") true 1
           false (λ _, Exn OSError "[Errno 2] No such file or directory")).
  done.
Defined.

(** * Further properties: the metadata pass under a cap *)

Section CappedPass.
Context {V : Type} `{External V} `{World V}.

Lemma preprocess_each_skipping (fileset : list FileMeta.t)
    (metadata_fetcher : FileMeta.t → worked V) (metadata_cache : cache_t)
    (align_clusters : bool) :
  preprocess_each fileset metadata_fetcher metadata_cache align_clusters true
  = ([], metadata_cache, Ok fileset).
Proof.
  induction fileset as [|fm fileset IH]; simpl; [done|].
  by rewrite orb_true_r, IH.
Qed.

Lemma preprocess_each_fetches (retries : nat) (align_clusters : bool)
    (fileset : list FileMeta.t) :
  ∀ metadata_cache : cache_t,
  Forall (λ fm, FileMeta.populated fm align_clusters = true
                ∨ ∃ numentries uuid clusters,
                    world_probe fm 0 = ProbeFinds numentries uuid clusters) fileset →
  ∃ events cache fetched,
    preprocess_each fileset (λ item, _get_metadata item false retries align_clusters)
                    metadata_cache align_clusters false
    = (events, cache, Ok fetched)
    ∧ Forall (λ fm, FileMeta.populated fm align_clusters = true) fetched
    ∧ Forall2 (λ fm fm', FileMeta.dataset fm' = FileMeta.dataset fm
                         ∧ cache_key fm' = cache_key fm
                         ∧ (FileMeta.populated fm align_clusters = true → fm' = fm))
              fileset fetched
    ∧ invoked events
      = List.filter (λ fm, negb (FileMeta.populated fm align_clusters)) fileset
    ∧ dom cache
      = dom metadata_cache
        ∪ list_to_set
            (map cache_key
                 (List.filter (λ fm, negb (FileMeta.populated fm align_clusters))
                              fileset)).
Proof.
  induction fileset as [|fm fileset IH]; intros cache Hall.
  { exists [], cache, []. repeat split; [done..|]. simpl. by rewrite union_empty_r_L. }
  apply Forall_cons in Hall as [Hfm Hall]. cbn [preprocess_each List.filter].
  destruct (FileMeta.populated fm align_clusters) eqn:Hpop.
  - destruct (IH cache Hall) as (events & cache' & fetched & -> & Hp & Hn & Hi & Hd).
    exists events, cache', (fm :: fetched). simpl.
    repeat split; [by constructor|by constructor|done..].
  - destruct Hfm as [|(n & u & cl & Hfind)]; [done|]. simpl.
    destruct (get_metadata_first_probe fm false retries align_clusters n u cl Hfind)
      as (md & -> & Hpop').
    change (FileMeta.metadata (with_metadata fm (Some md))) with (Some md).
    set (fm' := with_metadata fm (Some md)).
    destruct (IH (<[cache_key fm' := Some md]> cache) Hall)
      as (events & cache' & fetched & -> & Hp & Hn & Hi & Hd).
    exists (Invoked fm :: events), cache', (fm' :: fetched). simpl.
    repeat split.
    + by constructor.
    + constructor; [|done]. repeat split. intros Hno. congruence.
    + change (Invoked fm :: events) with (Invoked fm :: map Warned [] ++ events).
      rewrite (invoked_here fm [] events). by rewrite Hi.
    + rewrite Hd, dom_insert_L. unfold fm', cache_key. simpl.
      by rewrite (assoc_L (∪)), (comm_L (∪) {[_]}).
Qed.
End CappedPass.

(** X27. Under a cap with [skipbadfiles], [_preprocess_fileset] fetches
    nothing at all: neither the executor nor the metadata fetcher is called
    and the cache and the file set come back as they were, so that a file
    whose metadata is not already known stays unpopulated and is dropped by
    [_filter_badfiles]. *)
Theorem preprocess_capped_skip_fetches_nothing {V : Type} `{External V} `{World V}
    (pre_executor : executor_t V) (pre_args : exe_kwargs)
    (fileset : list FileMeta.t) (metadata_fetcher : FileMeta.t → worked V)
    (metadata_cache : cache_t) (align_clusters : bool) (m : Z) :
  _preprocess_fileset pre_executor pre_args fileset metadata_fetcher metadata_cache
                      align_clusters (Some m) true
  = ([], metadata_cache, Some (Ok fileset))
  ∧ _filter_badfiles fileset align_clusters true
    = Ok (List.filter (λ fm, FileMeta.populated fm align_clusters) fileset).
Proof.
  split.
  - unfold _preprocess_fileset. by rewrite preprocess_each_skipping.
  - induction fileset as [|fm fileset IH]; simpl; [done|].
    rewrite IH. by destruct (FileMeta.populated fm align_clusters).
Qed.

(** X28. Under a cap without [skipbadfiles], when the first probe of every
    file that is not yet populated finds its tree, [_preprocess_fileset]
    with [_get_metadata] as the fetcher calls the fetcher once for each
    unpopulated descriptor, in file-set order and without going through the
    executor; it returns the descriptors with their names unchanged, the
    populated ones untouched and all of them populated, so that
    [_filter_badfiles] keeps every one; and the cache gains exactly the keys
    of the fetched files. *)
Theorem preprocess_capped_fetches {V : Type} `{External V} `{World V}
    (pre_executor : executor_t V) (pre_args : exe_kwargs) (retries : nat)
    (align_clusters : bool) (fileset : list FileMeta.t) (metadata_cache : cache_t)
    (m : Z) :
  Forall (λ fm, FileMeta.populated fm align_clusters = true
                ∨ ∃ numentries uuid clusters,
                    world_probe fm 0 = ProbeFinds numentries uuid clusters) fileset →
  ∃ events cache fetched,
    _preprocess_fileset pre_executor pre_args fileset
                        (λ item, _get_metadata item false retries align_clusters)
                        metadata_cache align_clusters (Some m) false
    = (events, cache, Some (Ok fetched))
    ∧ _filter_badfiles fetched align_clusters false = Ok fetched
    ∧ Forall2 (λ fm fm', FileMeta.dataset fm' = FileMeta.dataset fm
                         ∧ cache_key fm' = cache_key fm
                         ∧ (FileMeta.populated fm align_clusters = true → fm' = fm))
              fileset fetched
    ∧ invoked events
      = List.filter (λ fm, negb (FileMeta.populated fm align_clusters)) fileset
    ∧ dom cache
      = dom metadata_cache
        ∪ list_to_set
            (map cache_key
                 (List.filter (λ fm, negb (FileMeta.populated fm align_clusters))
                              fileset)).
Proof.
  intros Hall.
  destruct (preprocess_each_fetches retries align_clusters fileset metadata_cache Hall)
    as (events & cache & fetched & Heq & Hp & Hn & Hi & Hd).
  exists events, cache, fetched. unfold _preprocess_fileset. rewrite Heq.
  repeat split; try done.
  clear -Hp. induction Hp as [|fm fetched Hfm _ IH]; simpl; [done|].
  by rewrite Hfm, IH.
Qed.

(** X28 on a populated file followed by one whose tree the probe finds. *)
Lemma preprocess_capped_fetches_witness :
  ∃ events cache fetched,
    _preprocess_fileset the_iterative_executor (ExeKwargs None None)
      [demo_file "ZJets" "a.root" 10; bare_file "TTbar" "b.root"]
      (λ item, @_get_metadata bool shaky_world item false 0 false) ∅ false (Some 1) false
    = (events, cache, Some (Ok fetched))
    ∧ _filter_badfiles fetched false false = Ok fetched
    ∧ Forall2 (λ fm fm', FileMeta.dataset fm' = FileMeta.dataset fm
                         ∧ cache_key fm' = cache_key fm
                         ∧ (FileMeta.populated fm false = true → fm' = fm))
              [demo_file "ZJets" "a.root" 10; bare_file "TTbar" "b.root"] fetched
    ∧ invoked events
      = List.filter (λ fm, negb (FileMeta.populated fm false))
                    [demo_file "ZJets" "a.root" 10; bare_file "TTbar" "b.root"]
    ∧ dom cache
      = dom (∅ : cache_t)
        ∪ list_to_set
            (map cache_key
                 (List.filter (λ fm, negb (FileMeta.populated fm false))
                              [demo_file "ZJets" "a.root" 10;
                               bare_file "TTbar" "b.root"])).
Proof.
  apply (@preprocess_capped_fetches bool toy_external shaky_world
           the_iterative_executor (ExeKwargs None None) 0 false
           [demo_file "ZJets" "a.root" 10; bare_file "TTbar" "b.root"] ∅ 1).
  apply Forall_cons. split; [by left|].
  apply Forall_cons. split; [|by apply Forall_nil].
  right. by eexists _, _, _.
Defined.

(** * Further properties: the tree reduction of the dask executor *)

Lemma tree_groups_length {A} (ntree : Z) (work : list A) :
  0 < ntree →
  ∃ groups, tree_groups ntree work = Ok groups
            ∧ length groups
              = ((length work + Z.to_nat ntree - 1) / Z.to_nat ntree)%nat.
Proof.
  intros Hpos. unfold tree_groups.
  destruct (Z.eqb_spec ntree 0) as [|_]; [lia|].
  destruct (Z.ltb_spec ntree 0) as [|_]; [lia|].
  eexists. split; [reflexivity|]. by rewrite length_map, length_seq.
Qed.

Lemma tree_groups_single {A} (ntree : Z) (work : list A) :
  (1 ≤ length work)%nat →
  (length work ≤ Z.to_nat ntree)%nat →
  tree_groups ntree work = Ok [work].
Proof.
  intros Hone Hfit. unfold tree_groups.
  destruct (Z.eqb_spec ntree 0) as [|_]; [subst; simpl in Hfit; lia|].
  destruct (Z.ltb_spec ntree 0) as [|_]; [lia|].
  cbv zeta.
  assert (((length work + Z.to_nat ntree - 1) / Z.to_nat ntree)%nat = 1%nat) as ->.
  { symmetry. apply (Nat.div_unique _ _ 1%nat (length work - 1)); lia. }
  simpl. by rewrite drop_0, take_ge.
Qed.

Lemma map_result_no_failure {A V} (f : A → result (PyObj V)) (items : list A)
    (outs : list (PyObj V)) :
  map_result f items = Ok outs →
  failures (map f items) = []
  ∧ omap (λ task, match task with Ok v => Some v | Raise _ => None end) (map f items)
    = outs.
Proof.
  revert outs. induction items as [|item items IH]; simpl; intros outs Hok.
  - by injection Hok as <-.
  - destruct (f item) as [v|e] eqn:Hitem; [|done]. simpl in Hok.
    destruct (map_result f items) as [vs|e]; [|done]. simpl in Hok.
    injection Hok as <-. destruct (IH vs eq_refl) as [IHf IHo].
    unfold failures in *. split; [exact IHf|]. f_equal. exact IHo.
Qed.

Lemma map_result_length {A B} (f : A → result B) (items : list A) (outs : list B) :
  map_result f items = Ok outs → length outs = length items.
Proof.
  revert outs. induction items as [|item items IH]; simpl; intros outs Hok.
  - by injection Hok as <-.
  - destruct (f item); [|done]. simpl in Hok.
    destruct (map_result f items); [|done]. simpl in Hok.
    injection Hok as <-. simpl. f_equal. by apply IH.
Qed.

Section DaskMore.
Context {V : Type} `{External V}.
Variable clevel : option Z.

Lemma tree_loop_short (fuel : nat) (ntree : Z) (work : list (result (PyObj V))) :
  (length work ≤ 1)%nat →
  tree_loop fuel ntree clevel work = Some (Ok work).
Proof.
  intros Hlen. destruct fuel; simpl; by rewrite (proj2 (Nat.leb_le _ _)).
Qed.

Lemma tree_loop_round (fuel : nat) (ntree : Z) (work : list (result (PyObj V))) :
  (2 ≤ length work)%nat →
  tree_loop (S fuel) ntree clevel work
  = match tree_groups ntree work with
    | Raise e => Some (Raise e)
    | Ok groups => tree_loop fuel ntree clevel (map (reduce_task clevel) groups)
    end.
Proof.
  intros Hlen. cbn [tree_loop]. by rewrite (proj2 (Nat.leb_gt _ _)) by lia.
Qed.

Lemma tree_loop_ends (ntree : Z) :
  2 ≤ ntree →
  ∀ (fuel : nat) (work : list (result (PyObj V))),
  (1 ≤ length work ≤ S fuel)%nat →
  ∃ task, tree_loop fuel ntree clevel work = Some (Ok [task]).
Proof.
  intros Hn. induction fuel as [|fuel IH]; intros work Hlen.
  - destruct work as [|task [|? ?]]; simpl in Hlen; try lia. by exists task.
  - destruct (Nat.le_gt_cases (length work) 1) as [Hshort|Hlong].
    + destruct work as [|task [|? ?]]; simpl in Hlen, Hshort; try lia.
      by exists task.
    + rewrite tree_loop_round by lia.
      destruct (tree_groups_length ntree work) as (groups & -> & Hgroups); [lia|].
      apply IH. rewrite length_map, Hgroups.
      assert (2 ≤ Z.to_nat ntree)%nat as Hstep by lia.
      split.
      * apply Nat.div_str_pos. lia.
      * apply Nat.lt_succ_r. apply Nat.Div0.div_lt_upper_bound. nia.
Qed.

Lemma tree_loop_stuck :
  ∀ (fuel : nat) (work : list (result (PyObj V))),
  (2 ≤ length work)%nat →
  tree_loop fuel 1 clevel work = None.
Proof.
  induction fuel as [|fuel IH]; intros work Hlen.
  - simpl. by rewrite (proj2 (Nat.leb_gt _ _)) by lia.
  - rewrite tree_loop_round by lia.
    destruct (tree_groups_length 1 work) as (groups & -> & Hgroups); [lia|].
    apply IH. rewrite length_map, Hgroups.
    change (Z.to_nat 1) with 1%nat. rewrite Nat.div_1_r. lia.
Qed.
End DaskMore.

(** X29. With two or more items, the tree reduction factor decides whether
    [dask_executor] ever answers: with [treereduction = 1] every round of
    the reduction leaves as many tasks as it found and the call never
    returns; with [0] it raises [ValueError] from [range]; with a negative
    factor the first round leaves no task at all and [work[0]] raises
    [IndexError]. *)
Theorem dask_executor_degenerate_factor {V : Type} `{External V} {Item : Type}
    (items : list Item) (function : Item → result (PyObj V)) (accumulator : PyObj V)
    (clevel : option Z) :
  (2 ≤ length items)%nat →
  (∀ fuel, dask_executor items function accumulator 1 clevel fuel = None)
  ∧ (∀ fuel, dask_executor items function accumulator 0 clevel (S fuel)
             = Some (raise ValueError "range() arg 3 must not be zero"))
  ∧ (∀ ntree fuel,
       ntree < 0 →
       dask_executor items function accumulator ntree clevel (S fuel)
       = Some (raise IndexError "list index out of range")).
Proof.
  intros Hlen. unfold dask_executor.
  rewrite (proj2 (Nat.eqb_neq _ _)) by lia.
  split; [|split].
  - intros fuel. rewrite tree_loop_stuck; [done|]. by rewrite length_map.
  - intros fuel. rewrite tree_loop_round by (by rewrite length_map). done.
  - intros ntree fuel Hneg. rewrite tree_loop_round by (by rewrite length_map).
    unfold tree_groups.
    destruct (Z.eqb_spec ntree 0) as [|_]; [lia|].
    destruct (Z.ltb_spec ntree 0) as [_|]; [|lia].
    simpl. by rewrite tree_loop_short by (simpl; lia).
Qed.

(** X29 on two items. *)
Lemma dask_executor_degenerate_factor_witness :
  (∀ fuel, dask_executor [true; false] (λ b, Ok (PyAcc b)) PyNone 1 (Some 1) fuel = None)
  ∧ (∀ fuel, dask_executor [true; false] (λ b, Ok (PyAcc b)) PyNone 0 (Some 1) (S fuel)
             = Some (raise ValueError "range() arg 3 must not be zero"))
  ∧ (∀ ntree fuel,
       ntree < 0 →
       dask_executor [true; false] (λ b, Ok (PyAcc b)) PyNone ntree (Some 1) (S fuel)
       = Some (raise IndexError "list index out of range")).
Proof.
  apply (@dask_executor_degenerate_factor bool toy_external bool [true; false]
           (λ b, Ok (PyAcc b)) PyNone (Some 1)).
  simpl. lia.
Defined.

(** X30. With a tree reduction factor of at least 2, [dask_executor] on a
    list that is not empty returns or raises within as many rounds as there
    are items.  When, besides, the items number at least two, fit in one
    group and travel uncompressed, one round is made: if no task fails, the
    answer is [accumulate] of the one merged output into the accumulator,
    the merged output being [accumulate] of the outputs in item order; if
    exactly one task fails, its exception is what the call raises. *)
Theorem dask_executor_returns {V : Type} `{External V} {Item : Type}
    (items : list Item) (function : Item → result (PyObj V)) (accumulator : PyObj V)
    (ntree : Z) (clevel : option Z) :
  2 ≤ ntree →
  items ≠ [] →
  (∃ answer, dask_executor items function accumulator ntree clevel (length items)
             = Some answer)
  ∧ ((2 ≤ length items)%nat →
     Z.of_nat (length items) ≤ ntree →
     ∀ fuel,
       (∀ outs,
          map_result function items = Ok outs →
          dask_executor items function accumulator ntree None (S fuel)
          = Some (let? merged := accumulate outs PyNone in
                  accumulate [merged] accumulator))
       ∧ (∀ e,
            failures (map function items) = [e] →
            dask_executor items function accumulator ntree None (S fuel)
            = Some (Raise e))).
Proof.
  intros Hn Hne. unfold dask_executor.
  assert (length items ≠ 0)%nat as Hlen by (by destruct items).
  rewrite (proj2 (Nat.eqb_neq _ _)) by done.
  split.
  - match goal with
    | |- context [tree_loop _ _ _ ?work] =>
      destruct (tree_loop_ends clevel ntree Hn (length items) work) as [task ->]
    end.
    + rewrite length_map. lia.
    + eauto.
  - intros Htwo Hfit fuel.
    rewrite tree_loop_round by (by rewrite length_map).
    rewrite tree_groups_single by (rewrite length_map; lia).
    simpl map. rewrite tree_loop_short by (simpl; lia).
    split.
    + intros outs Houts. f_equal. unfold reduce_task.
      destruct (map_result_no_failure function items outs Houts) as [-> ->].
      apply map_result_length in Houts. unfold _reduce.
      rewrite (proj2 (Nat.eqb_neq _ _)) by lia.
      by destruct (accumulate outs PyNone).
    + intros e He. unfold reduce_task. by rewrite He.
Qed.

(** X30 on two items and the default factor. *)
Lemma dask_executor_returns_witness :
  (∃ answer, dask_executor [true; false] (λ b, Ok (PyAcc b)) PyNone 20 (Some 1) 2
             = Some answer)
  ∧ ((2 ≤ 2)%nat →
     2 ≤ 20 →
     ∀ fuel,
       (∀ outs,
          map_result (λ b, Ok (PyAcc b)) [true; false] = Ok outs →
          dask_executor [true; false] (λ b, Ok (PyAcc b)) PyNone 20 None (S fuel)
          = Some (let? merged := accumulate outs PyNone in
                  accumulate [merged] PyNone))
       ∧ (∀ e,
            failures (map (λ b, Ok (PyAcc b)) [true; false]) = [e] →
            dask_executor [true; false] (λ b, Ok (PyAcc b)) PyNone 20 None (S fuel)
            = Some (Raise e))).
Proof.
  apply (@dask_executor_returns bool toy_external bool [true; false]
           (λ b, Ok (PyAcc b)) PyNone 20 (Some 1)); [lia|done].
Defined.
